(** * materialize-base: expression, formula and filter core

    A shallow embedding of the evaluation core of the repository
    (src/duration.ts, src/global-functions.ts, src/expressions.ts) and the
    properties its specification states about it.

    Layout: Part I holds the definitions (host primitives, then one module
    per source file); Part II holds the lemmas and theorems. *)

From Stdlib Require Import Floats ZArith Ascii String List Bool Lia.
From stdpp Require Import gmap strings list.

Set Warnings "-register-all,-clear-no-such-hyp".

Local Open Scope string_scope.
Local Open Scope Z_scope.
Local Open Scope list_scope.

(* ===================================================================== *)
(** * Part I. Definitions                                                 *)
(* ===================================================================== *)

(** ** Host primitives (ECMAScript built-ins the source calls)

    A JavaScript string is modelled as a Rocq [string] whose characters are
    the code units 0..255; a JavaScript number is an IEEE-754 binary64 value,
    i.e. a primitive [float]. *)
Module Js.

Definition code (c : ascii) : Z := Z.of_nat (nat_of_ascii c).

(** The one-character string holding a double quote. *)
Definition dquote : string := String "034"%char EmptyString.

Definition chars (s : string) : list ascii := list_ascii_of_string s.
Definition str (l : list ascii) : string := string_of_list_ascii l.

(** WhiteSpace and LineTerminator code units below 256: TAB, LF, VT, FF,
    CR, SP and NBSP. This is the class of [\s] and of [String.prototype.trim]. *)
Definition isWhiteSpace (c : ascii) : bool :=
  let n := code c in
  ((9 <=? n) && (n <=? 13)) || (n =? 32) || (n =? 160).

Definition isDigit (c : ascii) : bool :=
  let n := code c in (48 <=? n) && (n <=? 57).

Definition isUpper (c : ascii) : bool :=
  let n := code c in (65 <=? n) && (n <=? 90).

Definition isLower (c : ascii) : bool :=
  let n := code c in (97 <=? n) && (n <=? 122).

(** Case mapping on the letters A-Z / a-z; other code units are kept. *)
Definition lowerChar (c : ascii) : ascii :=
  if isUpper c then ascii_of_nat (nat_of_ascii c + 32) else c.

Definition upperChar (c : ascii) : ascii :=
  if isLower c then ascii_of_nat (nat_of_ascii c - 32) else c.

Definition toLowerCase (s : string) : string := str (map lowerChar (chars s)).
Definition toUpperCase (s : string) : string := str (map upperChar (chars s)).

Fixpoint dropWhile {A} (p : A -> bool) (l : list A) : list A :=
  match l with
  | [] => []
  | x :: r => if p x then dropWhile p r else l
  end.

Fixpoint takeWhile {A} (p : A -> bool) (l : list A) : list A :=
  match l with
  | [] => []
  | x :: r => if p x then x :: takeWhile p r else []
  end.

Definition trimStartChars (l : list ascii) : list ascii := dropWhile isWhiteSpace l.
Definition trimEndChars (l : list ascii) : list ascii :=
  rev (dropWhile isWhiteSpace (rev l)).
Definition trimChars (l : list ascii) : list ascii := trimEndChars (trimStartChars l).

(** [String.prototype.trim] *)
Definition trim (s : string) : string := str (trimChars (chars s)).

(** [/\S/.test(s)] *)
Definition hasNonWhiteSpace (l : list ascii) : bool :=
  existsb (fun c => negb (isWhiteSpace c)) l.

(** [s.startsWith(name, index)] *)
Fixpoint isPrefix (p l : list ascii) : bool :=
  match p, l with
  | [], _ => true
  | _ :: _, [] => false
  | a :: p', b :: l' => if Ascii.eqb a b then isPrefix p' l' else false
  end.

Definition startsWithAt (l name : list ascii) (index : nat) : bool :=
  isPrefix name (skipn index l).

(** *** Numbers *)

Definition ofZ (z : Z) : float := SF2Prim (binary_normalize prec emax z 0 false).

(** Nearest binary64 value (ties to even) of [m * 10^e] for [m > 0]. *)
Definition roundDecimal (neg : bool) (m : Z) (e : Z) : float :=
  if m =? 0 then (if neg then PrimFloat.neg_zero else PrimFloat.zero)
  else if 0 <=? e then
    SF2Prim (binary_normalize prec emax
               (if neg then - (m * 10 ^ e) else m * 10 ^ e) 0 false)
  else
    let '(q, ex, loc) := SFdiv_core_binary prec emax m 0 (10 ^ (- e)) 0 in
    SF2Prim (binary_round_aux prec emax neg q ex loc).

Definition digitValue (c : ascii) : Z := code c - 48.

Definition digitsValue (ds : list ascii) : Z :=
  fold_left (fun acc c => 10 * acc + digitValue c) ds 0.

Definition isFinite (x : float) : bool := is_finite x.
Definition isNaN (x : float) : bool := is_nan x.

(** The numeric value of a float that holds an integer, if it does. *)
Definition toInteger (x : float) : option Z :=
  match Prim2SF x with
  | S754_zero _ => Some 0
  | S754_finite s m e =>
      if 0 <=? e then Some ((if s then -1 else 1) * (Z.pos m * 2 ^ e))
      else if (Z.pos m) mod (2 ^ (- e)) =? 0
           then Some ((if s then -1 else 1) * (Z.pos m / 2 ^ (- e)))
           else None
  | _ => None
  end.

(** ToIntegerOrInfinity on a finite number: truncation toward zero;
    the sum with [+0] turns [-0] into [+0]. *)
Definition truncate (x : float) : float :=
  match Prim2SF x with
  | S754_zero _ => PrimFloat.zero
  | S754_finite s m e =>
      if 0 <=? e then x
      else ofZ ((if s then -1 else 1) * (Z.pos m / 2 ^ (- e)))
  | _ => x
  end.

(** TimeClip: the time value a [Date] holds after [new Date(number)]. *)
Definition TimeClip (t : float) : float :=
  if negb (isFinite t) then PrimFloat.nan
  else if (8.64e15 <? abs t)%float then PrimFloat.nan
  else truncate t.

(** *** The numeric string grammar (StringNumericLiteral) *)

Inductive numeral :=
| NumInfinity
| NumDecimal (mantissa exp10 : Z).

Definition isExponentMark (c : ascii) : bool :=
  (code c =? 101) || (code c =? 69).

(** ExponentPart: [e] or [E], an optional sign, at least one digit; when no
    digit follows, nothing is consumed. *)
Definition scanExponent (l : list ascii) : Z * list ascii :=
  match l with
  | c :: r =>
      if isExponentMark c then
        let '(neg, r1) :=
          match r with
          | "+"%char :: r' => (false, r')
          | "-"%char :: r' => (true, r')
          | _ => (false, r)
          end in
        match takeWhile isDigit r1 with
        | [] => (0, l)
        | ds => ((if neg then - digitsValue ds else digitsValue ds),
                 dropWhile isDigit r1)
        end
      else (0, l)
  | [] => (0, l)
  end.

(** Longest prefix of [l] that is a StrUnsignedDecimalLiteral. *)
Definition scanUnsignedDecimal (l : list ascii) : option (numeral * list ascii) :=
  if isPrefix (chars "Infinity") l then Some (NumInfinity, skipn 8 l)
  else
    let ip := takeWhile isDigit l in
    match dropWhile isDigit l with
    | "."%char :: r2 =>
        let fp := takeWhile isDigit r2 in
        match ip, fp with
        | [], [] => None
        | _, _ =>
            let '(e, r4) := scanExponent (dropWhile isDigit r2) in
            Some (NumDecimal (digitsValue (ip ++ fp)) (e - Z.of_nat (length fp)), r4)
        end
    | r1 =>
        match ip with
        | [] => None
        | _ => let '(e, r4) := scanExponent r1 in
               Some (NumDecimal (digitsValue ip) e, r4)
        end
    end.

(** Longest prefix of [l] that is a StrDecimalLiteral, with its value. *)
Definition scanDecimal (l : list ascii) : option (float * list ascii) :=
  let '(neg, r) :=
    match l with
    | "+"%char :: r' => (false, r')
    | "-"%char :: r' => (true, r')
    | _ => (false, l)
    end in
  match scanUnsignedDecimal r with
  | Some (NumInfinity, rest) =>
      Some (if neg then PrimFloat.neg_infinity else PrimFloat.infinity, rest)
  | Some (NumDecimal m e, rest) => Some (roundDecimal neg m e, rest)
  | None => None
  end.

(** The global [parseFloat]: leading white space is skipped, then the
    longest StrDecimalLiteral prefix is converted; [NaN] if there is none. *)
Definition parseFloat (s : string) : float :=
  match scanDecimal (trimStartChars (chars s)) with
  | Some (x, _) => x
  | None => PrimFloat.nan
  end.

Definition radixDigit (radix : Z) (c : ascii) : option Z :=
  let n := code c in
  let v := if isDigit c then n - 48
           else if isLower c then n - 87
           else if isUpper c then n - 55
           else radix in
  if v <? radix then Some v else None.

Fixpoint radixValue (radix : Z) (ds : list ascii) (acc : Z) : option Z :=
  match ds with
  | [] => Some acc
  | c :: r =>
      match radixDigit radix c with
      | Some v => radixValue radix r (radix * acc + v)
      | None => None
      end
  end.

(** NonDecimalIntegerLiteral: [0x], [0o], [0b] and at least one digit. *)
Definition scanRadix (l : list ascii) : option float :=
  match l with
  | "0"%char :: c :: (_ :: _) as ds =>
      let radix :=
        if (code c =? 120) || (code c =? 88) then Some 16
        else if (code c =? 111) || (code c =? 79) then Some 8
        else if (code c =? 98) || (code c =? 66) then Some 2
        else None in
      match radix with
      | Some r => option_map ofZ (radixValue r ds 0)
      | None => None
      end
  | _ => None
  end.

(** StringToNumber, i.e. [Number(s)] for a string [s]: the whole trimmed
    string has to be a numeric literal; the empty string is [+0]. *)
Definition StringToNumber (s : string) : float :=
  match trimChars (chars s) with
  | [] => PrimFloat.zero
  | l =>
      match scanRadix l with
      | Some x => x
      | None =>
          match scanDecimal l with
          | Some (x, []) => x
          | _ => PrimFloat.nan
          end
      end
  end.

(** *** Decimal output of integers *)

Fixpoint digitsFuel (fuel : nat) (n : Z) (acc : list ascii) : list ascii :=
  match fuel with
  | O => acc
  | S f =>
      let acc' := ascii_of_nat (Z.to_nat (48 + n mod 10)) :: acc in
      if n <? 10 then acc' else digitsFuel f (n / 10) acc'
  end.

Definition decimalDigits (n : Z) : list ascii :=
  digitsFuel (S (Z.to_nat (Z.log2 n))) n [].

Definition padStart (width : nat) (l : list ascii) : list ascii :=
  repeat "0"%char (width - length l) ++ l.

Definition pad (width : nat) (n : Z) : string := str (padStart width (decimalDigits n)).

(** Number::toString on the values whose output needs no shortest-digits
    search: NaN, the infinities and the integers below 10^21. *)
Definition numberToString (x : float) : option string :=
  if isNaN x then Some "NaN"
  else if (x =? PrimFloat.infinity)%float then Some "Infinity"
  else if (x =? PrimFloat.neg_infinity)%float then Some "-Infinity"
  else match toInteger x with
       | Some z =>
           if Z.abs z <? 10 ^ 21
           then Some ((if z <? 0 then "-" else "") +:+ str (decimalDigits (Z.abs z)))
           else None
       | None => None
       end.

(** *** Dates: time values are milliseconds since the epoch, UTC *)

Definition msPerDay : Z := 86400000.

(** Year, month (1..12) and day of month of a day number. *)
Definition civilFromDays (z0 : Z) : Z * Z * Z :=
  let z := z0 + 719468 in
  let era := z / 146097 in
  let doe := z - era * 146097 in
  let yoe := (doe - doe / 1460 + doe / 36524 - doe / 146096) / 365 in
  let doy := doe - (365 * yoe + yoe / 4 - yoe / 100) in
  let mp := (5 * doy + 2) / 153 in
  let d := doy - (153 * mp + 2) / 5 + 1 in
  let m := if mp <? 10 then mp + 3 else mp - 9 in
  let y := yoe + era * 400 in
  ((if m <=? 2 then y + 1 else y), m, d).

Definition daysFromCivil (y0 m d : Z) : Z :=
  let y := if m <=? 2 then y0 - 1 else y0 in
  let era := y / 400 in
  let yoe := y - era * 400 in
  let doy := (153 * (if 2 <? m then m - 3 else m + 9) + 2) / 5 + d - 1 in
  let doe := yoe * 365 + yoe / 4 - yoe / 100 + doy in
  era * 146097 + doe - 719468.

Definition isoYear (y : Z) : string :=
  if (0 <=? y) && (y <=? 9999) then pad 4 y
  else (if y <? 0 then "-" else "+") +:+ pad 6 (Z.abs y).

(** [Date.prototype.toISOString]; [None] stands for the RangeError on an
    invalid date. *)
Definition toISOString (t : float) : option string :=
  match toInteger t with
  | Some ms =>
      let day := ms / msPerDay in
      let msInDay := ms mod msPerDay in
      let '(y, m, d) := civilFromDays day in
      Some (isoYear y +:+ "-" +:+ pad 2 m +:+ "-" +:+ pad 2 d +:+ "T"
            +:+ pad 2 (msInDay / 3600000) +:+ ":"
            +:+ pad 2 (msInDay / 60000 mod 60) +:+ ":"
            +:+ pad 2 (msInDay / 1000 mod 60) +:+ "."
            +:+ pad 3 (msInDay mod 1000) +:+ "Z")
  | None => None
  end.

(** *** The Date Time String Format, UTC forms

    [YYYY], [YYYY-MM], [YYYY-MM-DD], optionally followed by [THH:mm],
    [THH:mm:ss] or [THH:mm:ss.sss] and the designator [Z]. Date-only forms
    are UTC. Other inputs of [Date.parse] (local-time forms, offsets,
    implementation-defined formats) are not covered: [None]. *)

Definition takeDigits (n : nat) (l : list ascii) : option (Z * list ascii) :=
  let ds := firstn n l in
  if (length ds =? n)%nat && forallb isDigit ds
  then Some (digitsValue ds, skipn n l) else None.

Definition expect (c : ascii) (l : list ascii) : option (list ascii) :=
  match l with
  | x :: r => if Ascii.eqb x c then Some r else None
  | [] => None
  end.

Definition isLeapYear (y : Z) : bool :=
  ((y mod 4 =? 0) && negb (y mod 100 =? 0)) || (y mod 400 =? 0).

Definition daysInMonth (y m : Z) : Z :=
  if m =? 2 then (if isLeapYear y then 29 else 28)
  else if (m =? 4) || (m =? 6) || (m =? 9) || (m =? 11) then 30 else 31.

Definition makeTime (y m d hh mm ss ms : Z) : option float :=
  if (1 <=? m) && (m <=? 12) && (1 <=? d) && (d <=? daysInMonth y m)
     && (hh <=? 23) && (mm <=? 59) && (ss <=? 59)
  then Some (ofZ (daysFromCivil y m d * msPerDay
                  + hh * 3600000 + mm * 60000 + ss * 1000 + ms))
  else None.

(** The time of day after [T], up to and including [Z]. *)
Definition parseTimeOfDay (l : list ascii) : option (Z * Z * Z * Z) :=
  match takeDigits 2 l with
  | Some (hh, l1) =>
      match expect ":"%char l1 with
      | Some l2 =>
          match takeDigits 2 l2 with
          | Some (mm, l3) =>
              match l3 with
              | ["Z"%char] => Some (hh, mm, 0, 0)
              | ":"%char :: l4 =>
                  match takeDigits 2 l4 with
                  | Some (ss, l5) =>
                      match l5 with
                      | ["Z"%char] => Some (hh, mm, ss, 0)
                      | "."%char :: l6 =>
                          match takeDigits 3 l6 with
                          | Some (ms, ["Z"%char]) => Some (hh, mm, ss, ms)
                          | _ => None
                          end
                      | _ => None
                      end
                  | None => None
                  end
              | _ => None
              end
          | None => None
          end
      | None => None
      end
  | None => None
  end.

Definition parseAfterDate (y m d : Z) (l : list ascii) : option float :=
  match l with
  | [] => makeTime y m d 0 0 0 0
  | "T"%char :: t =>
      match parseTimeOfDay t with
      | Some (hh, mm, ss, ms) => makeTime y m d hh mm ss ms
      | None => None
      end
  | _ => None
  end.

Definition DateParse (s : string) : option float :=
  match takeDigits 4 (chars s) with
  | Some (y, l1) =>
      match l1 with
      | "-"%char :: l2 =>
          match takeDigits 2 l2 with
          | Some (m, l3) =>
              match l3 with
              | "-"%char :: l4 =>
                  match takeDigits 2 l4 with
                  | Some (d, l5) => parseAfterDate y m d l5
                  | None => None
                  end
              | _ => parseAfterDate y m 1 l3
              end
          | None => None
          end
      | _ => parseAfterDate y 1 1 l1
      end
  | None => None
  end.

End Js.

(** ** Values, errors and outcomes *)

(** Callable values that can be reached from an evaluation scope. *)
Inductive callable :=
| GlobalFn (name : string)          (* an entry of the global function scope *)
| FileMethod (name : string)        (* a method of the file expression object *)
| LinkFactory (path : string)       (* the [asLink] closure of a [file(...)] result *)
| HostFn (name : string).           (* a host constructor or function, e.g. "BigInt" *)

(** The JavaScript values the evaluator manipulates. Objects are plain
    records of own properties in insertion order; the file expression object
    and the formula proxy, which are unique per evaluation state, are
    constants of the type, so that [file.file] is the same object again. *)
Inductive value :=
| VUndefined
| VNull
| VBool (b : bool)
| VNum (n : float)
| VBigInt (z : Z)
| VStr (s : string)
| VDate (t : float)
| VArr (items : list value)
| VObj (props : list (string * value))
| VRegExp (pattern flags : string)
| VFile
| VFormula
| VFun (f : callable)
| VHostObject (name : string).      (* a host namespace object: JSON, Math, Reflect *)

(** A JavaScript error object: constructor name, message and cause chain. *)
Inductive error :=
| JsError (name message : string) (cause : option error).

Definition Error (message : string) : error := JsError "Error" message None.
Definition ErrorCause (message : string) (cause : error) : error :=
  JsError "Error" message (Some cause).
Definition TypeError (message : string) : error := JsError "TypeError" message None.
Definition ReferenceError (message : string) : error :=
  JsError "ReferenceError" message None.

Definition errorMessage (e : error) : string :=
  match e with JsError _ m _ => m end.

(** The messages along the cause chain, outermost first. *)
Fixpoint errorChain (e : error) : list string :=
  match e with
  | JsError _ m None => [m]
  | JsError _ m (Some c) => m :: errorChain c
  end.

(** What a call of the modelled code produces: a value, a thrown error, a
    host behaviour this model does not cover, or exhausted recursion fuel. *)
Inductive outcome (A : Type) :=
| Ok (a : A)
| Throw (e : error)
| Unmodelled (what : string)
| OutOfFuel.
Arguments Ok {A} a.
Arguments Throw {A} e.
Arguments Unmodelled {A} what.
Arguments OutOfFuel {A}.

Definition obind {A B} (m : outcome A) (k : A -> outcome B) : outcome B :=
  match m with
  | Ok a => k a
  | Throw e => Throw e
  | Unmodelled w => Unmodelled w
  | OutOfFuel => OutOfFuel
  end.

(** ** A backtracking matcher for the regular expressions of the source

    [run] returns the successes of a pattern at the head of the input in
    the priority order of the ECMAScript matcher (alternatives left to
    right, quantifiers greedy); the first success is the one [exec]
    reports. A success carries the captured groups and the unread input. *)
Module Regex.

Inductive regex :=
| Lit (s : string)                  (* literal characters *)
| Digit                             (* \d *)
| Space                             (* \s *)
| Seq (a b : regex)
| Alt (a b : regex)                 (* a|b *)
| Opt (a : regex)                   (* a? *)
| Star (a : regex)                  (* a* *)
| Plus (a : regex)                  (* a+ *)
| Group (a : regex).                (* (a), capturing *)

Definition success : Type := list string * list ascii.

(** Canonicalize of the [i] flag on code units below 128. *)
Definition sameChar (ignoreCase : bool) (a b : ascii) : bool :=
  if ignoreCase then Ascii.eqb (Js.upperChar a) (Js.upperChar b)
  else Ascii.eqb a b.

Fixpoint matchLit (ignoreCase : bool) (p input : list ascii) : option (list ascii) :=
  match p, input with
  | [], _ => Some input
  | _ :: _, [] => None
  | a :: p', b :: r => if sameChar ignoreCase a b then matchLit ignoreCase p' r else None
  end.

Definition consumed (input rest : list ascii) : string :=
  Js.str (firstn (length input - length rest) input).

Section Run.
Variable ignoreCase : bool.

(** Greedy iteration of a body matcher; an iteration that consumes
    nothing is rejected, so [fuel = length input] iterations suffice. *)
Fixpoint iterate (body : list ascii -> list success) (fuel : nat)
         (input : list ascii) : list success :=
  match fuel with
  | O => [([], input)]
  | S f =>
      flat_map (fun '(c1, rest1) =>
                  if (length rest1 <? length input)%nat
                  then map (fun '(c2, rest2) => (c1 ++ c2, rest2)) (iterate body f rest1)
                  else [])
               (body input)
      ++ [([], input)]
  end.

Fixpoint run (r : regex) (input : list ascii) : list success :=
  match r with
  | Lit s =>
      match matchLit ignoreCase (Js.chars s) input with
      | Some rest => [([], rest)]
      | None => []
      end
  | Digit =>
      match input with
      | c :: rest => if Js.isDigit c then [([], rest)] else []
      | [] => []
      end
  | Space =>
      match input with
      | c :: rest => if Js.isWhiteSpace c then [([], rest)] else []
      | [] => []
      end
  | Seq a b =>
      flat_map (fun '(c1, rest1) =>
                  map (fun '(c2, rest2) => (c1 ++ c2, rest2)) (run b rest1))
               (run a input)
  | Alt a b => run a input ++ run b input
  | Opt a => run a input ++ [([], input)]
  | Star a => iterate (run a) (length input) input
  | Plus a =>
      flat_map (fun '(c1, rest1) =>
                  map (fun '(c2, rest2) => (c1 ++ c2, rest2))
                      (iterate (run a) (length rest1) rest1))
               (run a input)
  | Group a =>
      map (fun '(c, rest) => (consumed input rest :: c, rest)) (run a input)
  end.

(** The leftmost match at or after the head of [suffix], which starts
    at position [index] of the subject. *)
Fixpoint searchFrom (r : regex) (suffix : list ascii) (index : nat)
  : option (nat * success) :=
  match run r suffix with
  | s :: _ => Some (index, s)
  | [] =>
      match suffix with
      | [] => None
      | _ :: suffix' => searchFrom r suffix' (S index)
      end
  end.
End Run.

(** What [RegExp.prototype.exec] yields on a global pattern. *)
Record execResult := {
  index : nat;            (* exec.index *)
  captures : list string; (* exec[1], exec[2], ... *)
  lastIndex : nat         (* the pattern's lastIndex after the match *)
}.

(** [pattern.exec(subject)] with the [g] flag and [pattern.lastIndex = from]. *)
Definition exec (ignoreCase : bool) (r : regex) (subject : list ascii) (from : nat)
  : option execResult :=
  if (length subject <? from)%nat then None
  else
    match searchFrom ignoreCase r (skipn from subject) from with
    | Some (i, (caps, rest)) =>
        Some {| index := i; captures := caps;
                lastIndex := length subject - length rest |}
    | None => None
    end.

Definition oneOf (first : regex) (others : list regex) : regex :=
  fold_left Alt others first.

End Regex.

(** ** src/duration.ts *)
Module Duration.
Import Regex.

Definition MILLISECONDS_IN_SECOND : float := 1000.
Definition MILLISECONDS_IN_MINUTE : float := (60 * MILLISECONDS_IN_SECOND)%float.
Definition MILLISECONDS_IN_HOUR : float := (60 * MILLISECONDS_IN_MINUTE)%float.
Definition MILLISECONDS_IN_DAY : float := (24 * MILLISECONDS_IN_HOUR)%float.
Definition MILLISECONDS_IN_WEEK : float := (7 * MILLISECONDS_IN_DAY)%float.
Definition MILLISECONDS_IN_MONTH : float := (30 * MILLISECONDS_IN_DAY)%float.
Definition MILLISECONDS_IN_YEAR : float := (365 * MILLISECONDS_IN_DAY)%float.

Definition DURATION_UNIT_MULTIPLIERS : list (string * float) :=
  [ ("y", MILLISECONDS_IN_YEAR);
    ("year", MILLISECONDS_IN_YEAR);
    ("years", MILLISECONDS_IN_YEAR);
    ("M", MILLISECONDS_IN_MONTH);
    ("month", MILLISECONDS_IN_MONTH);
    ("months", MILLISECONDS_IN_MONTH);
    ("w", MILLISECONDS_IN_WEEK);
    ("week", MILLISECONDS_IN_WEEK);
    ("weeks", MILLISECONDS_IN_WEEK);
    ("d", MILLISECONDS_IN_DAY);
    ("day", MILLISECONDS_IN_DAY);
    ("days", MILLISECONDS_IN_DAY);
    ("h", MILLISECONDS_IN_HOUR);
    ("hour", MILLISECONDS_IN_HOUR);
    ("hours", MILLISECONDS_IN_HOUR);
    ("m", MILLISECONDS_IN_MINUTE);
    ("min", MILLISECONDS_IN_MINUTE);
    ("mins", MILLISECONDS_IN_MINUTE);
    ("minute", MILLISECONDS_IN_MINUTE);
    ("minutes", MILLISECONDS_IN_MINUTE);
    ("s", MILLISECONDS_IN_SECOND);
    ("sec", MILLISECONDS_IN_SECOND);
    ("secs", MILLISECONDS_IN_SECOND);
    ("second", MILLISECONDS_IN_SECOND);
    ("seconds", MILLISECONDS_IN_SECOND) ].

(** [Map.prototype.get] on a map built from an array of entries. *)
Fixpoint mapGet {V} (m : list (string * V)) (key : string) : option V :=
  match m with
  | [] => None
  | (k, v) :: r => if String.eqb k key then Some v else mapGet r key
  end.

(** [word s?] *)
Definition plural (word : string) : regex := Seq (Lit word) (Opt (Lit "s")).

(** [(-?\d+(?:\.\d+)?)] *)
Definition NUMBER_GROUP : regex :=
  Group (Seq (Opt (Lit "-")) (Seq (Plus Digit) (Opt (Seq (Lit ".") (Plus Digit))))).

(** [(years?|y|months?|M|weeks?|w|days?|d|hours?|h|minutes?|mins?|min|m|seconds?|secs?|sec|s)] *)
Definition UNIT_GROUP : regex :=
  Group (oneOf (plural "year")
           [ Lit "y"; plural "month"; Lit "M"; plural "week"; Lit "w";
             plural "day"; Lit "d"; plural "hour"; Lit "h";
             plural "minute"; plural "min"; Lit "min"; Lit "m";
             plural "second"; plural "sec"; Lit "sec"; Lit "s" ]).

(** The pattern of DURATION_PATTERN; its flags are [g] and [i]. *)
Definition DURATION_PATTERN : regex :=
  Seq NUMBER_GROUP (Seq (Star Space) UNIT_GROUP).

Definition quote (s : string) : string := Js.dquote +:+ s +:+ Js.dquote.

Definition sliceChars (l : list ascii) (from to : nat) : list ascii :=
  firstn (to - from) (skipn from l).

(** The [while] loop of [parseDuration]: one iteration per [fuel]. *)
Fixpoint parseLoop (fuel : nat) (input : string) (trimmed : list ascii)
         (total : float) (lastIndex : nat) (matched : bool) : outcome float :=
  match fuel with
  | O => OutOfFuel
  | S fuel' =>
      match exec true DURATION_PATTERN trimmed lastIndex with
      | Some m =>
          let between := sliceChars trimmed lastIndex (index m) in
          if negb (index m =? lastIndex)%nat && Js.hasNonWhiteSpace between then
            Throw (Error ("Invalid duration segment " +:+ quote (Js.trim (Js.str between))
                          +:+ " in " +:+ quote input +:+ "."))
          else
            let number := nth 0 (captures m) "" in
            let unitRaw := nth 1 (captures m) "" in
            let amount := Js.parseFloat number in
            if negb (Js.isFinite amount) then
              Throw (Error ("Invalid duration value " +:+ quote number
                            +:+ " in " +:+ quote input +:+ "."))
            else
              let multiplier :=
                match mapGet DURATION_UNIT_MULTIPLIERS unitRaw with
                | Some x => Some x
                | None => mapGet DURATION_UNIT_MULTIPLIERS (Js.toLowerCase unitRaw)
                end in
              match multiplier with
              | None =>
                  Throw (Error ("Unsupported duration unit " +:+ quote unitRaw
                                +:+ " in " +:+ quote input +:+ "."))
              | Some mult =>
                  parseLoop fuel' input trimmed (total + amount * mult)%float
                            (Regex.lastIndex m) true
              end
      | None =>
          if negb matched then
            Throw (Error ("Unable to parse duration string " +:+ quote input +:+ "."))
          else
            let remainder := skipn lastIndex trimmed in
            if (lastIndex <? length trimmed)%nat && Js.hasNonWhiteSpace remainder then
              Throw (Error ("Invalid trailing content " +:+ quote (Js.trim (Js.str remainder))
                            +:+ " in " +:+ quote input +:+ "."))
            else Ok total
      end
  end.

Definition parseDuration (input : string) : outcome float :=
  let trimmed := Js.chars (Js.trim input) in
  if (length trimmed =? 0)%nat then
    Throw (Error "duration() requires a non-empty string.")
  else parseLoop (S (length trimmed)) input trimmed 0 0 false.

Definition tryParseDuration (input : value) : option float :=
  match input with
  | VStr s =>
      match parseDuration s with
      | Ok n => Some n
      | _ => None
      end
  | _ => None
  end.

End Duration.

(** ** Plain objects and coercions of the host *)
Module Host.

(** Own-property lookup of a plain object. *)
Fixpoint objGet {V} (props : list (string * V)) (key : string) : option V :=
  match props with
  | [] => None
  | (k, v) :: r => if String.eqb k key then Some v else objGet r key
  end.

(** [Object.prototype.hasOwnProperty.call(obj, key)] *)
Definition hasOwn {V} (props : list (string * V)) (key : string) : bool :=
  match objGet props key with Some _ => true | None => false end.

(** [Object.keys(obj)] *)
Definition keys {V} (props : list (string * V)) : list string := map fst props.

Definition memString (x : string) (l : list string) : bool :=
  existsb (String.eqb x) l.

(** Property names every ordinary object inherits from [Object.prototype]. *)
Definition OBJECT_PROTOTYPE_KEYS : list string :=
  [ "constructor"; "__proto__"; "hasOwnProperty"; "isPrototypeOf";
    "propertyIsEnumerable"; "toLocaleString"; "toString"; "valueOf";
    "__defineGetter__"; "__defineSetter__"; "__lookupGetter__";
    "__lookupSetter__" ].

(** [Boolean(v)] *)
Definition toBoolean (v : value) : bool :=
  match v with
  | VUndefined | VNull => false
  | VBool b => b
  | VNum n => negb (Js.isNaN n || is_zero n)
  | VBigInt z => negb (z =? 0)
  | VStr s => negb (String.eqb s "")
  | _ => true
  end.

(** [typeof v] *)
Definition typeOf (v : value) : string :=
  match v with
  | VUndefined => "undefined"
  | VBool _ => "boolean"
  | VNum _ => "number"
  | VBigInt _ => "bigint"
  | VStr _ => "string"
  | VFun _ => "function"
  | _ => "object"
  end.

Definition isCallable (v : value) : bool :=
  match v with VFun _ => true | _ => false end.

(** [Number(v)]. An object is converted through its primitive value; the
    model covers the objects whose primitive value does not depend on
    user-defined or locale-dependent methods. *)
Definition toNumber (v : value) : outcome float :=
  match v with
  | VUndefined => Ok PrimFloat.nan
  | VNull => Ok PrimFloat.zero
  | VBool b => Ok (if b then 1 else 0)%float
  | VNum n => Ok n
  | VBigInt z => Ok (Js.ofZ z)
  | VStr s => Ok (Js.StringToNumber s)
  | VDate t => Ok t
  | VArr [] => Ok PrimFloat.zero
  | VArr _ => Unmodelled "Number(array)"
  | VObj props =>
      if hasOwn props "valueOf" || hasOwn props "toString"
      then Unmodelled "Number(object with own conversion)"
      else Ok PrimFloat.nan
  | VRegExp _ _ | VFile | VFun _ | VHostObject _ => Ok PrimFloat.nan
  | VFormula => Unmodelled "Number(proxy)"
  end.

(** [String(v)] on primitives. *)
Definition toStringPrimitive (v : value) : outcome string :=
  match v with
  | VUndefined => Ok "undefined"
  | VNull => Ok "null"
  | VBool b => Ok (if b then "true" else "false")
  | VNum n =>
      match Js.numberToString n with
      | Some s => Ok s
      | None => Unmodelled "Number.prototype.toString"
      end
  | VBigInt z => Ok ((if z <? 0 then "-" else "") +:+ Js.str (Js.decimalDigits (Z.abs z)))
  | VStr s => Ok s
  | _ => Unmodelled "String(object)"
  end.

Definition isPrimitive (v : value) : bool :=
  match v with
  | VUndefined | VNull | VBool _ | VNum _ | VBigInt _ | VStr _ => true
  | _ => false
  end.

(** ToInt32 *)
Definition toInt32 (x : float) : Z :=
  if negb (Js.isFinite x) then 0
  else match Js.toInteger (Js.truncate x) with
       | Some z => let m := z mod 2 ^ 32 in if 2 ^ 31 <=? m then m - 2 ^ 32 else m
       | None => 0
       end.

(** Code-unit order of strings, as [<] on two strings. *)
Fixpoint stringLt (a b : list ascii) : bool :=
  match a, b with
  | _, [] => false
  | [], _ :: _ => true
  | x :: a', y :: b' =>
      if Js.code x <? Js.code y then true
      else if Js.code y <? Js.code x then false
      else stringLt a' b'
  end.

End Host.

(** ** src/global-functions.ts *)
Module GlobalFunctions.
Import Host.

Definition cloneDate (t : float) : value := VDate (Js.TimeClip t).

Definition parseDate (input : value) : outcome value :=
  match input with
  | VDate t => Ok (cloneDate t)
  | VStr s =>
      let trimmed := Js.trim s in
      if (String.length trimmed =? 0)%nat then
        Throw (Error "date() requires a non-empty string.")
      else
        match Js.DateParse trimmed with
        | Some t =>
            if Js.isNaN t then
              Throw (Error ("Unable to parse date string " +:+ Duration.quote s +:+ "."))
            else Ok (VDate t)
        | None => Unmodelled "Date.parse"
        end
  | _ => Throw (Error "date() requires a string or Date argument.")
  end.

Definition nonEmptyTrimmed (v : option value) : option string :=
  match v with
  | Some (VStr s) =>
      if (0 <? String.length (Js.trim s))%nat then Some (Js.trim s) else None
  | _ => None
  end.

Fixpoint firstCandidate (candidates : list (option value)) : option string :=
  match candidates with
  | [] => None
  | c :: r =>
      match nonEmptyTrimmed c with
      | Some s => Some s
      | None => firstCandidate r
      end
  end.

(** [normalizePathInput]; the result [None] is [undefined]. No [URL]
    instance is a value of the model. *)
Definition normalizePathInput (input : value) : outcome (option string) :=
  match input with
  | VStr s =>
      let trimmed := Js.trim s in
      Ok (if (String.length trimmed =? 0)%nat then None else Some trimmed)
  | VObj props =>
      Ok (firstCandidate [objGet props "path"; objGet props "target";
                          objGet props "url"; objGet props "href"])
  | VUndefined | VNull | VBool _ | VNum _ | VBigInt _ | VFun _ => Ok None
  | VArr _ | VDate _ | VRegExp _ _ | VHostObject _ => Ok None
  | VFile | VFormula => Unmodelled "property reads on the file object or the proxy"
  end.

Definition createLinkObject (path : string) (display : value) : value :=
  VObj (("path", VStr path) :: ("isEmbed", VBool false)
        :: match display with
           | VUndefined => []
           | _ => [("display", display)]
           end).

Definition normalizeNumber (input : value) : outcome float :=
  match input with
  | VNum n =>
      if negb (Js.isFinite n) then
        Throw (Error "number() requires finite numeric values.")
      else Ok n
  | VDate t => Ok t
  | VBool b => Ok (if b then 1 else 0)%float
  | VStr s =>
      let trimmed := Js.trim s in
      if (String.length trimmed =? 0)%nat then
        Throw (Error "number() cannot parse an empty string.")
      else
        let parsed := Js.StringToNumber trimmed in
        if negb (Js.isFinite parsed) then
          Throw (Error ("Unable to parse number from " +:+ Duration.quote s +:+ "."))
        else Ok parsed
  | VNull | VUndefined =>
      Throw (Error "number() cannot convert null or undefined.")
  | _ =>
      obind (toNumber input) (fun primitive =>
        if negb (Js.isFinite primitive) then
          Throw (Error "number() requires convertible numeric values.")
        else Ok primitive)
  end.

Definition isNumberValue (v : value) : bool :=
  match v with
  | VNum n => negb (Js.isNaN n)
  | _ => false
  end.

(** [ensureNumericArguments]; on success the arguments as numbers. *)
Definition ensureNumericArguments (values : list value) : outcome (list float) :=
  match values with
  | [] => Throw (Error "At least one value is required.")
  | _ =>
      if forallb isNumberValue values
      then Ok (flat_map (fun v => match v with VNum n => [n] | _ => [] end) values)
      else Throw (Error "All arguments must be numbers.")
  end.

(** [Math.max] and [Math.min] on numbers none of which is NaN. *)
Definition max2 (a b : float) : float :=
  if (a <? b)%float then b
  else if (b <? a)%float then a
  else if get_sign a then b else a.

Definition min2 (a b : float) : float :=
  if (a <? b)%float then a
  else if (b <? a)%float then b
  else if get_sign a then a else b.

Definition mathMax (l : list float) : float := fold_left max2 l PrimFloat.neg_infinity.
Definition mathMin (l : list float) : float := fold_left min2 l PrimFloat.infinity.

Definition arg (args : list value) (i : nat) : value := nth i args VUndefined.

(** The keys of GLOBAL_FUNCTIONS, in the order of the object literal. *)
Definition GLOBAL_FUNCTION_NAMES : list string :=
  [ "today"; "now"; "date"; "duration"; "file"; "if"; "image"; "icon";
    "link"; "list"; "max"; "min"; "number" ].

(** [createGlobalFunctionScope()]: the entries of a fresh copy. *)
Definition createGlobalFunctionScope : list (string * value) :=
  map (fun name => (name, VFun (GlobalFn name))) GLOBAL_FUNCTION_NAMES.

(** The body of each global function, applied to its arguments. [today]
    and [now] read the host clock, which the model does not hold. *)
Definition applyGlobal (name : string) (args : list value) : outcome value :=
  if String.eqb name "today" then Unmodelled "host clock"
  else if String.eqb name "now" then Unmodelled "host clock"
  else if String.eqb name "date" then parseDate (arg args 0)
  else if String.eqb name "duration" then
    match arg args 0 with
    | VStr s => obind (Duration.parseDuration s) (fun n => Ok (VNum n))
    | _ => Unmodelled "duration(non-string)"
    end
  else if String.eqb name "file" then
    obind (normalizePathInput (arg args 0)) (fun resolved =>
      match resolved with
      | None => Throw (Error "file() requires a string, file, link, or URL value.")
      | Some path =>
          Ok (VObj [("path", VStr path); ("isEmbed", VBool false);
                    ("asLink", VFun (LinkFactory path))])
      end)
  else if String.eqb name "if" then
    if toBoolean (arg args 0) then Ok (arg args 1)
    else Ok (match arg args 2 with
             | VUndefined | VNull => VNull
             | falseResult => falseResult
             end)
  else if String.eqb name "image" then
    obind (normalizePathInput (arg args 0)) (fun resolved =>
      Ok (VStr ("![](" +:+ default "" resolved +:+ ")")))
  else if String.eqb name "icon" then
    Ok (VStr ("icon(" +:+ default "unknown" (nonEmptyTrimmed (Some (arg args 0))) +:+ ")"))
  else if String.eqb name "link" then
    obind (normalizePathInput (arg args 0)) (fun resolved =>
      match resolved with
      | None => Throw (Error "link() requires a string or file-like value.")
      | Some path => Ok (createLinkObject path (arg args 1))
      end)
  else if String.eqb name "list" then
    match arg args 0 with
    | VArr items => Ok (VArr items)
    | v => Ok (VArr [v])
    end
  else if String.eqb name "max" then
    obind (ensureNumericArguments args) (fun ns => Ok (VNum (mathMax ns)))
  else if String.eqb name "min" then
    obind (ensureNumericArguments args) (fun ns => Ok (VNum (mathMin ns)))
  else if String.eqb name "number" then
    obind (normalizeNumber (arg args 0)) (fun n => Ok (VNum n))
  else Unmodelled "unknown global function".

End GlobalFunctions.

(** ** src/expressions.ts: source rewriting *)
Module Rewrite.

Definition GLOBAL_FUNCTION_ALIASES : list (string * string) :=
  [ ("if", "_if"); ("file", "_fileFn") ].

(** IDENTIFIER_CHAR_PATTERN, [[A-Za-z0-9_$]] *)
Definition identifierChar (c : ascii) : bool :=
  Js.isUpper c || Js.isLower c || Js.isDigit c
  || Ascii.eqb c "_"%char || Ascii.eqb c "$"%char.

(** [isIdentifierCharacter]; [None] is [undefined]. *)
Definition isIdentifierCharacter (char : option ascii) : bool :=
  match char with
  | None => false
  | Some c => identifierChar c
  end.

(** [expression[index]] *)
Definition charAt (expression : list ascii) (index : nat) : option ascii :=
  nth_error expression index.

(** [expression[index - 1]], which is [undefined] at index 0. *)
Definition charBefore (expression : list ascii) (index : nat) : option ascii :=
  match index with
  | O => None
  | S i => nth_error expression i
  end.

Definition isChar (char : option ascii) (c : ascii) : bool :=
  match char with
  | Some x => Ascii.eqb x c
  | None => false
  end.

(** The inner [while]: the first index at or after [probe] that is not
    white space (or the length of the expression). *)
Definition skipWhiteSpace (expression : list ascii) (probe : nat) : nat :=
  (probe + length (Js.takeWhile Js.isWhiteSpace (skipn probe expression)))%nat.

(** The [for] loop over the alias entries at [index]: the alias to emit
    and the length of the name it replaces. *)
Fixpoint findAlias (entries : list (string * string)) (expression : list ascii)
         (index : nat) : option (string * nat) :=
  match entries with
  | [] => None
  | (name, alias) :: more =>
      let n := String.length name in
      if negb (Js.startsWithAt expression (Js.chars name) index) then
        findAlias more expression index
      else
        let previousChar := charBefore expression index in
        let nextChar := charAt expression (index + n) in
        if isIdentifierCharacter previousChar
           || isChar previousChar "."%char
           || isIdentifierCharacter nextChar
        then findAlias more expression index
        else
          let probe := skipWhiteSpace expression (index + n) in
          if isChar (charAt expression probe) "("%char
          then Some (alias, n)
          else findAlias more expression index
  end.

Record scanner := {
  result : list ascii;
  index : nat;
  inSingle : bool;
  inDouble : bool;
  inTemplate : bool;
  escaping : bool
}.

(** Inside a quoted span closed by [quote]: the flags after [char]. *)
Definition quotedStep (escaping : bool) (char quote : ascii) : bool * bool :=
  if escaping then (true, false)                       (* still inside, escape used up *)
  else if Ascii.eqb char "\"%char then (true, true)
  else if Ascii.eqb char quote then (false, false)
  else (true, false).

(** One iteration of the outer [while], for [index < expression.length]. *)
Definition step (expression : list ascii) (s : scanner) (char : ascii) : scanner :=
  let emit := result s ++ [char] in
  let next := S (index s) in
  if inSingle s then
    let '(inside, esc) := quotedStep (escaping s) char "'"%char in
    {| result := emit; index := next; inSingle := inside;
       inDouble := inDouble s; inTemplate := inTemplate s; escaping := esc |}
  else if inDouble s then
    let '(inside, esc) := quotedStep (escaping s) char "034"%char in
    {| result := emit; index := next; inSingle := inSingle s;
       inDouble := inside; inTemplate := inTemplate s; escaping := esc |}
  else if inTemplate s then
    let '(inside, esc) := quotedStep (escaping s) char "`"%char in
    {| result := emit; index := next; inSingle := inSingle s;
       inDouble := inDouble s; inTemplate := inside; escaping := esc |}
  else if Ascii.eqb char "'"%char then
    {| result := emit; index := next; inSingle := true;
       inDouble := inDouble s; inTemplate := inTemplate s; escaping := escaping s |}
  else if Ascii.eqb char "034"%char then
    {| result := emit; index := next; inSingle := inSingle s;
       inDouble := true; inTemplate := inTemplate s; escaping := escaping s |}
  else if Ascii.eqb char "`"%char then
    {| result := emit; index := next; inSingle := inSingle s;
       inDouble := inDouble s; inTemplate := true; escaping := escaping s |}
  else
    match findAlias GLOBAL_FUNCTION_ALIASES expression (index s) with
    | Some (alias, n) =>
        {| result := result s ++ Js.chars alias; index := (index s + n)%nat;
           inSingle := inSingle s; inDouble := inDouble s;
           inTemplate := inTemplate s; escaping := escaping s |}
    | None =>
        {| result := emit; index := next; inSingle := inSingle s;
           inDouble := inDouble s; inTemplate := inTemplate s;
           escaping := escaping s |}
    end.

(** The outer [while (index < expression.length)]; every iteration
    advances [index], so [fuel = expression.length] iterations suffice. *)
Fixpoint scan (fuel : nat) (expression : list ascii) (s : scanner) : scanner :=
  match fuel with
  | O => s
  | S fuel' =>
      match charAt expression (index s) with
      | None => s
      | Some char => scan fuel' expression (step expression s char)
      end
  end.

Definition initial : scanner :=
  {| result := []; index := 0; inSingle := false; inDouble := false;
     inTemplate := false; escaping := false |}.

Definition normalizeChars (expression : list ascii) : list ascii :=
  result (scan (length expression) expression initial).

Definition normalizeExpressionSource (expression : string) : string :=
  Js.str (normalizeChars (Js.chars expression)).

End Rewrite.

(** ** Vault files (src/types.ts) *)
Module Vault.

(** [Deno.FileInfo], the fields the evaluator reads; a date is its time value. *)
Record FileInfo := {
  size : float;
  birthtime : option float;
  mtime : option float;
  ctime : option float
}.

Record VaultLink := {
  raw : string;
  target : string;
  display : option string;
  isEmbed : bool;
  resolvedPath : option string
}.

Record VaultFile := {
  path : string;
  relativePath : string;
  name : string;
  ext : string;
  folder : string;
  stat : FileInfo;
  frontmatter : option (list (string * value));
  metadata : option (list (string * value));
  properties : option (list (string * value));
  tags : option (list string);
  links : option (list VaultLink);
  embeds : option (list VaultLink);
  backlinks : list string
}.

Definition optionalString (s : option string) : value :=
  match s with Some x => VStr x | None => VUndefined end.

Definition optionalDate (t : option float) : value :=
  match t with Some x => VDate x | None => VUndefined end.

Definition linkValue (l : VaultLink) : value :=
  VObj ([ ("raw", VStr (raw l)); ("target", VStr (target l));
          ("display", optionalString (display l)); ("isEmbed", VBool (isEmbed l)) ]
        ++ match resolvedPath l with
           | Some p => [("resolvedPath", VStr p)]
           | None => []
           end).

End Vault.

(** ** src/expressions.ts: the evaluator *)
Module Expressions.
Import Host.

(** The nodes of a jsep syntax tree. [OtherNode] stands for any node type
    the evaluator has no case for. *)
Inductive expr :=
| ArrayExpression (elements : list (option expr))
| BinaryExpression (operator : string) (left right : expr)
| CallExpression (callee : expr) (arguments : list expr)
| Compound (body : list expr)
| ConditionalExpression (test consequent alternate : expr)
| Identifier (name : string)
| Literal (v : value)
| MemberExpression (computed : bool) (object property : expr)
| SequenceExpression (expressions : list expr)
| ThisExpression
| UnaryExpression (operator : string) (argument : expr)
| OtherNode (type : string).

Definition RESERVED_IDENTIFIERS : list string :=
  [ "arguments"; "eval"; "prototype"; "constructor"; "__proto__"; "super";
    "globalThis"; "window"; "if" ].

(** IDENTIFIER_PATTERN, [/^[A-Za-z_$][A-Za-z0-9_$]*$/] *)
Definition matchesIdentifierPattern (identifier : string) : bool :=
  match Js.chars identifier with
  | [] => false
  | c :: r =>
      (Js.isUpper c || Js.isLower c || Ascii.eqb c "_"%char || Ascii.eqb c "$"%char)
      && forallb Rewrite.identifierChar r
  end.

Definition isValidIdentifier (identifier : string) : bool :=
  matchesIdentifierPattern identifier
  && negb (memString identifier RESERVED_IDENTIFIERS).

(** BUILTIN_SCOPE_ENTRIES: constructors are functions, the others objects. *)
Definition BUILTIN_SCOPE_ENTRIES : list (string * value) :=
  [ ("Array", VFun (HostFn "Array")); ("Boolean", VFun (HostFn "Boolean"));
    ("Date", VFun (HostFn "Date")); ("JSON", VHostObject "JSON");
    ("Map", VFun (HostFn "Map")); ("Math", VHostObject "Math");
    ("Number", VFun (HostFn "Number")); ("Object", VFun (HostFn "Object"));
    ("Reflect", VHostObject "Reflect"); ("RegExp", VFun (HostFn "RegExp"));
    ("Set", VFun (HostFn "Set")); ("String", VFun (HostFn "String"));
    ("Symbol", VFun (HostFn "Symbol")); ("WeakMap", VFun (HostFn "WeakMap"));
    ("WeakSet", VFun (HostFn "WeakSet")); ("BigInt", VFun (HostFn "BigInt")) ].

Definition hasScopeIdentifier (scope : gmap string value) (name : string) : bool :=
  bool_decide (is_Some (scope !! name)).

(** [toPropertyKey] followed by the conversion [Reflect.get] applies to
    its key: the property name as a string. *)
Definition toPropertyKey (v : value) : outcome string := toStringPrimitive v.

(** [ensureTargetObject] *)
Definition ensureTargetObject (v : value) : outcome value :=
  match v with
  | VNull => Throw (TypeError "Cannot read properties of null")
  | VUndefined => Throw (TypeError "Cannot read properties of undefined")
  | _ => Ok v
  end.

(** [toNumeric] *)
Definition toNumeric (v : value) : outcome float :=
  match v with
  | VDate t => Ok t
  | VBigInt z => Ok (Js.ofZ z)
  | _ => toNumber v
  end.

(** [toNullishAwareDuration]; [None] is [null]. *)
Definition toNullishAwareDuration (v : value) : option float :=
  match v with
  | VNum n => if Js.isFinite n then Some n else None
  | VBigInt z => Some (Js.ofZ z)
  | VStr _ => Duration.tryParseDuration v
  | _ => None
  end.

(** [new Date(time)] *)
Definition newDate (time : float) : value := VDate (Js.TimeClip time).

(** The host [+] on two values. *)
Definition nativeAdd (left right : value) : outcome value :=
  if negb (isPrimitive left && isPrimitive right) then Unmodelled "+ on an object"
  else
    match left, right with
    | VStr _, _ | _, VStr _ =>
        obind (toStringPrimitive left) (fun l =>
        obind (toStringPrimitive right) (fun r => Ok (VStr (l +:+ r))))
    | VBigInt a, VBigInt b => Ok (VBigInt (a + b))
    | VBigInt _, _ | _, VBigInt _ =>
        Throw (TypeError "Cannot mix BigInt and other types, use explicit conversions")
    | _, _ =>
        obind (toNumber left) (fun l =>
        obind (toNumber right) (fun r => Ok (VNum (l + r)%float)))
    end.

Definition applyAddition (left right : value) : outcome value :=
  match left, toNullishAwareDuration right with
  | VDate t, Some duration => Ok (newDate (t + duration)%float)
  | _, _ =>
      match right, toNullishAwareDuration left with
      | VDate t, Some duration => Ok (newDate (t + duration)%float)
      | _, _ => nativeAdd left right
      end
  end.

Definition applySubtraction (left right : value) : outcome value :=
  match left, right with
  | VDate l, VDate r => Ok (VNum (l - r)%float)
  | _, _ =>
      match left, toNullishAwareDuration right with
      | VDate l, Some duration => Ok (newDate (l - duration)%float)
      | _, _ =>
          obind (toNumeric left) (fun l =>
          obind (toNumeric right) (fun r => Ok (VNum (l - r)%float)))
      end
  end.

(** The objects of which an evaluation state holds exactly one: the file
    object, the proxy, and the functions and namespaces of the scope. *)
Definition singleton (v : value) : option string :=
  match v with
  | VFile => Some "file"
  | VFormula => Some "formula"
  | VFun (GlobalFn f) => Some ("global " +:+ f)
  | VFun (FileMethod f) => Some ("method " +:+ f)
  | VFun (HostFn f) => Some ("host " +:+ f)
  | VHostObject f => Some ("host " +:+ f)
  | _ => None
  end.

(** Whether two object values are the same object, where the model knows. *)
Definition sameObject (a b : value) : outcome bool :=
  match singleton a, singleton b with
  | Some x, Some y => Ok (String.eqb x y)
  | _, _ => Unmodelled "object identity"
  end.

(** [left === right] *)
Definition strictEquals (left right : value) : outcome bool :=
  match left, right with
  | VUndefined, VUndefined | VNull, VNull => Ok true
  | VBool a, VBool b => Ok (Bool.eqb a b)
  | VNum a, VNum b => Ok (a =? b)%float
  | VBigInt a, VBigInt b => Ok (a =? b)
  | VStr a, VStr b => Ok (String.eqb a b)
  | _, _ =>
      if isPrimitive left || isPrimitive right then Ok false
      else sameObject left right
  end.

(** [left == right] *)
Definition looseEquals (left right : value) : outcome bool :=
  match left, right with
  | (VUndefined | VNull), (VUndefined | VNull) => Ok true
  | (VUndefined | VNull), _ | _, (VUndefined | VNull) => Ok false
  | VNum a, VStr s | VStr s, VNum a => Ok (a =? Js.StringToNumber s)%float
  | VBool a, VNum b | VNum b, VBool a => Ok ((if a then 1 else 0) =? b)%float
  | VBool a, VStr s | VStr s, VBool a =>
      Ok ((if a then 1 else 0) =? Js.StringToNumber s)%float
  | VBigInt _, (VNum _ | VStr _ | VBool _) | (VNum _ | VStr _ | VBool _), VBigInt _ =>
      Unmodelled "== between a bigint and another type"
  | _, _ =>
      if isPrimitive left && isPrimitive right then strictEquals left right
      else if isPrimitive left || isPrimitive right then Unmodelled "== on an object"
      else sameObject left right
  end.

(** The operands of a relational operator after ToPrimitive. *)
Definition relationalOperand (v : value) : outcome (string + float) :=
  match v with
  | VStr s => Ok (inl s)
  | VUndefined | VNull | VBool _ | VNum _ | VDate _ =>
      obind (toNumber v) (fun n => Ok (inr n))
  | _ => Unmodelled "relational operator on an object or bigint"
  end.

Definition lessThan (orEqual : bool) (a b : string + float) : bool :=
  match a, b with
  | inl x, inl y =>
      if orEqual then negb (stringLt (Js.chars y) (Js.chars x))
      else stringLt (Js.chars x) (Js.chars y)
  | _, _ =>
      let num := fun o => match o with inl s => Js.StringToNumber s | inr n => n end in
      if orEqual then (num a <=? num b)%float else (num a <? num b)%float
  end.

Definition nativeCompare (operator : string) (left right : value) : outcome bool :=
  obind (relationalOperand left) (fun l =>
  obind (relationalOperand right) (fun r =>
    if String.eqb operator ">" then Ok (lessThan false r l)
    else if String.eqb operator "<" then Ok (lessThan false l r)
    else if String.eqb operator ">=" then Ok (lessThan true r l)
    else Ok (lessThan true l r))).

(** Own or inherited property read of an ordinary object with the given
    own properties. *)
Definition plainGet (props : list (string * value)) (key : string) : outcome value :=
  match objGet props key with
  | Some v => Ok v
  | None =>
      if memString key OBJECT_PROTOTYPE_KEYS
      then Unmodelled "Object.prototype member"
      else Ok VUndefined
  end.

(** A canonical array index, if the key is one. *)
Definition arrayIndex (key : string) : option nat :=
  match Js.chars key with
  | [] => None
  | ["0"%char] => Some O
  | "0"%char :: _ => None
  | ds => if forallb Js.isDigit ds then Some (Z.to_nat (Js.digitsValue ds)) else None
  end.

(** The object literal of [createFileExpression]; the entry [file] is the
    object itself. *)
Definition createFileExpression (file : Vault.VaultFile) : list (string * value) :=
  let stat := Vault.stat file in
  [ ("backlinks", VArr (map VStr (Vault.backlinks file)));
    ("ctime", match Vault.birthtime stat with
              | Some t => VDate t
              | None => Vault.optionalDate (Vault.ctime stat)
              end);
    ("embeds", VArr (map Vault.linkValue (default [] (Vault.embeds file))));
    ("ext", VStr (Vault.ext file));
    ("file", VFile);
    ("folder", VStr (Vault.folder file));
    ("links", VArr (map Vault.linkValue (default [] (Vault.links file))));
    ("mtime", Vault.optionalDate (Vault.mtime stat));
    ("name", VStr (Vault.name file));
    ("path", VStr (Vault.relativePath file));
    ("properties", VObj (default [] (Vault.properties file)));
    ("size", VNum (Vault.size stat));
    ("tags", VArr (map VStr (default [] (Vault.tags file))));
    ("asLink", VFun (FileMethod "asLink"));
    ("hasLink", VFun (FileMethod "hasLink"));
    ("hasProperty", VFun (FileMethod "hasProperty"));
    ("hasTag", VFun (FileMethod "hasTag"));
    ("inFolder", VFun (FileMethod "inFolder")) ].

Definition isAscii (s : string) : bool :=
  forallb (fun c => Js.code c <? 128) (Js.chars s).

(** The methods of the file expression object. Case folding is modelled
    on ASCII strings. *)
Definition applyFileMethod (file : Vault.VaultFile) (name : string)
           (args : list value) : outcome value :=
  if String.eqb name "asLink" then
    Ok (VObj [ ("path", VStr (Vault.relativePath file));
               ("display", GlobalFunctions.arg args 0);
               ("isEmbed", VBool false) ])
  else if String.eqb name "hasProperty" then
    match GlobalFunctions.arg args 0 with
    | VStr key => Ok (VBool (hasOwn (default [] (Vault.properties file)) key))
    | _ => Ok (VBool false)
    end
  else if String.eqb name "inFolder" then
    match GlobalFunctions.arg args 0 with
    | VStr prefix =>
        Ok (VBool (String.eqb (Vault.folder file) prefix
                   || Js.isPrefix (Js.chars (prefix +:+ "/")) (Js.chars (Vault.folder file))))
    | _ => Ok (VBool false)
    end
  else if String.eqb name "hasTag" then
    let tags := default [] (Vault.tags file) in
    let names := flat_map (fun v => match v with VStr s => [s] | _ => [] end) args in
    if forallb isAscii tags && forallb isAscii names then
      let tagSet := map Js.toLowerCase tags in
      Ok (VBool (existsb (fun n => memString (Js.toLowerCase n) tagSet) names))
    else Unmodelled "case folding beyond ASCII"
  else Unmodelled "file method".

(** *** The evaluation state

    The three tables [buildEvaluationState] allocates. [started] is a
    ghost field, absent from the source: it logs the formulas whose body
    evaluation has begun, in order. *)
Record state := {
  compiledExpressions : gmap string expr;
  formulaCache : gmap string value;
  evaluating : gset string;
  started : list string
}.

Definition initialState : state :=
  {| compiledExpressions := ∅; formulaCache := ∅; evaluating := ∅; started := [] |}.

Definition setCompiled (key : string) (c : expr) (st : state) : state :=
  {| compiledExpressions := <[key := c]> (compiledExpressions st);
     formulaCache := formulaCache st; evaluating := evaluating st;
     started := started st |}.

Definition setCache (key : string) (v : value) (st : state) : state :=
  {| compiledExpressions := compiledExpressions st;
     formulaCache := <[key := v]> (formulaCache st);
     evaluating := evaluating st; started := started st |}.

Definition addEvaluating (key : string) (st : state) : state :=
  {| compiledExpressions := compiledExpressions st;
     formulaCache := formulaCache st;
     evaluating := {[key]} ∪ evaluating st;
     started := started st ++ [key] |}.

Definition deleteEvaluating (key : string) (st : state) : state :=
  {| compiledExpressions := compiledExpressions st;
     formulaCache := formulaCache st;
     evaluating := evaluating st ∖ {[key]};
     started := started st |}.

(** Computations over the state that may throw. A thrown error leaves
    the state as it was when the error was thrown. *)
Definition M (A : Type) : Type := state -> outcome A * state.

Definition ret {A} (a : A) : M A := fun st => (Ok a, st).
Definition lift {A} (o : outcome A) : M A := fun st => (o, st).
Definition throw {A} (e : error) : M A := fun st => (Throw e, st).

Definition bind {A B} (m : M A) (k : A -> M B) : M B :=
  fun st =>
    match m st with
    | (Ok a, st') => k a st'
    | (Throw e, st') => (Throw e, st')
    | (Unmodelled w, st') => (Unmodelled w, st')
    | (OutOfFuel, st') => (OutOfFuel, st')
    end.

(** [try { m } catch (error) { handler(error) }] *)
Definition catch {A} (m : M A) (handler : error -> M A) : M A :=
  fun st =>
    match m st with
    | (Throw e, st') => handler e st'
    | other => other
    end.

(** [try { m } finally { cleanup }] *)
Definition finally {A} (m : M A) (cleanup : state -> state) : M A :=
  fun st => let '(r, st') := m st in (r, cleanup st').

Notation "'do' x <- m ; k" := (bind m (fun x => k))
  (at level 10, x name, m at level 100, k at level 200).

(** The loops of the evaluator over lists of sub-expressions, given the
    evaluator of one sub-expression. *)
Section Each.
Variable ev : expr -> M value.

(** [evaluateArrayExpression]: holes become [undefined]. *)
Fixpoint evaluateElements (elements : list (option expr)) : M (list value) :=
  match elements with
  | [] => ret []
  | None :: more =>
      do rest <- evaluateElements more; ret (VUndefined :: rest)
  | Some element :: more =>
      do v <- ev element;
      do rest <- evaluateElements more; ret (v :: rest)
  end.

(** [node.arguments.map((arg) => evaluateExpressionNode(arg, scope))] *)
Fixpoint evaluateArguments (arguments : list expr) : M (list value) :=
  match arguments with
  | [] => ret []
  | a :: more =>
      do v <- ev a;
      do rest <- evaluateArguments more; ret (v :: rest)
  end.

(** [evaluateSequenceExpression] and [evaluateCompoundExpression]: the
    value of the last entry, [last] when there is none. *)
Fixpoint evaluateInOrder (entries : list expr) (last : value) : M value :=
  match entries with
  | [] => ret last
  | entry :: more => do v <- ev entry; evaluateInOrder more v
  end.
End Each.

Section Evaluator.
Variable jsep : string -> expr + error.
Variable file : Vault.VaultFile.
Variable scope : gmap string value.
Variable formulaDefinitions : list (string * value).
(** The [get] trap of the formula proxy, on a string key. *)
Variable proxyGet : string -> M value.

(** The members of host namespaces the model covers. *)
Definition hostMember (owner key : string) : outcome value :=
  let member := owner +:+ "." +:+ key in
  if memString member ["Reflect.get"; "Array.isArray"]
  then Ok (VFun (HostFn member))
  else Unmodelled "member of a host namespace".

(** [Reflect.get(target, key)] *)
Definition reflectGet (target : value) (key : string) : M value :=
  match target with
  | VFormula => proxyGet key
  | VFile => lift (plainGet (createFileExpression file) key)
  | VObj props => lift (plainGet props key)
  | VArr items =>
      lift (if String.eqb key "length" then Ok (VNum (Js.ofZ (Z.of_nat (length items))))
            else match arrayIndex key with
                 | Some i => Ok (nth i items VUndefined)
                 | None => Unmodelled "Array.prototype member"
                 end)
  | VStr s =>
      lift (if String.eqb key "length" then Ok (VNum (Js.ofZ (Z.of_nat (String.length s))))
            else match arrayIndex key with
                 | Some i =>
                     Ok (match nth_error (Js.chars s) i with
                         | Some c => VStr (Js.str [c])
                         | None => VUndefined
                         end)
                 | None => Unmodelled "String.prototype member"
                 end)
  | VHostObject owner | VFun (HostFn owner) => lift (hostMember owner key)
  | _ => lift (Unmodelled "member of a host object")
  end.

Definition isObjectLike (v : value) : bool :=
  negb (isPrimitive v).

(** [callable.apply(thisValue, args)]; no modelled function reads [this]. *)
Definition applyFunction (f : callable) (args : list value) : M value :=
  match f with
  | GlobalFn name => lift (GlobalFunctions.applyGlobal name args)
  | FileMethod name => lift (applyFileMethod file name args)
  | LinkFactory path =>
      ret (GlobalFunctions.createLinkObject path (GlobalFunctions.arg args 0))
  | HostFn name =>
      if String.eqb name "Reflect.get" then
        let target := GlobalFunctions.arg args 0 in
        if isObjectLike target then
          do key <- lift (toPropertyKey (GlobalFunctions.arg args 1)) ;
          reflectGet target key
        else throw (TypeError "Reflect.get called on non-object")
      else if String.eqb name "Array.isArray" then
        ret (VBool (match GlobalFunctions.arg args 0 with VArr _ => true | _ => false end))
      else lift (Unmodelled "host function")
  end.

Definition evaluateLiteral (v : value) : M value :=
  match v with
  | VRegExp _ _ => lift (Unmodelled "RegExp construction")
  | _ => ret v
  end.

Definition evaluateIdentifier (name : string) : M value :=
  match scope !! name with
  | Some v => ret v
  | None => throw (ReferenceError (Duration.quote name +:+ " is not defined"))
  end.

(** The [switch] of [evaluateUnaryExpression] on the evaluated operand. *)
Definition applyUnary (operator : string) (argument : value) : outcome value :=
  if String.eqb operator "!" then Ok (VBool (negb (toBoolean argument)))
  else if String.eqb operator "+" then obind (toNumeric argument) (fun n => Ok (VNum n))
  else if String.eqb operator "-" then
    obind (toNumeric argument) (fun n => Ok (VNum (- n)%float))
  else if String.eqb operator "~" then
    obind (toNumber argument) (fun n => Ok (VNum (Js.ofZ (- toInt32 n - 1))))
  else if String.eqb operator "typeof" then Ok (VStr (typeOf argument))
  else if String.eqb operator "void" then Ok VUndefined
  else Throw (Error ("Unsupported unary operator " +:+ Duration.quote operator +:+ ".")).

(** [key in right] *)
Definition hasProperty (right : value) (key : string) : outcome bool :=
  match right with
  | VFormula => Ok (hasOwn formulaDefinitions key)
  | VObj props => Ok (hasOwn props key || memString key OBJECT_PROTOTYPE_KEYS)
  | VFile => Ok (hasOwn (createFileExpression file) key
                 || memString key OBJECT_PROTOTYPE_KEYS)
  | _ => Unmodelled "in on a host object"
  end.

Definition numericBinary (op : float -> float -> float) (left right : value)
  : outcome value :=
  obind (toNumeric left) (fun l =>
  obind (toNumeric right) (fun r => Ok (VNum (op l r)))).

(** The [switch] of [evaluateBinaryExpression] on the evaluated operands. *)
Definition applyBinary (operator : string) (left right : value) : outcome value :=
  let boolean := fun (negate : bool) (o : outcome bool) =>
    obind o (fun b => Ok (VBool (xorb negate b))) in
  if String.eqb operator "+" then applyAddition left right
  else if String.eqb operator "-" then applySubtraction left right
  else if String.eqb operator "*" then numericBinary PrimFloat.mul left right
  else if String.eqb operator "/" then numericBinary PrimFloat.div left right
  else if String.eqb operator "%" then Unmodelled "remainder"
  else if String.eqb operator "**" then Unmodelled "exponentiation"
  else if String.eqb operator "==" then boolean false (looseEquals left right)
  else if String.eqb operator "!=" then boolean true (looseEquals left right)
  else if String.eqb operator "===" then boolean false (strictEquals left right)
  else if String.eqb operator "!==" then boolean true (strictEquals left right)
  else if memString operator [">"; "<"; ">="; "<="] then
    boolean false (nativeCompare operator left right)
  else if String.eqb operator "instanceof" then
    if negb (isCallable right) then
      Throw (TypeError "Right-hand side of instanceof must be callable.")
    else Unmodelled "instanceof"
  else if String.eqb operator "in" then
    if isPrimitive right then
      Throw (TypeError "Right-hand side of 'in' should be an object or function.")
    else obind (toPropertyKey left) (fun key => boolean false (hasProperty right key))
  else Throw (Error ("Unsupported binary operator " +:+ Duration.quote operator +:+ ".")).

(** The tail of [resolveMemberExpression] once the object and the
    property key are evaluated: the value read. *)
Definition readMember (objectValue : value) (propertyKey : string) : M value :=
  do target <- lift (ensureTargetObject objectValue) ;
  reflectGet target propertyKey.

(** [resolveMemberExpression(node, scope).value], given the evaluator of
    the sub-expressions. *)
Definition evaluateMember (ev : expr -> M value) (computed : bool)
           (object property : expr) : M value :=
  do objectValue <- ev object;
  do propertyKey <-
    (if computed then
       do p <- ev property; lift (toPropertyKey p)
     else match property with
          | Identifier name => ret name
          | _ => lift (Unmodelled "member name")
          end);
  readMember objectValue propertyKey.

Fixpoint evaluateExpressionNode (node : expr) : M value :=
  match node with
  | ArrayExpression elements =>
      do items <- evaluateElements evaluateExpressionNode elements;
      ret (VArr items)
  | BinaryExpression operator lhs rhs =>
      if String.eqb operator "&&" then
        do l <- evaluateExpressionNode lhs;
        if negb (toBoolean l) then ret l else evaluateExpressionNode rhs
      else if String.eqb operator "||" then
        do l <- evaluateExpressionNode lhs;
        if toBoolean l then ret l else evaluateExpressionNode rhs
      else if String.eqb operator "??" then
        do l <- evaluateExpressionNode lhs;
        match l with
        | VNull | VUndefined => evaluateExpressionNode rhs
        | _ => ret l
        end
      else
        do l <- evaluateExpressionNode lhs;
        do r <- evaluateExpressionNode rhs;
        lift (applyBinary operator l r)
  | CallExpression callee arguments =>
      do callable <-
        match callee with
        | MemberExpression computed object property =>
            evaluateMember evaluateExpressionNode computed object property
        | _ => evaluateExpressionNode callee
        end;
      match callable with
      | VFun f =>
          do args <- evaluateArguments evaluateExpressionNode arguments;
          applyFunction f args
      | _ => throw (TypeError "Attempted to call a non-function value.")
      end
  | Compound body => evaluateInOrder evaluateExpressionNode body VUndefined
  | ConditionalExpression test consequent alternate =>
      do t <- evaluateExpressionNode test;
      if toBoolean t then evaluateExpressionNode consequent
      else evaluateExpressionNode alternate
  | Identifier name => evaluateIdentifier name
  | Literal v => evaluateLiteral v
  | MemberExpression computed object property =>
      evaluateMember evaluateExpressionNode computed object property
  | SequenceExpression expressions =>
      evaluateInOrder evaluateExpressionNode expressions VUndefined
  | ThisExpression =>
      match scope !! "this" with
      | Some v => ret v
      | None => ret VUndefined
      end
  | UnaryExpression operator argument =>
      let undeclared :=
        match argument with
        | Identifier name =>
            String.eqb operator "typeof" && negb (hasScopeIdentifier scope name)
        | _ => false
        end in
      if undeclared then ret (VStr "undefined")
      else
        do a <- evaluateExpressionNode argument;
        lift (applyUnary operator a)
  | OtherNode type =>
      throw (Error ("Unsupported expression node " +:+ Duration.quote type +:+ "."))
  end.

Definition compileExpression (expression : string) : outcome expr :=
  match jsep expression with
  | inl ast => Ok ast
  | inr cause =>
      Throw (ErrorCause ("Failed to parse expression " +:+ Duration.quote expression) cause)
  end.

(** The lookup in [compiledExpressions], compiling on a miss. *)
Definition compiled (normalized : string) : M expr :=
  fun st =>
    match compiledExpressions st !! normalized with
    | Some c => (Ok c, st)
    | None =>
        match compileExpression normalized with
        | Ok c => (Ok c, setCompiled normalized c st)
        | Throw e => (Throw e, st)
        | Unmodelled w => (Unmodelled w, st)
        | OutOfFuel => (OutOfFuel, st)
        end
    end.

(** The closure [evaluate] of [buildEvaluationState]. *)
Definition evaluate (expression label : string) : M value :=
  let trimmed := Js.trim expression in
  if (String.length trimmed =? 0)%nat then ret VUndefined
  else
    let normalized := Rewrite.normalizeExpressionSource trimmed in
    do c <- compiled normalized ;
    catch (evaluateExpressionNode c)
          (fun error => throw (ErrorCause ("Failed to evaluate " +:+ label) error)).

End Evaluator.

(** The [get] trap of [formulaProxy] on a string key. [evaluate] is the
    closure the trap calls; [None] stands for exhausted recursion fuel. *)
Definition formulaGetWith (formulaDefinitions : list (string * value))
           (evaluate : option (string -> string -> M value))
           (propKey : string) : M value :=
  fun st =>
    match formulaCache st !! propKey with
    | Some v => (Ok v, st)
    | None =>
        if negb (hasOwn formulaDefinitions propKey) then (Ok VUndefined, st)
        else if bool_decide (propKey ∈ evaluating st) then
          (Throw (Error ("Circular formula reference detected for "
                         +:+ Duration.quote propKey)), st)
        else
          match objGet formulaDefinitions propKey with
          | Some (VStr expression) =>
              if (String.length (Js.trim expression) =? 0)%nat then
                (Ok VUndefined, setCache propKey VUndefined st)
              else
                match evaluate with
                | None => (OutOfFuel, st)
                | Some ev =>
                    finally
                      (fun st1 =>
                         match ev expression ("formula " +:+ Duration.quote propKey) st1 with
                         | (Ok v, st2) => (Ok v, setCache propKey v st2)
                         | (Throw error, st2) =>
                             (Throw (ErrorCause ("Failed to evaluate formula "
                                                 +:+ Duration.quote propKey) error), st2)
                         | other => other
                         end)
                      (deleteEvaluating propKey)
                      (addEvaluating propKey st)
                end
          | _ => (Ok VUndefined, setCache propKey VUndefined st)
          end
    end.

Section Knot.
Variable jsep : string -> expr + error.
Variable file : Vault.VaultFile.
Variable scope : gmap string value.
Variable formulaDefinitions : list (string * value).

(** The trap with [fuel] levels of nested formula evaluation left. *)
Fixpoint formulaGet (fuel : nat) : string -> M value :=
  formulaGetWith formulaDefinitions
    match fuel with
    | O => None
    | S fuel' => Some (evaluate jsep file scope formulaDefinitions (formulaGet fuel'))
    end.

Definition evaluateWithFuel (fuel : nat) : string -> string -> M value :=
  evaluate jsep file scope formulaDefinitions (formulaGet fuel).
End Knot.

(** *** Scope construction *)

(** [if (!hasOwnProperty(scope, key)) scope[key] = value] *)
Definition setIfAbsent (key : string) (v : value) (scope : gmap string value)
  : gmap string value :=
  match scope !! key with
  | Some _ => scope
  | None => <[key := v]> scope
  end.

Definition globalFunctionKeys : list string :=
  keys GlobalFunctions.createGlobalFunctionScope.

(** The body of the loop over [Object.entries(note)]. *)
Definition promote (scope : gmap string value) (entry : string * value)
  : gmap string value :=
  let '(key, v) := entry in
  if negb (hasScopeIdentifier scope key)
     && isValidIdentifier key
     && negb (memString key globalFunctionKeys)
  then <[key := v]> scope else scope.

(** The body of the loop over [Object.entries(globalFunctions)]. *)
Definition addGlobal (scope : gmap string value) (entry : string * value)
  : gmap string value :=
  let '(key, v) := entry in
  let scope1 := setIfAbsent key v scope in
  match objGet Rewrite.GLOBAL_FUNCTION_ALIASES key with
  | Some alias => setIfAbsent alias v scope1
  | None => scope1
  end.

(** The body of the loop over [Object.entries(BUILTIN_SCOPE_ENTRIES)]. *)
Definition addBuiltin (scope : gmap string value) (entry : string * value)
  : gmap string value :=
  setIfAbsent (fst entry) (snd entry) scope.

(** The [scope] object [buildEvaluationState] fills, statement by statement. *)
Definition buildScope (file : Vault.VaultFile) : gmap string value :=
  let note := default [] (Vault.frontmatter file) in
  let metadata := default [] (Vault.metadata file) in
  let properties := default [] (Vault.properties file) in
  let frontmatter := default [] (Vault.frontmatter file) in
  let scope0 : gmap string value :=
    <["properties" := VObj properties]>
      (<["note" := VObj note]>
         (<["metadata" := VObj metadata]>
            (<["frontmatter" := VObj frontmatter]>
               (<["file" := VFile]> ∅)))) in
  let scope1 := fold_left promote note scope0 in
  let scope2 := fold_left addGlobal GlobalFunctions.createGlobalFunctionScope scope1 in
  let scope3 := fold_left addBuiltin BUILTIN_SCOPE_ENTRIES scope2 in
  <["formula" := VFormula]> scope3.

(** The interface [EvaluationState]. *)
Record EvaluationState := {
  scope : gmap string value;
  evaluate_ : string -> string -> M value
}.

(** [buildEvaluationState(file, formulas)]. The tables it allocates are
    [initialState]; the closure gets as much fuel as there are formula
    definitions, which nested formula evaluation cannot exceed. *)
Definition buildEvaluationState (jsep : string -> expr + error)
           (file : Vault.VaultFile) (formulas : option (list (string * value)))
  : EvaluationState :=
  let formulaDefinitions := default [] formulas in
  let scope := buildScope file in
  {| scope := scope;
     evaluate_ := evaluateWithFuel jsep file scope formulaDefinitions
                    (length formulaDefinitions) |}.

(** [formatValue] *)
Fixpoint formatValue (v : value) : outcome string :=
  match v with
  | VNull | VUndefined => Ok ""
  | VStr s => Ok s
  | VNum _ | VBigInt _ => toStringPrimitive v
  | VBool b => Ok (if b then "true" else "false")
  | VDate t =>
      match Js.toISOString t with
      | Some s => Ok s
      | None => Throw (JsError "RangeError" "Invalid time value" None)
      end
  | VArr items =>
      (fix join (l : list value) : outcome string :=
         match l with
         | [] => Ok ""
         | [x] => formatValue x
         | x :: more =>
             obind (formatValue x) (fun a =>
             obind (join more) (fun b => Ok (a +:+ ", " +:+ b)))
         end) items
  | VObj props =>
      match objGet props "path" with
      | Some (VStr path) =>
          match objGet props "display" with
          | Some (VStr display) =>
              if (0 <? String.length display)%nat then Ok display else Ok path
          | _ => Ok path
          end
      | _ => Unmodelled "JSON.stringify"
      end
  | VFile => Unmodelled "formatValue(file object)"
  | _ => Unmodelled "JSON.stringify"
  end.

End Expressions.

(** ** src/expressions.ts: filters *)
Module Filters.
Import Host Expressions.

Definition isFilterKey (key : string) : bool :=
  String.eqb key "and" || String.eqb key "or" || String.eqb key "not".

(** [filterExpressionsValid], on the keys of the compound. *)
Definition filterExpressionsValid (compoundKeys : list string) : bool :=
  forallb isFilterKey compoundKeys.

(** A member of a group, ready to be evaluated in a context. *)
Definition member : Type := string -> M bool.

(** A group of a compound after [ensureFilterList]: [None] when the value
    under the key is not an array. *)
Definition group : Type := option (list member).

(** [for (const entry of entries) if (!evaluateFilterNode(entry, ...)) return false] *)
Fixpoint allMatch (entries : list member) (context : string) : M bool :=
  match entries with
  | [] => ret true
  | entry :: more =>
      do matched <- entry context;
      if negb matched then ret false else allMatch more context
  end.

(** The loop of the [or] group: [matched] after the loop. *)
Fixpoint anyMatch (entries : list member) (context : string) : M bool :=
  match entries with
  | [] => ret false
  | entry :: more =>
      do matched <- entry context;
      if matched then ret true else anyMatch more context
  end.

(** [for (const entry of entries) if (evaluateFilterNode(entry, ...)) return false] *)
Fixpoint noneMatch (entries : list member) (context : string) : M bool :=
  match entries with
  | [] => ret true
  | entry :: more =>
      do matched <- entry context;
      if matched then ret false else noneMatch more context
  end.

Definition notAnArray (context key : string) : error :=
  Error (context +:+ " " +:+ Duration.quote key +:+ " group must be an array.").

(** [if ("and" in compound) { ... }]: whether evaluation goes on. *)
Definition andGroup (compound : list (string * group)) (context : string) : M bool :=
  match objGet compound "and" with
  | None => ret true
  | Some None => throw (notAnArray context "and")
  | Some (Some entries) => allMatch entries (context +:+ " (and)")
  end.

(** [if ("or" in compound) { ... }]: whether evaluation goes on. *)
Definition orGroup (compound : list (string * group)) (context : string) : M bool :=
  match objGet compound "or" with
  | None => ret true
  | Some None => throw (notAnArray context "or")
  | Some (Some []) => ret false
  | Some (Some entries) => anyMatch entries (context +:+ " (or)")
  end.

(** [if ("not" in compound) { ... } return true] *)
Definition notGroup (compound : list (string * group)) (context : string) : M bool :=
  match objGet compound "not" with
  | None => ret true
  | Some None => throw (notAnArray context "not")
  | Some (Some entries) => noneMatch entries (context +:+ " (not)")
  end.

(** The body of [evaluateFilterNode] on an object with the given own
    keys and groups. *)
Definition evaluateCompound (compound : list (string * group)) (context : string)
  : M bool :=
  if negb (filterExpressionsValid (keys compound)) then
    throw (Error ("Filter contains unsupported keys: "
                  +:+ String.concat ", "
                        (filter (fun key => negb (isFilterKey key)) (keys compound))))
  else
    do passedAnd <- andGroup compound context;
    if negb passedAnd then ret false
    else
      do passedOr <- orGroup compound context;
      if negb passedOr then ret false
      else notGroup compound context.

Section Filter.
Variable evaluation : EvaluationState.

Definition evaluateFilterLiteral (literal : string) (context : string) : M bool :=
  let trimmed := Js.trim literal in
  if (String.length trimmed =? 0)%nat then ret false
  else
    let label := context +:+ " expression " +:+ Duration.quote trimmed in
    do result <- evaluate_ evaluation trimmed label;
    ret (toBoolean result).

(** [evaluateFilterNode]. A filter is a value read from the base file;
    values that no base file holds (functions, the file object, the
    proxy, host objects, regular expressions) are outside the model. *)
Fixpoint evaluateFilterNode (node : value) : string -> M bool :=
  match node with
  | VStr literal => evaluateFilterLiteral literal
  | VUndefined | VNull | VBool _ | VNum _ | VBigInt _ | VArr _ | VFun _ =>
      fun _ => throw (Error "Filter entry must be a string or object.")
  | VObj compound =>
      evaluateCompound
        (map (fun entry =>
                (fst entry,
                 match snd entry with
                 | VArr entries => Some (map evaluateFilterNode entries)
                 | _ => None
                 end)) compound)
  | VDate _ => evaluateCompound []
  | VRegExp _ _ | VFile | VFormula | VHostObject _ =>
      fun _ => lift (Unmodelled "filter that is a host object")
  end.

Definition matchesFilter (filter : value) (context : string) : M bool :=
  match filter with
  | VUndefined | VNull => ret true
  | _ =>
      catch (evaluateFilterNode filter context)
            (fun error => throw (ErrorCause ("Failed to process " +:+ context) error))
  end.
End Filter.

End Filters.

(** ** Concrete data for the examples *)
Module Demo.
Import Expressions.

(** The file the unit tests of the evaluator build, with the given frontmatter. *)
Definition createTestFile (note : list (string * value)) : Vault.VaultFile :=
  {| Vault.path := "note.md"; Vault.relativePath := "note.md";
     Vault.name := "note"; Vault.ext := "md"; Vault.folder := "";
     Vault.stat := {| Vault.size := 0;
                      Vault.birthtime := Some 1704067200000%float;
                      Vault.mtime := Some 1704067200000%float;
                      Vault.ctime := Some 1704067200000%float |};
     Vault.frontmatter := Some note; Vault.metadata := Some [];
     Vault.properties := Some []; Vault.tags := Some [];
     Vault.links := Some []; Vault.embeds := Some []; Vault.backlinks := [] |}.

Definition formulaMember (name : string) : expr :=
  MemberExpression false (Identifier "formula") (Identifier name).

(** The syntax trees jsep yields for the sources the examples use; any
    other source is reported as a parse error. *)
Definition sources : list (string * expr) :=
  [ ("formula.b + 1", BinaryExpression "+" (formulaMember "b") (Literal (VNum 1)));
    ("formula.a + 1", BinaryExpression "+" (formulaMember "a") (Literal (VNum 1)));
    ("formula.a", formulaMember "a");
    ("formula.c", formulaMember "c");
    ("formula.c + formula.c",
     BinaryExpression "+" (formulaMember "c") (formulaMember "c"));
    ("1 + 2", BinaryExpression "+" (Literal (VNum 1)) (Literal (VNum 2)));
    ("true", Literal (VBool true));
    ("false", Literal (VBool false));
    ("Math", Identifier "Math");
    ("Date", Identifier "Date");
    ("status", Identifier "status");
    ("date('2024-01-08T00:00:00Z') - '1 week'",
     BinaryExpression "-"
       (CallExpression (Identifier "date") [Literal (VStr "2024-01-08T00:00:00Z")])
       (Literal (VStr "1 week")));
    ("note.status == 'archived'",
     BinaryExpression "=="
       (MemberExpression false (Identifier "note") (Identifier "status"))
       (Literal (VStr "archived"))) ].

Definition jsep (source : string) : expr + error :=
  match Host.objGet sources source with
  | Some ast => inl ast
  | None => inr (Error "Unexpected token")
  end.

(** Formulas [a] and [b] refer to each other; [c] is a constant. *)
Definition cyclicFormulas : list (string * value) :=
  [ ("a", VStr "formula.b + 1"); ("b", VStr "formula.a + 1");
    ("c", VStr "1 + 2"); ("blank", VStr "  "); ("count", VNum 3) ].

Definition evaluationOf (note formulas : list (string * value)) : EvaluationState :=
  buildEvaluationState jsep (createTestFile note) (Some formulas).

(** An evaluation state whose [evaluate] always throws. *)
Definition failingEvaluation : EvaluationState :=
  {| scope := ∅; evaluate_ := fun _ _ => throw (Error "evaluate was called") |}.

(** An evaluation state whose [evaluate] holds exactly ["yes"] true. *)
Definition oracleEvaluation : EvaluationState :=
  {| scope := ∅; evaluate_ := fun expression _ => ret (VBool (String.eqb expression "yes")) |}.

End Demo.

(** ** The filter algebra, as the specification words it *)
Module FilterSpec.
Import Host Expressions Filters.

Definition isArray (v : value) : bool :=
  match v with VArr _ => true | _ => false end.

(** A filter tree: a string, or a compound whose keys are among [and],
    [or], [not], each mapping to an array of filter trees. *)
Fixpoint wellFormed (t : value) : bool :=
  match t with
  | VStr _ => true
  | VObj compound =>
      forallb (fun entry =>
                 isFilterKey (fst entry)
                 && match snd entry with
                    | VArr entries => forallb wellFormed entries
                    | _ => false
                    end) compound
  | _ => false
  end.

(** The string filters of a tree. *)
Fixpoint literals (t : value) : list string :=
  match t with
  | VStr literal => [literal]
  | VObj compound =>
      flat_map (fun entry =>
                  match snd entry with
                  | VArr entries => flat_map literals entries
                  | _ => []
                  end) compound
  | _ => []
  end.

Section Denotation.
(** Whether a trimmed, non-blank expression evaluates to a truthy value. *)
Variable holds : string -> bool.

(** [matches(t, s) == (AND over t.and) ∧ (OR over t.or, empty → false)
    ∧ ¬(OR over t.not)], absent groups being vacuously satisfied. *)
Fixpoint matches (t : value) : bool :=
  match t with
  | VStr literal =>
      let trimmed := Js.trim literal in
      if (String.length trimmed =? 0)%nat then false else holds trimmed
  | VObj compound =>
      let groups :=
        map (fun entry =>
               (fst entry,
                match snd entry with
                | VArr entries => Some (map matches entries)
                | _ => None
                end)) compound in
      match objGet groups "and" with
      | Some (Some members) => forallb id members
      | _ => true
      end
      && match objGet groups "or" with
         | Some (Some members) => existsb id members
         | _ => true
         end
      && match objGet groups "not" with
         | Some (Some members) => negb (existsb id members)
         | _ => true
         end
  | _ => false
  end.
End Denotation.

(** The [and] group of a compound is passed, taking the state from [st]
    to [st1]: it is absent, or an array all of whose members match. *)
Definition andPassed (evaluation : EvaluationState) (compound : list (string * value))
           (context : string) (st st1 : state) : Prop :=
  match objGet compound "and" with
  | None => st1 = st
  | Some (VArr entries) =>
      allMatch (map (evaluateFilterNode evaluation) entries) (context +:+ " (and)") st
      = (Ok true, st1)
  | Some _ => False
  end.

(** The [or] group is passed: it is absent, or an array one of whose
    members matches. *)
Definition orPassed (evaluation : EvaluationState) (compound : list (string * value))
           (context : string) (st st1 : state) : Prop :=
  match objGet compound "or" with
  | None => st1 = st
  | Some (VArr entries) =>
      anyMatch (map (evaluateFilterNode evaluation) entries) (context +:+ " (or)") st
      = (Ok true, st1)
  | Some _ => False
  end.

(** What [evaluateFilterNode] makes of the value under a key. *)
Definition groupOfValue (evaluation : EvaluationState) (v : value) : group :=
  match v with
  | VArr entries => Some (map (evaluateFilterNode evaluation) entries)
  | _ => None
  end.

(** The groups [evaluateFilterNode] hands to [evaluateCompound]. *)
Definition groupsOf (evaluation : EvaluationState) (compound : list (string * value))
  : list (string * group) :=
  map (fun entry => (fst entry, groupOfValue evaluation (snd entry))) compound.

(** The error [matchesFilter] raises for a group that is not an array. *)
Definition groupError (context key : string) : error :=
  ErrorCause ("Failed to process " +:+ context) (notAnArray context key).

(** *** What the correctness of the algebra is stated with *)
Section Correctness.
Variable evaluation : EvaluationState.
Variable holds : string -> bool.
Variable P : state -> Prop.

(** A member that evaluates to [b], without raising, in every state of [P]. *)
Definition yields (m : member) (b : bool) : Prop :=
  forall context st, P st -> exists st', m context st = (Ok b, st') /\ P st'.

(** The literals of [t] evaluate, in every state of [P], to a value whose
    truthiness is what [holds] says. *)
Definition literalsHold (t : value) : Prop :=
  forall literal label st,
    In literal (literals t) -> Js.trim literal <> "" -> P st ->
    exists v st',
      evaluate_ evaluation (Js.trim literal) label st = (Ok v, st')
      /\ toBoolean v = holds (Js.trim literal) /\ P st'.

Definition nodeCorrect (t : value) : Prop :=
  wellFormed t = true -> literalsHold t ->
  yields (evaluateFilterNode evaluation t) (matches holds t).

(** What the induction carries: the node is correct and, when it is an
    array, so are its items. *)
Definition deeply (t : value) : Prop :=
  nodeCorrect t
  /\ match t with VArr entries => Forall nodeCorrect entries | _ => True end.

End Correctness.

End FilterSpec.

(** ** Scope precedence, as the code implements it *)
Module ScopeSpec.
Import Host Expressions.

(** The entries [buildEvaluationState] assigns before any loop. *)
Definition BASE_KEYS : list string :=
  [ "file"; "frontmatter"; "metadata"; "note"; "properties" ].

(** A frontmatter key that the promotion loop binds when it meets it
    first: a valid identifier that is neither reserved, nor a base key,
    nor the name of a global function. *)
Definition promotable (key : string) : bool :=
  isValidIdentifier key
  && negb (memString key BASE_KEYS)
  && negb (memString key globalFunctionKeys).

(** The global functions with their aliases, in the order of assignment. *)
Definition globalsWithAliases : list (string * value) :=
  flat_map (fun entry =>
              entry :: match objGet Rewrite.GLOBAL_FUNCTION_ALIASES (fst entry) with
                       | Some alias => [(alias, snd entry)]
                       | None => []
                       end)
           GlobalFunctions.createGlobalFunctionScope.


(** The entries assigned before any loop, with their values. *)
Definition baseEntries (file : Vault.VaultFile) : list (string * value) :=
  [ ("file", VFile);
    ("frontmatter", VObj (default [] (Vault.frontmatter file)));
    ("metadata", VObj (default [] (Vault.metadata file)));
    ("note", VObj (default [] (Vault.frontmatter file)));
    ("properties", VObj (default [] (Vault.properties file))) ].

(** The frontmatter entries the promotion loop may bind. *)
Definition promotedEntry (file : Vault.VaultFile) (key : string) : option value :=
  if isValidIdentifier key && negb (memString key globalFunctionKeys)
  then objGet (default [] (Vault.frontmatter file)) key
  else None.

(** The first of several optional bindings. *)
Fixpoint firstSome {A} (candidates : list (option A)) : option A :=
  match candidates with
  | [] => None
  | Some x :: _ => Some x
  | None :: more => firstSome more
  end.

(** The binding of [key] in the scope: [formula] is the proxy; otherwise
    the first binding in the order base entries, promoted frontmatter
    identifiers, global functions and their aliases, built-in namespaces. *)
Definition scopeBinding (file : Vault.VaultFile) (key : string) : option value :=
  if String.eqb key "formula" then Some VFormula
  else firstSome [ objGet (baseEntries file) key;
                   promotedEntry file key;
                   objGet globalsWithAliases key;
                   objGet BUILTIN_SCOPE_ENTRIES key ].

End ScopeSpec.

(** ** The formula proxy: invariants of the evaluation state *)
Module ProxySpec.
Import Host Expressions.

Definition isOk {A} (r : outcome A) : bool :=
  match r with Ok _ => true | _ => false end.

(** The error the trap raises for a formula that is being evaluated. *)
Definition circularError (propKey : string) : error :=
  Error ("Circular formula reference detected for " +:+ Duration.quote propKey).

Section Invariants.
Variable formulaDefinitions : list (string * value).

(** A formula that is being evaluated has a definition and no cached value. *)
Definition Inv (st : state) : Prop :=
  forall k, k ∈ evaluating st ->
            formulaCache st !! k = None /\ hasOwn formulaDefinitions k = true.

(** The ghost log is duplicate-free, and a formula whose body evaluation
    has begun is still being evaluated or has its value cached. *)
Definition Ran (st : state) : Prop :=
  List.NoDup (started st)
  /\ forall k, In k (started st) ->
               k ∈ evaluating st \/ is_Some (formulaCache st !! k).

(** What a computation may do to the state: the set of formulas being
    evaluated is restored, cached values stay, the ghost log grows. *)
Definition Step (st st' : state) : Prop :=
  evaluating st' = evaluating st
  /\ (forall k v, formulaCache st !! k = Some v -> formulaCache st' !! k = Some v)
  /\ (exists more, started st' = started st ++ more).

(** Two computations agree, and respect the invariants, from every state
    of the invariant whose set of formulas being evaluated satisfies [W]. *)
Definition Sim {A} (W : gset string -> Prop) (m1 m2 : M A) : Prop :=
  forall st, Inv st -> W (evaluating st) ->
    m1 st = m2 st
    /\ Inv (snd (m1 st))
    /\ Step st (snd (m1 st))
    /\ (Ran st -> isOk (fst (m1 st)) = true -> Ran (snd (m1 st))).

(** A computation respects the invariants. *)
Definition Safe {A} (m : M A) : Prop := Sim (fun _ => True) m m.

(** A trap that raises the circular-reference error on [watched] and is
    [get] elsewhere. *)
Definition circularOn (watched : string) (get : string -> M value) : string -> M value :=
  fun propKey =>
    if String.eqb propKey watched then throw (circularError watched)
    else get propKey.

(** Two evaluations of a node, over two traps, are in simulation. *)
Definition nodeSim (W : gset string -> Prop) (file : Vault.VaultFile)
           (scope : gmap string value) (get1 get2 : string -> M value) (e : expr) : Prop :=
  Sim W (evaluateExpressionNode file scope formulaDefinitions get1 e)
        (evaluateExpressionNode file scope formulaDefinitions get2 e).

(** What the induction on nodes carries: the node, and the parts of a
    member node. *)
Definition nodeSimDeep (W : gset string -> Prop) (file : Vault.VaultFile)
           (scope : gmap string value) (get1 get2 : string -> M value) (e : expr) : Prop :=
  nodeSim W file scope get1 get2 e
  /\ match e with
     | MemberExpression _ object property =>
         nodeSim W file scope get1 get2 object /\ nodeSim W file scope get1 get2 property
     | _ => True
     end.

(** Two closures the trap may call: both absent, or both present and in
    simulation. *)
Definition closuresSim (W : gset string -> Prop)
           (ev1 ev2 : option (string -> string -> M value)) : Prop :=
  match ev1, ev2 with
  | Some e1, Some e2 =>
      forall expression label, Sim W (e1 expression label) (e2 expression label)
  | None, None => True
  | _, _ => False
  end.

(** The recursion fuel covers the defined formulas that are not being
    evaluated: each nested body evaluation marks one more of them. *)
Definition fuelCovers (fuel : nat) (E : gset string) : Prop :=
  (size ((list_to_set (keys formulaDefinitions) : gset string) ∖ E) <= fuel)%nat.

Section During.
Variable jsep : string -> expr + error.
Variable file : Vault.VaultFile.
Variable scope : gmap string value.
Variable watched : string.

(** The trap as it behaves while [watched] is being evaluated, at every
    level of nested formula evaluation. *)
Fixpoint formulaGetDuring (fuel : nat) : string -> M value :=
  circularOn watched
    (formulaGetWith formulaDefinitions
       match fuel with
       | O => None
       | S fuel' => Some (evaluate jsep file scope formulaDefinitions (formulaGetDuring fuel'))
       end).
End During.
End Invariants.

(** Whether the definition of a formula is a string that is not blank. *)
Definition hasBody (formulaDefinitions : list (string * value)) (propKey : string) : bool :=
  match objGet formulaDefinitions propKey with
  | Some (VStr expression) => negb (String.length (Js.trim expression) =? 0)%nat
  | _ => false
  end.

End ProxySpec.

(** ** Matches that consume input *)
Module RegexSpec.
Import Regex.

(** Every match of the pattern consumes at least one character. *)
Fixpoint nonEmpty (r : regex) : bool :=
  match r with
  | Lit s => negb (length (Js.chars s) =? 0)%nat
  | Digit | Space => true
  | Seq a b => nonEmpty a || nonEmpty b
  | Alt a b => nonEmpty a && nonEmpty b
  | Opt _ | Star _ => false
  | Plus a => nonEmpty a
  | Group a => nonEmpty a
  end.

End RegexSpec.

(** ** The source rewrite, position by position *)
Module RewriteSpec.

(** The three kinds of quoted span. *)
Inductive span := SingleQuoted | DoubleQuoted | BacktickQuoted.

Definition delimiter (q : span) : ascii :=
  match q with
  | SingleQuoted => "'"%char
  | DoubleQuoted => "034"%char
  | BacktickQuoted => "`"%char
  end.

Definition opens (c : ascii) : option span :=
  if Ascii.eqb c "'"%char then Some SingleQuoted
  else if Ascii.eqb c "034"%char then Some DoubleQuoted
  else if Ascii.eqb c "`"%char then Some BacktickQuoted
  else None.

(** Where a position lies: outside every quoted span, or inside one (after
    a backslash the next character is escaped and cannot close the span). *)
Inductive place := Outside | Inside (q : span) (escaped : bool).

Definition advance (p : place) (c : ascii) : place :=
  match p with
  | Outside =>
      match opens c with
      | Some q => Inside q false
      | None => Outside
      end
  | Inside q true => Inside q false
  | Inside q false =>
      if Ascii.eqb c "\"%char then Inside q true
      else if Ascii.eqb c (delimiter q) then Outside
      else Inside q false
  end.

(** The place of the character at [index], from the characters before it. *)
Definition placeAt (expression : list ascii) (index : nat) : place :=
  fold_left advance (firstn index expression) Outside.

Definition outsideQuotes (expression : list ascii) (index : nat) : bool :=
  match placeAt expression index with
  | Outside => true
  | Inside _ _ => false
  end.

(** An identifier character: a letter, a digit, [_] or [$]. *)
Definition identifierCharacter (c : ascii) : bool :=
  Js.isUpper c || Js.isLower c || Js.isDigit c
  || Ascii.eqb c "_"%char || Ascii.eqb c "$"%char.

(** The character at a position, and the one before a position, where
    there is one. *)
Definition characterAt (expression : list ascii) (index : nat) : option ascii :=
  nth_error expression index.

Definition characterBefore (expression : list ascii) (index : nat) : option ascii :=
  match index with
  | O => None
  | S i => nth_error expression i
  end.

(** There is a character and it has the property. *)
Definition satisfies (property : ascii -> bool) (char : option ascii) : bool :=
  match char with
  | Some c => property c
  | None => false
  end.

(** The first character at or after [index] that is not white space. *)
Definition nextNonWhiteSpace (expression : list ascii) (index : nat) : option ascii :=
  find (fun c => negb (Js.isWhiteSpace c)) (skipn index expression).

(** The occurrence of [name] at [index] is one that is rewritten: it lies
    outside the quoted spans, no identifier character and no dot stands
    before it, no identifier character stands after it, and the next
    character that is not white space is an opening parenthesis. *)
Definition rewritable (expression : list ascii) (index : nat) (name : string) : bool :=
  outsideQuotes expression index
  && Js.startsWithAt expression (Js.chars name) index
  && negb (satisfies identifierCharacter (characterBefore expression index))
  && negb (satisfies (fun c => Ascii.eqb c "."%char) (characterBefore expression index))
  && negb (satisfies identifierCharacter
             (characterAt expression (index + String.length name)))
  && satisfies (fun c => Ascii.eqb c "("%char)
       (nextNonWhiteSpace expression (index + String.length name)).

(** The name rewritten at [index], with the alias put in its place: [if]
    becomes [_if] and [file] becomes [_fileFn]. *)
Definition rewrittenAt (expression : list ascii) (index : nat) : option (string * string) :=
  if rewritable expression index "if" then Some ("if", "_if")
  else if rewritable expression index "file" then Some ("file", "_fileFn")
  else None.

(** [index] lies in a rewritten occurrence that starts before it. *)
Definition covered (expression : list ascii) (index : nat) : bool :=
  existsb
    (fun start =>
       match rewrittenAt expression start with
       | Some (name, _) =>
           Nat.ltb start index && Nat.ltb index (start + String.length name)
       | None => false
       end)
    (seq 0 index).

(** What the rewrite puts out for the position [index]. *)
Definition emitted (expression : list ascii) (index : nat) : list ascii :=
  match rewrittenAt expression index with
  | Some (_, alias) => Js.chars alias
  | None =>
      if covered expression index then []
      else match characterAt expression index with
           | Some c => [c]
           | None => []
           end
  end.

Definition rewrite (expression : list ascii) : list ascii :=
  flat_map (emitted expression) (seq 0 (length expression)).

(** The scanner's flags at a place. *)
Definition flagsOf (p : place) : bool * bool * bool * bool :=
  match p with
  | Outside => (false, false, false, false)
  | Inside SingleQuoted e => (true, false, false, e)
  | Inside DoubleQuoted e => (false, true, false, e)
  | Inside BacktickQuoted e => (false, false, true, e)
  end.

(** A name made of identifier characters (so of neither quotes nor
    backslashes), and not empty. *)
Definition plainName (name : string) : bool :=
  Nat.ltb 0 (String.length name)
  && forallb (fun c => identifierCharacter c
                       && match opens c with Some _ => false | None => true end)
       (Js.chars name).

(** The scanner, at its index, has put out what the positions before it
    put out, carries the flags of the place it is at, and has passed every
    rewritten occurrence that starts before it. *)
Definition agrees (expression : list ascii) (s : Rewrite.scanner) : Prop :=
  (Rewrite.index s <= length expression)%nat
  /\ Rewrite.result s = flat_map (emitted expression) (seq 0 (Rewrite.index s))
  /\ (Rewrite.inSingle s, Rewrite.inDouble s, Rewrite.inTemplate s, Rewrite.escaping s)
     = flagsOf (placeAt expression (Rewrite.index s))
  /\ (forall start name alias,
         (start < Rewrite.index s)%nat ->
         rewrittenAt expression start = Some (name, alias) ->
         (start + String.length name <= Rewrite.index s)%nat).

End RewriteSpec.

(** ** src/materialize.ts

    A base definition is what the YAML parser returns: plain data. An
    object is the list of its own properties in the order [Object.keys]
    enumerates them. *)
Module Materialize.
Import Host Expressions Filters.

Record ObsidianBaseDefinition := {
  filters : value;                                (* [undefined] when absent *)
  formulas : option (list (string * value));
  properties : option (list (string * value));
  views : value
}.

(** Values a YAML document holds. *)
Definition isData (v : value) : bool :=
  match v with
  | VUndefined | VNull | VBool _ | VNum _ | VBigInt _ | VStr _ | VDate _
  | VArr _ | VObj _ => true
  | _ => false
  end.

(** [view.key] on a view that is neither [null] nor [undefined], for the
    keys [name], [order], [limit] and [filters], none of which a prototype
    of plain data defines. *)
Definition field (view : value) (key : string) : value :=
  match view with
  | VObj props => default VUndefined (objGet props key)
  | _ => VUndefined
  end.

(** [typeof entry === "string"] entries of an array. *)
Definition stringsOf (entries : list value) : list string :=
  flat_map (fun entry => match entry with VStr s => [s] | _ => [] end) entries.

Definition deriveColumnKeys (viewOrder : value)
           (propertyMap formulas : option (list (string * value))) : list string :=
  let ordered := match viewOrder with
                 | VArr entries => stringsOf entries
                 | _ => []
                 end in
  if (0 <? length ordered)%nat then ordered
  else
    let propertyKeys := match propertyMap with
                        | Some props => keys props
                        | None => []
                        end in
    if (0 <? length propertyKeys)%nat then propertyKeys
    else match formulas with
         | Some defs => map (fun key => "formula." +:+ key) (keys defs)
         | None => []
         end.

(** [resolveDisplayName]. A key found on a prototype only has a
    definition without [displayName]. *)
Definition resolveDisplayName (propertyKey : string)
           (propertyMap : option (list (string * value))) : string :=
  match propertyMap with
  | Some props =>
      match objGet props propertyKey with
      | Some (VObj definition) =>
          match objGet definition "displayName" with
          | Some (VStr displayName) =>
              if (0 <? String.length displayName)%nat then displayName else propertyKey
          | _ => propertyKey
          end
      | _ => propertyKey
      end
  | None => propertyKey
  end.

(** The callback of [views.find]. *)
Definition isNamed (viewName : string) (view : value) : bool :=
  match field view "name" with
  | VStr name => String.eqb name viewName
  | _ => false
  end.

(** [views.find(...) ?? views[0]] *)
Definition selectView (views : list value) (viewName : string) : value :=
  match find (isNamed viewName) views with
  | Some view => view
  | None => nth 0 views VUndefined
  end.

(** [Math.floor] of a finite number, as an integer. *)
Definition mathFloor (x : float) : Z :=
  match Prim2SF x with
  | S754_finite s m e =>
      let n := if s then Z.neg m else Z.pos m in
      if 0 <=? e then n * 2 ^ e else n / 2 ^ (- e)
  | _ => 0
  end.

(** The [limit] of the view: [None] is [undefined]. *)
Definition limitOf (limitValue : value) : option nat :=
  match limitValue with
  | VNum n =>
      if Js.isFinite n && (0 <? n)%float then Some (Z.to_nat (mathFloor n)) else None
  | _ => None
  end.

(** [matches.slice(0, limit)] *)
Definition limited {A} (limit : option nat) (matches : list A) : list A :=
  match limit with
  | Some n => firstn n matches
  | None => matches
  end.

Section Materialize.
Variable jsep : string -> expr + error.
Variable baseDefinition : ObsidianBaseDefinition.

Definition baseContext (file : Vault.VaultFile) : string :=
  "base filters for file " +:+ Duration.quote (Vault.relativePath file).

Definition viewContext (viewLabel : string) (file : Vault.VaultFile) : string :=
  "view " +:+ Duration.quote viewLabel +:+ " filters for file "
  +:+ Duration.quote (Vault.relativePath file).

(** The body of the first loop: whether the file is pushed on [matches],
    from the fresh tables of its evaluation state. *)
Definition fileMatches (viewFilters : value) (viewLabel : string)
           (file : Vault.VaultFile) : outcome bool * state :=
  let evaluation := buildEvaluationState jsep file (formulas baseDefinition) in
  (do passedBase <- matchesFilter evaluation (filters baseDefinition) (baseContext file);
   if negb passedBase then ret false
   else matchesFilter evaluation viewFilters (viewContext viewLabel file)) initialState.

(** The first loop: the matching files, each with the tables of its
    evaluation state as the filters left them. *)
Fixpoint collectMatches (viewFilters : value) (viewLabel : string)
         (vaultFiles : list Vault.VaultFile) : outcome (list (Vault.VaultFile * state)) :=
  match vaultFiles with
  | [] => Ok []
  | file :: more =>
      match fileMatches viewFilters viewLabel file with
      | (Ok true, st) =>
          obind (collectMatches viewFilters viewLabel more) (fun rest =>
            Ok ((file, st) :: rest))
      | (Ok false, _) => collectMatches viewFilters viewLabel more
      | (Throw e, _) => Throw e
      | (Unmodelled w, _) => Unmodelled w
      | (OutOfFuel, _) => OutOfFuel
      end
  end.

Definition propertyError (columnKey : string) (file : Vault.VaultFile) (cause : error)
  : error :=
  ErrorCause ("Failed to evaluate property " +:+ Duration.quote columnKey
              +:+ " for file " +:+ Duration.quote (Vault.relativePath file)) cause.

(** The inner loop: the cells of one row. *)
Fixpoint evaluateRow (evaluation : EvaluationState) (file : Vault.VaultFile)
         (columnKeys : list string) : M (list string) :=
  match columnKeys with
  | [] => ret []
  | columnKey :: more =>
      do cell <- catch
                   (do v <- evaluate_ evaluation columnKey
                              ("property " +:+ Duration.quote columnKey);
                    lift (formatValue v))
                   (fun error => throw (propertyError columnKey file error));
      do rest <- evaluateRow evaluation file more;
      ret (cell :: rest)
  end.

(** The second loop: one row per match. *)
Fixpoint evaluateRows (columnKeys : list string)
         (matches : list (Vault.VaultFile * state)) : outcome (list (list string)) :=
  match matches with
  | [] => Ok []
  | (file, st) :: more =>
      let evaluation := buildEvaluationState jsep file (formulas baseDefinition) in
      obind (fst (evaluateRow evaluation file columnKeys st)) (fun row =>
      obind (evaluateRows columnKeys more) (fun rows => Ok (row :: rows)))
  end.

Definition materialize (viewName : string) (vaultFiles : list Vault.VaultFile)
  : outcome (list (list string)) :=
  let views := match views baseDefinition with
               | VArr items => items
               | _ => []
               end in
  let selectedView := selectView views viewName in
  if negb (isData selectedView) then Unmodelled "view that is not plain data"
  else if negb (toBoolean selectedView) then Ok []
  else
    let propertyMap := properties baseDefinition in
    let columnKeys :=
      deriveColumnKeys (field selectedView "order") propertyMap
                       (formulas baseDefinition) in
    if (length columnKeys =? 0)%nat then Ok []
    else
      let header := map (fun key => resolveDisplayName key propertyMap) columnKeys in
      let viewLabel := match field selectedView "name" with
                       | VStr name => name
                       | _ => viewName
                       end in
      obind (collectMatches (field selectedView "filters") viewLabel vaultFiles)
        (fun matches =>
           let limitedMatches := limited (limitOf (field selectedView "limit")) matches in
           obind (evaluateRows columnKeys limitedMatches) (fun rows =>
             Ok (header :: rows))).
End Materialize.

End Materialize.

(** ** module.ts: the table as Markdown *)
Module Markdown.

(** [value.replaceAll(pattern, replacement)] for a one-character pattern. *)
Definition replaceAll (pattern : ascii) (replacement : string) (value : string) : string :=
  Js.str (flat_map (fun c => if Ascii.eqb c pattern then Js.chars replacement else [c])
                   (Js.chars value)).

Definition newline : string := String "010"%char EmptyString.

Definition escapeCell (value : string) : string :=
  replaceAll "010"%char "<br>" (replaceAll "|"%char "\|" value).

Definition line (cells : list string) : string :=
  "| " +:+ String.concat " | " cells +:+ " |".

Definition renderMarkdownTable (rows : list (list string)) : string :=
  match rows with
  | [] => String.concat newline [line [escapeCell ""]; "| --- |"]
  | header :: body =>
      let headerLine := line (map escapeCell header) in
      let separator := line (map (fun _ => "---") header) in
      let bodyLines := map (fun row => line (map escapeCell row)) body in
      String.concat newline (headerLine :: separator :: bodyLines)
  end.

End Markdown.

(** ** What the properties of the table are stated with *)
Module MaterializeSpec.
Import Host Expressions Filters Materialize.

(** The views of a base definition, and the one [materialize] selects. *)
Definition viewsOf (baseDefinition : ObsidianBaseDefinition) : list value :=
  match views baseDefinition with
  | VArr items => items
  | _ => []
  end.

Definition selected (baseDefinition : ObsidianBaseDefinition) (viewName : string) : value :=
  selectView (viewsOf baseDefinition) viewName.

Definition columnsOf (baseDefinition : ObsidianBaseDefinition) (viewName : string)
  : list string :=
  deriveColumnKeys (field (selected baseDefinition viewName) "order")
                   (properties baseDefinition) (formulas baseDefinition).

Definition labelOf (baseDefinition : ObsidianBaseDefinition) (viewName : string) : string :=
  match field (selected baseDefinition viewName) "name" with
  | VStr name => name
  | _ => viewName
  end.


End MaterializeSpec.

(** ** A small vault and base for the examples of the table *)
Module Sample.
Import Expressions Materialize.

Definition sources : list (string * expr) :=
  [ ("file.name", MemberExpression false (Identifier "file") (Identifier "name"));
    ("status", Identifier "status");
    ("status == 'active'",
     BinaryExpression "==" (Identifier "status") (Literal (VStr "active")));
    ("formula.label",
     MemberExpression false (Identifier "formula") (Identifier "label"));
    ("file.name + '!'",
     BinaryExpression "+"
       (MemberExpression false (Identifier "file") (Identifier "name"))
       (Literal (VStr "!")));
    ("owner.name", MemberExpression false (Identifier "owner") (Identifier "name")) ].

Definition jsep (source : string) : expr + error :=
  match Host.objGet sources source with
  | Some ast => inl ast
  | None => inr (Error "Unexpected token")
  end.

Definition note (name status : string) : Vault.VaultFile :=
  {| Vault.path := "/vault/" +:+ name +:+ ".md";
     Vault.relativePath := name +:+ ".md";
     Vault.name := name; Vault.ext := "md"; Vault.folder := "";
     Vault.stat := {| Vault.size := 0; Vault.birthtime := None;
                      Vault.mtime := None; Vault.ctime := None |};
     Vault.frontmatter := Some [("status", VStr status)];
     Vault.metadata := None; Vault.properties := None; Vault.tags := None;
     Vault.links := None; Vault.embeds := None; Vault.backlinks := [] |}.

Definition files : list Vault.VaultFile :=
  [ note "alpha" "active"; note "beta" "done"; note "gamma" "active" ].

Definition columns : value :=
  VArr [VStr "file.name"; VNum 7; VStr "status"; VStr "formula.label"].

Definition base : ObsidianBaseDefinition :=
  {| filters := VObj [("and", VArr [VStr "status == 'active'"])];
     formulas := Some [("label", VStr "file.name + '!'")];
     properties := Some [("file.name", VObj [("displayName", VStr "Name")])];
     views :=
       VArr [ VObj [("type", VStr "table"); ("name", VStr "All"); ("order", columns)];
              VObj [("type", VStr "table"); ("name", VStr "Top"); ("order", columns);
                    ("limit", VNum 1)];
              VObj [("type", VStr "table"); ("name", VStr "Half"); ("order", columns);
                    ("limit", VNum 0.5)];
              VObj [("type", VStr "table"); ("name", VStr "Owners");
                    ("order", VArr [VStr "owner.name"])] ] |}.

End Sample.

(** The syntax trees of the sources the scope examples evaluate. *)
Module ScopeSample.
Import Expressions.

Definition sources : list (string * expr) :=
  [ ("_if(true, 1, 2)",
     CallExpression (Identifier "_if")
       [Literal (VBool true); Literal (VNum 1); Literal (VNum 2)]);
    ("window", Identifier "window") ].

Definition jsep (source : string) : expr + error :=
  match Host.objGet sources source with
  | Some ast => inl ast
  | None => inr (Error "Unexpected token")
  end.

Definition evaluationOf (note : list (string * value)) : EvaluationState :=
  buildEvaluationState jsep (Demo.createTestFile note) None.

End ScopeSample.

(** ** The unit words the duration parser reads *)
Module DurationSpec.
Import Duration.

(** The entries of the unit table but for the words [min], [mins],
    [minute] and [minutes]. *)
Definition READABLE_UNITS : list (string * float) :=
  filter (fun entry =>
            negb (Host.memString (fst entry) ["min"; "mins"; "minute"; "minutes"]))
         DURATION_UNIT_MULTIPLIERS.

(** A character class: [\d] or [\s]. *)
Definition classOf (cls : Regex.regex) (p : ascii -> bool) : Prop :=
  forall l, Regex.run true cls l
            = match l with
              | c :: r => if p c then [([], r)] else []
              | [] => []
              end.

(** The list is empty or starts with a character outside the class. *)
Definition startsOutside (p : ascii -> bool) (l : list ascii) : Prop :=
  match l with
  | c :: _ => p c = false
  | [] => True
  end.

(** What [parseDuration] makes of a unit word that follows a number: the
    pattern reads the whole word, starting at its first character, and the
    table gives its multiplier. *)
Definition readsUnit (unit : list ascii) (mult : float) : Prop :=
  match unit with
  | [] => False
  | first :: _ =>
      Js.isDigit first = false /\ Js.isWhiteSpace first = false
      /\ Regex.sameChar true "."%char first = false
  end
  /\ Js.dropWhile Js.isWhiteSpace (rev unit) = rev unit
  /\ (exists more, Regex.run true UNIT_GROUP unit = ([Js.str unit], []) :: more)
  /\ match mapGet DURATION_UNIT_MULTIPLIERS (Js.str unit) with
     | Some x => Some x
     | None => mapGet DURATION_UNIT_MULTIPLIERS (Js.toLowerCase (Js.str unit))
     end = Some mult.

End DurationSpec.

(** ** The table of compiled expressions *)
Module CacheSpec.
Import Expressions.

Section Cache.
Variable jsep : string -> expr + error.

(** Every entry of [compiledExpressions] is the parse of its key. *)
Definition parsed (st : state) : Prop :=
  forall source ast, compiledExpressions st !! source = Some ast -> jsep source = inl ast.

(** Two states that hold parses and differ in [compiledExpressions] at
    most. *)
Definition sameButParses (s1 s2 : state) : Prop :=
  parsed s1 /\ parsed s2
  /\ formulaCache s1 = formulaCache s2
  /\ evaluating s1 = evaluating s2
  /\ started s1 = started s2.

(** A computation that does not tell such states apart. *)
Definition transparent {A} (m : M A) : Prop :=
  forall s1 s2, sameButParses s1 s2 ->
    fst (m s1) = fst (m s2) /\ sameButParses (snd (m s1)) (snd (m s2)).

(** The same, for the closure the trap may call. *)
Definition transparentClosure (ev : option (string -> string -> M value)) : Prop :=
  match ev with
  | Some e => forall expression label, transparent (e expression label)
  | None => True
  end.

End Cache.
End CacheSpec.

(** ** Evaluations within the bound on nested formulas *)
Module TerminationSpec.
Import Host Expressions ProxySpec.

(** A computation that respects the invariants and, from every state of
    the invariant whose set of formulas in progress satisfies [W], does not
    use up the recursion fuel: its outcome is a value, an error or the stop
    at a host feature outside the model. *)
Definition ends (formulaDefinitions : list (string * value))
           (W : gset string -> Prop) {A} (m : M A) : Prop :=
  Sim formulaDefinitions W m m
  /\ forall st, Inv formulaDefinitions st -> W (evaluating st) ->
                fst (m st) <> OutOfFuel.

(** The members of every group of a compound stay within the fuel. *)
Definition groupsEnd (formulaDefinitions : list (string * value))
           (compound : list (string * Filters.group)) : Prop :=
  Forall (fun entry : string * Filters.group =>
            match snd entry with
            | Some entries =>
                Forall (fun m : Filters.member =>
                          forall context, ends formulaDefinitions (fun _ => True) (m context))
                       entries
            | None => True
            end) compound.

End TerminationSpec.

(** ** The text of a link in a cell *)
Module LinkSpec.

(** The display text when it is a string that is not empty, the path
    otherwise. *)
Definition linkText (path : string) (display : value) : string :=
  match display with
  | VStr text => if (0 <? String.length text)%nat then text else path
  | _ => path
  end.

End LinkSpec.

(* ===================================================================== *)
(** * Part II. Properties                                                 *)
(* ===================================================================== *)

Import Host Expressions Filters.

(** ** Filters *)

Lemma bind_ok {A B} (m : M A) (k : A -> M B) st a st' :
  m st = (Ok a, st') -> bind m k st = k a st'.
Proof. intros H. unfold bind. rewrite H. reflexivity. Qed.

Lemma bind_throw {A B} (m : M A) (k : A -> M B) st e st' :
  m st = (Throw e, st') -> bind m k st = (Throw e, st').
Proof. intros H. unfold bind. rewrite H. reflexivity. Qed.

Lemma evaluateFilterLiteral_blank evaluation literal context st :
  Js.trim literal = "" ->
  evaluateFilterLiteral evaluation literal context st = (Ok false, st).
Proof. intros H. unfold evaluateFilterLiteral. rewrite H. reflexivity. Qed.

(** C10. A string filter that is empty or holds only white space makes
    [matchesFilter] return false, whatever the evaluation state: no error is
    raised, the state is left as it was and [evaluate] is not called (the
    result does not depend on it). *)
Theorem C10_blank_filter_is_dropped
        (evaluation : EvaluationState) (literal context : string) (st : state) :
  Js.trim literal = "" ->
  matchesFilter evaluation (VStr literal) context st = (Ok false, st).
Proof.
  intros H. unfold matchesFilter, catch. simpl.
  rewrite (evaluateFilterLiteral_blank _ _ _ _ H). reflexivity.
Qed.

Lemma C10_blank_filter_witness :
  Js.trim "   " = ""
  /\ matchesFilter Demo.failingEvaluation (VStr "   ") "base filters" initialState
     = (Ok false, initialState).
Proof.
  split; [reflexivity | apply C10_blank_filter_is_dropped; reflexivity].
Defined.

Import FilterSpec.

Lemma objGet_map {V W} (f : V -> W) (props : list (string * V)) key :
  objGet (map (fun entry => (fst entry, f (snd entry))) props) key
  = option_map f (objGet props key).
Proof.
  induction props as [|[k v] r IH]; simpl; [reflexivity|].
  destruct (String.eqb k key); [reflexivity | exact IH].
Qed.

Lemma keys_map {V W} (f : V -> W) (props : list (string * V)) :
  keys (map (fun entry => (fst entry, f (snd entry))) props) = keys props.
Proof.
  unfold keys. rewrite map_map. reflexivity.
Qed.

Lemma evaluateFilterNode_compound evaluation compound :
  evaluateFilterNode evaluation (VObj compound)
  = evaluateCompound (groupsOf evaluation compound).
Proof. reflexivity. Qed.

Lemma objGet_groupsOf evaluation compound key :
  objGet (groupsOf evaluation compound) key
  = option_map (groupOfValue evaluation) (objGet compound key).
Proof. exact (objGet_map (groupOfValue evaluation) compound key). Qed.

Lemma keys_groupsOf evaluation compound :
  keys (groupsOf evaluation compound) = keys compound.
Proof. exact (keys_map (groupOfValue evaluation) compound). Qed.

Lemma matchesFilter_compound evaluation compound context st :
  matchesFilter evaluation (VObj compound) context st
  = match evaluateCompound (groupsOf evaluation compound) context st with
    | (Throw e, st') => (Throw (ErrorCause ("Failed to process " +:+ context) e), st')
    | other => other
    end.
Proof. reflexivity. Qed.

Lemma not_array_group evaluation compound key v :
  objGet compound key = Some v -> isArray v = false ->
  objGet (groupsOf evaluation compound) key = Some None.
Proof.
  intros Hget Harr. rewrite objGet_groupsOf, Hget. simpl.
  destruct v; try reflexivity. discriminate.
Qed.

Lemma evaluateCompound_valid compound context :
  filterExpressionsValid (keys compound) = true ->
  evaluateCompound compound context
  = (do passedAnd <- andGroup compound context;
     if negb passedAnd then ret false
     else do passedOr <- orGroup compound context;
          if negb passedOr then ret false else notGroup compound context).
Proof. intros H. unfold evaluateCompound. rewrite H. reflexivity. Qed.

Lemma andPassed_spec evaluation compound context st st1 :
  andPassed evaluation compound context st st1 ->
  andGroup (groupsOf evaluation compound) context st = (Ok true, st1).
Proof.
  unfold andPassed, andGroup. rewrite objGet_groupsOf.
  destruct (objGet compound "and") as [v|]; simpl.
  - destruct v; try contradiction. intros H. exact H.
  - intros ->. reflexivity.
Qed.

Lemma orPassed_spec evaluation compound context st st1 :
  orPassed evaluation compound context st st1 ->
  orGroup (groupsOf evaluation compound) context st = (Ok true, st1).
Proof.
  unfold orPassed, orGroup. rewrite objGet_groupsOf.
  destruct (objGet compound "or") as [v|]; simpl.
  - destruct v; try contradiction.
    destruct items as [|x r]; simpl; [discriminate|]. intros H. exact H.
  - intros ->. reflexivity.
Qed.

(** C9 (amended). In a compound filter whose keys are all among and/or/not:
    if [and] maps to a value that is not an array, [matchesFilter] raises
    [Failed to process <context>] caused by [<context> "and" group must be an
    array.]; if [or] does, it raises the same for "or" provided the [and]
    group is passed; if [not] does, it raises the same for "not" provided the
    [and] and [or] groups are passed. *)
Theorem C9_group_must_be_an_array
        (evaluation : EvaluationState) (compound : list (string * value))
        (context : string) (st : state) :
  filterExpressionsValid (keys compound) = true ->
  (forall v, objGet compound "and" = Some v -> isArray v = false ->
     matchesFilter evaluation (VObj compound) context st
     = (Throw (groupError context "and"), st))
  /\ (forall v st1, objGet compound "or" = Some v -> isArray v = false ->
        andPassed evaluation compound context st st1 ->
        matchesFilter evaluation (VObj compound) context st
        = (Throw (groupError context "or"), st1))
  /\ (forall v st1 st2, objGet compound "not" = Some v -> isArray v = false ->
        andPassed evaluation compound context st st1 ->
        orPassed evaluation compound context st1 st2 ->
        matchesFilter evaluation (VObj compound) context st
        = (Throw (groupError context "not"), st2)).
Proof.
  intros Hvalid.
  assert (Hk : filterExpressionsValid (keys (groupsOf evaluation compound)) = true)
    by (rewrite keys_groupsOf; exact Hvalid).
  repeat split.
  - intros v Hget Harr. rewrite matchesFilter_compound, (evaluateCompound_valid _ _ Hk).
    unfold bind, andGroup. rewrite (not_array_group _ _ _ _ Hget Harr). reflexivity.
  - intros v st1 Hget Harr Hand.
    rewrite matchesFilter_compound, (evaluateCompound_valid _ _ Hk).
    rewrite (bind_ok _ _ _ _ _ (andPassed_spec _ _ _ _ _ Hand)).
    unfold bind, orGroup. simpl negb. cbv iota.
    rewrite (not_array_group _ _ _ _ Hget Harr). reflexivity.
  - intros v st1 st2 Hget Harr Hand Hor.
    rewrite matchesFilter_compound, (evaluateCompound_valid _ _ Hk).
    rewrite (bind_ok _ _ _ _ _ (andPassed_spec _ _ _ _ _ Hand)).
    change (negb true) with false. cbv iota.
    rewrite (bind_ok _ _ _ _ _ (orPassed_spec _ _ _ _ _ Hor)).
    change (negb true) with false. cbv iota.
    unfold notGroup. rewrite (not_array_group _ _ _ _ Hget Harr). reflexivity.
Qed.

Lemma C9_group_must_be_an_array_witness :
  filterExpressionsValid (keys [("and", VObj []); ("or", VArr [VStr "yes"])]) = true
  /\ matchesFilter Demo.oracleEvaluation
       (VObj [("and", VObj []); ("or", VArr [VStr "yes"])]) "base filters" initialState
     = (Throw (groupError "base filters" "and"), initialState)
  /\ matchesFilter Demo.oracleEvaluation
       (VObj [("and", VArr [VStr "yes"]); ("or", VObj [])]) "view filters" initialState
     = (Throw (groupError "view filters" "or"), initialState)
  /\ matchesFilter Demo.oracleEvaluation
       (VObj [("or", VArr [VStr "yes"]); ("not", VNum 1)]) "view filters" initialState
     = (Throw (groupError "view filters" "not"), initialState).
Proof.
  split; [reflexivity|]. split; [|split].
  - apply (proj1 (C9_group_must_be_an_array Demo.oracleEvaluation
                    [("and", VObj []); ("or", VArr [VStr "yes"])]
                    "base filters" initialState eq_refl) (VObj [])); reflexivity.
  - apply (proj1 (proj2 (C9_group_must_be_an_array Demo.oracleEvaluation
                    [("and", VArr [VStr "yes"]); ("or", VObj [])]
                    "view filters" initialState eq_refl)) (VObj [])); reflexivity.
  - apply (proj2 (proj2 (C9_group_must_be_an_array Demo.oracleEvaluation
                    [("or", VArr [VStr "yes"]); ("not", VNum 1)]
                    "view filters" initialState eq_refl)) (VNum 1) initialState);
      reflexivity.
Defined.

(** C9, as stated, fails for [not]: with an empty [or] group the filter is
    a plain non-match and the [not] group is never looked at. *)
Lemma C9_counterexample_not_group_skipped :
  matchesFilter Demo.failingEvaluation
    (VObj [("or", VArr []); ("not", VObj [("x", VNum 1)])]) "base filters" initialState
  = (Ok false, initialState).
Proof. reflexivity. Qed.

(** The same for [or] behind an [and] group with a blank member. *)
Lemma or_group_skipped :
  matchesFilter Demo.failingEvaluation
    (VObj [("and", VArr [VStr ""]); ("or", VObj [])]) "base filters" initialState
  = (Ok false, initialState).
Proof. reflexivity. Qed.

Lemma groupError_chain context key :
  errorChain (groupError context key)
  = [ "Failed to process " +:+ context;
      context +:+ " " +:+ Duration.quote key +:+ " group must be an array." ].
Proof. reflexivity. Qed.

(** Induction on values that reaches the items of arrays and the property
    values of objects. *)
Lemma value_nested_ind (P : value -> Prop) :
  P VUndefined -> P VNull -> (forall b, P (VBool b)) -> (forall n, P (VNum n)) ->
  (forall z, P (VBigInt z)) -> (forall s, P (VStr s)) -> (forall t, P (VDate t)) ->
  (forall items, Forall P items -> P (VArr items)) ->
  (forall props, Forall (fun entry => P (snd entry)) props -> P (VObj props)) ->
  (forall p f, P (VRegExp p f)) -> P VFile -> P VFormula ->
  (forall f, P (VFun f)) -> (forall n, P (VHostObject n)) ->
  forall v, P v.
Proof.
  intros H1 H2 H3 H4 H5 H6 H7 Harr Hobj H8 H9 H10 H11 H12.
  fix IH 1. intros [ | | b | n | z | s | t | items | props | p f | | | f | n ].
  - exact H1.
  - exact H2.
  - apply H3.
  - apply H4.
  - apply H5.
  - apply H6.
  - apply H7.
  - apply Harr. induction items as [|x r IHr]; constructor; [apply IH | exact IHr].
  - apply Hobj. induction props as [|[k x] r IHr]; constructor; [apply IH | exact IHr].
  - apply H8.
  - exact H9.
  - exact H10.
  - apply H11.
  - apply H12.
Qed.

Lemma objGet_In {V} (props : list (string * V)) key v :
  objGet props key = Some v -> In (key, v) props.
Proof.
  induction props as [|[k x] r IH]; simpl; [discriminate|].
  destruct (String.eqb k key) eqn:E.
  - apply String.eqb_eq in E. subst. intros [= ->]. left. reflexivity.
  - intros H. right. apply IH, H.
Qed.

Lemma length_zero_empty (s : string) :
  (String.length s =? 0)%nat = true <-> s = "".
Proof.
  destruct s; simpl; split; intros H; try reflexivity; discriminate.
Qed.

Section FilterAlgebra.
Variable evaluation : EvaluationState.
Variable holds : string -> bool.
Variable P : state -> Prop.

Local Abbreviation yields := (FilterSpec.yields P).
Local Abbreviation literalsHold := (FilterSpec.literalsHold evaluation holds P).
Local Abbreviation nodeCorrect := (FilterSpec.nodeCorrect evaluation holds P).
Local Abbreviation deeply := (FilterSpec.deeply evaluation holds P).

Lemma allMatch_yields ms bs :
  Forall2 yields ms bs -> yields (allMatch ms) (forallb id bs).
Proof.
  induction 1 as [|m b ms bs Hm _ IH]; intros context st HP; simpl.
  - exists st. split; [reflexivity | exact HP].
  - destruct (Hm context st HP) as (st1 & E & HP1).
    rewrite (bind_ok _ _ _ _ _ E). unfold id at 1. destruct b; simpl.
    + apply IH, HP1.
    + exists st1. split; [reflexivity | exact HP1].
Qed.

Lemma anyMatch_yields ms bs :
  Forall2 yields ms bs -> yields (anyMatch ms) (existsb id bs).
Proof.
  induction 1 as [|m b ms bs Hm _ IH]; intros context st HP; simpl.
  - exists st. split; [reflexivity | exact HP].
  - destruct (Hm context st HP) as (st1 & E & HP1).
    rewrite (bind_ok _ _ _ _ _ E). unfold id at 1. destruct b; simpl.
    + exists st1. split; [reflexivity | exact HP1].
    + apply IH, HP1.
Qed.

Lemma noneMatch_yields ms bs :
  Forall2 yields ms bs -> yields (noneMatch ms) (negb (existsb id bs)).
Proof.
  induction 1 as [|m b ms bs Hm _ IH]; intros context st HP; simpl.
  - exists st. split; [reflexivity | exact HP].
  - destruct (Hm context st HP) as (st1 & E & HP1).
    rewrite (bind_ok _ _ _ _ _ E). unfold id at 1. destruct b; simpl.
    + exists st1. split; [reflexivity | exact HP1].
    + apply IH, HP1.
Qed.

Lemma literal_correct literal : nodeCorrect (VStr literal).
Proof.
  intros _ Hlit context st HP. simpl. unfold evaluateFilterLiteral.
  destruct (String.length (Js.trim literal) =? 0)%nat eqn:E.
  - exists st. split; [reflexivity | exact HP].
  - assert (Hne : Js.trim literal <> "").
    { intros Heq. apply length_zero_empty in Heq. congruence. }
    destruct (Hlit literal
                (context +:+ " expression " +:+ Duration.quote (Js.trim literal)) st)
      as (v & st' & Hev & Hb & HP'); [left; reflexivity | exact Hne | exact HP |].
    rewrite (bind_ok _ _ _ _ _ Hev). exists st'. unfold ret. rewrite Hb.
    split; [reflexivity | exact HP'].
Qed.

Lemma members_yield entries :
  Forall nodeCorrect entries ->
  forallb wellFormed entries = true ->
  (forall e, In e entries -> literalsHold e) ->
  Forall2 yields (map (evaluateFilterNode evaluation) entries)
          (map (matches holds) entries).
Proof.
  induction 1 as [|e r He _ IH]; simpl; intros Hwf Hlit; [constructor|].
  apply andb_prop in Hwf as [Hwe Hwr]. constructor.
  - apply He; [exact Hwe | apply Hlit; left; reflexivity].
  - apply IH; [exact Hwr | intros e' Hin; apply Hlit; right; exact Hin].
Qed.

Lemma group_yields compound key entries :
  Forall (fun entry => deeply (snd entry)) compound ->
  wellFormed (VObj compound) = true ->
  literalsHold (VObj compound) ->
  objGet compound key = Some (VArr entries) ->
  Forall2 yields (map (evaluateFilterNode evaluation) entries)
          (map (matches holds) entries).
Proof.
  intros Hall Hwf Hlit Hget. apply objGet_In in Hget.
  apply members_yield.
  - rewrite List.Forall_forall in Hall. apply (Hall _ Hget).
  - simpl in Hwf. rewrite forallb_forall in Hwf.
    specialize (Hwf _ Hget). simpl in Hwf.
    apply andb_prop in Hwf as [_ Hwf]. exact Hwf.
  - intros e Hin literal label st Hl. apply Hlit. simpl.
    apply in_flat_map. exists (key, VArr entries). split; [exact Hget|].
    simpl. apply in_flat_map. exists e. split; assumption.
Qed.

Lemma wellFormed_group compound key v :
  wellFormed (VObj compound) = true -> objGet compound key = Some v ->
  exists entries, v = VArr entries.
Proof.
  intros Hwf Hget. apply objGet_In in Hget. simpl in Hwf.
  rewrite forallb_forall in Hwf. specialize (Hwf _ Hget). simpl in Hwf.
  apply andb_prop in Hwf as [_ Hwf]. destruct v; try discriminate. eauto.
Qed.

Lemma wellFormed_keys compound :
  wellFormed (VObj compound) = true -> filterExpressionsValid (keys compound) = true.
Proof.
  simpl. unfold filterExpressionsValid, keys.
  induction compound as [|entry r IH]; simpl; [reflexivity|].
  intros H. apply andb_prop in H as [He Hr]. apply andb_prop in He as [Hk _].
  rewrite Hk. apply IH, Hr.
Qed.

Lemma matches_compound compound :
  matches holds (VObj compound)
  = (match objGet compound "and" with
     | Some (VArr entries) => forallb id (map (matches holds) entries)
     | _ => true
     end
     && match objGet compound "or" with
        | Some (VArr entries) => existsb id (map (matches holds) entries)
        | _ => true
        end
     && match objGet compound "not" with
        | Some (VArr entries) => negb (existsb id (map (matches holds) entries))
        | _ => true
        end)%bool.
Proof.
  pose (g := fun v => match v with
                      | VArr entries => Some (map (matches holds) entries)
                      | _ => None
                      end).
  change (matches holds (VObj compound))
    with (let groups := map (fun entry => (fst entry, g (snd entry))) compound in
          (match objGet groups "and" with
           | Some (Some members) => forallb id members | _ => true end
           && match objGet groups "or" with
              | Some (Some members) => existsb id members | _ => true end
           && match objGet groups "not" with
              | Some (Some members) => negb (existsb id members) | _ => true end)%bool).
  cbv zeta. rewrite !(objGet_map g).
  destruct (objGet compound "and") as [[]|], (objGet compound "or") as [[]|],
           (objGet compound "not") as [[]|]; reflexivity.
Qed.

Lemma compound_correct compound :
  Forall (fun entry => deeply (snd entry)) compound -> nodeCorrect (VObj compound).
Proof.
  intros Hall Hwf Hlit context st HP.
  rewrite evaluateFilterNode_compound, evaluateCompound_valid
    by (rewrite keys_groupsOf; apply wellFormed_keys, Hwf).
  rewrite matches_compound.
  (* the and group *)
  assert (Hand : exists st1,
             andGroup (groupsOf evaluation compound) context st
             = (Ok match objGet compound "and" with
                   | Some (VArr entries) => forallb id (map (matches holds) entries)
                   | _ => true
                   end, st1) /\ P st1).
  { unfold andGroup. rewrite objGet_groupsOf.
    destruct (objGet compound "and") as [v|] eqn:E; simpl.
    - destruct (wellFormed_group _ _ _ Hwf E) as [entries ->]. simpl.
      apply (allMatch_yields _ _ (group_yields _ _ _ Hall Hwf Hlit E)), HP.
    - exists st. split; [reflexivity | exact HP]. }
  destruct Hand as (st1 & Eand & HP1). rewrite (bind_ok _ _ _ _ _ Eand).
  destruct (match objGet compound "and" with
            | Some (VArr entries) => forallb id (map (matches holds) entries)
            | _ => true
            end); simpl; [|exists st1; split; [reflexivity | exact HP1]].
  (* the or group *)
  assert (Hor : exists st2,
             orGroup (groupsOf evaluation compound) context st1
             = (Ok match objGet compound "or" with
                   | Some (VArr entries) => existsb id (map (matches holds) entries)
                   | _ => true
                   end, st2) /\ P st2).
  { unfold orGroup. rewrite objGet_groupsOf.
    destruct (objGet compound "or") as [v|] eqn:E; simpl.
    - destruct (wellFormed_group _ _ _ Hwf E) as [entries ->]. simpl.
      pose proof (anyMatch_yields _ _ (group_yields _ _ _ Hall Hwf Hlit E)) as Hy.
      destruct entries as [|e r]; [exists st1; split; [reflexivity | exact HP1]|].
      apply Hy, HP1.
    - exists st1. split; [reflexivity | exact HP1]. }
  destruct Hor as (st2 & Eor & HP2). rewrite (bind_ok _ _ _ _ _ Eor).
  destruct (match objGet compound "or" with
            | Some (VArr entries) => existsb id (map (matches holds) entries)
            | _ => true
            end); simpl; [|exists st2; split; [reflexivity | exact HP2]].
  (* the not group *)
  unfold notGroup. rewrite objGet_groupsOf.
  destruct (objGet compound "not") as [v|] eqn:E; simpl.
  - destruct (wellFormed_group _ _ _ Hwf E) as [entries ->]. simpl.
    apply (noneMatch_yields _ _ (group_yields _ _ _ Hall Hwf Hlit E)), HP2.
  - exists st2. split; [reflexivity | exact HP2].
Qed.

Lemma node_correct t : deeply t.
Proof.
  induction t using value_nested_ind; split; try exact I;
    try (intros Hwf; discriminate Hwf).
  - apply literal_correct.
  - rewrite List.Forall_forall in *. intros e Hin. apply (H e Hin).
  - apply compound_correct. exact H.
Qed.
End FilterAlgebra.

(** C1. For a filter tree [t] (compounds keyed by and/or/not only, each key
    mapping to an array of filter trees) whose string filters evaluate
    without raising, [matchesFilter] returns the conjunction of: every member
    of the [and] group matches; the [or] group, if present, has a member that
    matches (an empty one yields false); no member of the [not] group
    matches; absent groups count as satisfied. A filter that is [undefined]
    or [null] matches. *)
Theorem C1_filter_algebra
        (evaluation : EvaluationState) (holds : string -> bool) (P : state -> Prop)
        (t : value) (context : string) (st : state) :
  (wellFormed t = true -> literalsHold evaluation holds P t -> P st ->
   exists st', matchesFilter evaluation t context st = (Ok (matches holds t), st') /\ P st')
  /\ matchesFilter evaluation VUndefined context st = (Ok true, st)
  /\ matchesFilter evaluation VNull context st = (Ok true, st).
Proof.
  split; [|split; reflexivity].
  intros Hwf Hlit HP.
  destruct (proj1 (node_correct evaluation holds P t) Hwf Hlit context st HP)
    as (st' & E & HP').
  exists st'. split; [|exact HP'].
  destruct t; try discriminate Hwf; unfold matchesFilter, catch; rewrite E; reflexivity.
Qed.

Lemma C1_filter_algebra_witness :
  let t := VObj [ ("and", VArr [VStr "yes"; VObj [("not", VArr [VStr "no"])]]);
                  ("or", VArr [VStr "no"; VStr " yes "]) ] in
  wellFormed t = true
  /\ exists st', matchesFilter Demo.oracleEvaluation t "base filters" initialState
                 = (Ok true, st') /\ True.
Proof.
  intros t. split; [reflexivity|].
  refine (proj1 (C1_filter_algebra Demo.oracleEvaluation (fun e => String.eqb e "yes")
                   (fun _ => True) t "base filters" initialState) eq_refl _ I).
  intros literal label st _ _ _. eexists; eexists. repeat split.
Defined.

(** The algebra on a note of the test vault, run through the evaluator:
    the status is [archived] and nothing in the [not] group holds. *)
Example filter_on_archived_note :
  fst (matchesFilter (Demo.evaluationOf [("status", VStr "archived")] [])
         (VObj [ ("and", VArr [VStr "note.status == 'archived'"]);
                 ("not", VArr [VStr "false"; VStr "  "]) ])
         "base filters" initialState)
  = Ok true.
Proof. vm_compute. reflexivity. Qed.

(** ** Global functions *)

Import GlobalFunctions.

(** C6, as stated, fails on ["3px"]: [parseFloat] reads the prefix [3],
    while [number] converts the whole string and raises. *)
Lemma C6_counterexample_number_3px :
  Js.parseFloat (Js.trim "3px") = 3%float
  /\ normalizeNumber (VStr "3px")
     = Throw (Error ("Unable to parse number from " +:+ Duration.quote "3px" +:+ ".")).
Proof. split; vm_compute; reflexivity. Qed.

(** C6 (amended). For a string [s], [number(s)] is [Number] applied to
    [s.trim()], the conversion of the whole string; it raises exactly when
    [s] trims to the empty string or that number is not finite (NaN or an
    infinity). [number(null)] and [number(undefined)] raise. *)
Theorem C6_number_of_string (s : string) :
  (forall n, normalizeNumber (VStr s) = Ok n <->
             Js.trim s <> "" /\ n = Js.StringToNumber (Js.trim s) /\ Js.isFinite n = true)
  /\ ((exists e, normalizeNumber (VStr s) = Throw e) <->
      Js.trim s = "" \/ Js.isFinite (Js.StringToNumber (Js.trim s)) = false)
  /\ normalizeNumber VNull = Throw (Error "number() cannot convert null or undefined.")
  /\ normalizeNumber VUndefined = Throw (Error "number() cannot convert null or undefined.").
Proof.
  pose proof (length_zero_empty (Js.trim s)) as Hlen.
  unfold normalizeNumber.
  destruct (String.length (Js.trim s) =? 0)%nat eqn:E.
  - assert (He : Js.trim s = "") by (apply Hlen; reflexivity).
    split; [|split; [|split; reflexivity]].
    + intros n; split; [discriminate | intros (Hne & _); contradiction].
    + split; [intros _; left; exact He | intros _; eauto].
  - assert (Hne : Js.trim s <> "") by (intros Heq; apply Hlen in Heq; discriminate).
    destruct (Js.isFinite (Js.StringToNumber (Js.trim s))) eqn:F; simpl.
    + split; [|split; [|split; reflexivity]].
      * intros n; split.
        { intros [= <-]. auto. }
        { intros (_ & -> & _). reflexivity. }
      * split.
        { intros [e He]. discriminate. }
        { intros [Heq | Hinf]; [contradiction | discriminate]. }
    + split; [|split; [|split; reflexivity]].
      * intros n; split.
        { discriminate. }
        { intros (_ & -> & Hfin). congruence. }
      * split; [intros _; right; reflexivity | intros _; eauto].
Qed.

Example number_of_decimal : normalizeNumber (VStr " 42.5 ") = Ok 42.5%float.
Proof. vm_compute. reflexivity. Qed.

Example number_of_empty :
  normalizeNumber (VStr "") = Throw (Error "number() cannot parse an empty string.").
Proof. reflexivity. Qed.

Example number_of_infinity_raises :
  exists e, normalizeNumber (VStr "Infinity") = Throw e.
Proof.
  eexists. vm_compute. reflexivity.
Qed.

(** ** Durations *)

Import Duration.

(** C7, at the failing input: the word [min] is not read as a unit. Under
    the [i] flag the alternative [M], which stands before [minutes?],
    [mins?], [min] and [m], matches the letter [m]; the match ends there and
    the rest of the word is reported as trailing content. *)
Theorem C7_minute_words_rejected :
  parseDuration "5 min"
  = Throw (Error ("Invalid trailing content " +:+ quote "in"
                  +:+ " in " +:+ quote "5 min" +:+ "."))
  /\ mapGet DURATION_UNIT_MULTIPLIERS "min" = Some 60000%float.
Proof. split; vm_compute; reflexivity. Qed.

Example minute_words_all_rejected :
  forall w, In w ["1 min"; "1 mins"; "1 minute"; "1 minutes"; "2 MINUTES"] ->
            exists e, parseDuration w = Throw e.
Proof.
  intros w H. simpl in H.
  repeat (destruct H as [<- | H]; [vm_compute; eexists; reflexivity|]).
  contradiction.
Qed.

Example duration_single_letters :
  parseDuration "5m" = Ok 300000%float
  /\ parseDuration "5M" = Ok 12960000000%float
  /\ parseDuration "2h 30m" = Ok 9000000%float
  /\ parseDuration "3 MONTHS" = Ok 7776000000%float
  /\ parseDuration "2 Days 4 SEC" = Ok 172804000%float.
Proof. repeat split; vm_compute; reflexivity. Qed.

(** ** Date arithmetic *)

Import ScopeSpec.




(** The scenario through the evaluator: the expression of the unit test,
    with the string literals in single quotes. *)
Example date_minus_one_week :
  fst ((do v <- evaluate_ (Demo.evaluationOf [] [])
                  "date('2024-01-08T00:00:00Z') - '1 week'" "test expression";
        lift (formatValue v)) initialState)
  = Ok "2024-01-01T00:00:00.000Z".
Proof. vm_compute. reflexivity. Qed.

(** ** Scope construction *)

Lemma setIfAbsent_lookup k v (m : gmap string value) k' :
  setIfAbsent k v m !! k'
  = match m !! k' with
    | Some x => Some x
    | None => if String.eqb k k' then Some v else None
    end.
Proof.
  unfold setIfAbsent. destruct (String.eqb_spec k k') as [->|Hne].
  - destruct (m !! k') eqn:E; [rewrite E; reflexivity|]. apply lookup_insert_eq.
  - destruct (m !! k) eqn:E; [destruct (m !! k'); reflexivity|].
    rewrite lookup_insert_ne by exact Hne. destruct (m !! k'); reflexivity.
Qed.

Lemma fold_addBuiltin_lookup entries (m : gmap string value) k :
  fold_left addBuiltin entries m !! k
  = match m !! k with
    | Some x => Some x
    | None => objGet entries k
    end.
Proof.
  revert m. induction entries as [|[k0 v0] r IH]; intros m; simpl.
  - destruct (m !! k); reflexivity.
  - rewrite IH. unfold addBuiltin. simpl. rewrite setIfAbsent_lookup.
    destruct (m !! k); [reflexivity|]. destruct (String.eqb k0 k); reflexivity.
Qed.

Lemma addGlobal_expand (m : gmap string value) entry :
  addGlobal m entry
  = fold_left addBuiltin
      (entry :: match objGet Rewrite.GLOBAL_FUNCTION_ALIASES (fst entry) with
                | Some alias => [(alias, snd entry)]
                | None => []
                end) m.
Proof.
  destruct entry as [k v]. unfold addGlobal. cbn [fst snd].
  destruct (objGet Rewrite.GLOBAL_FUNCTION_ALIASES k); reflexivity.
Qed.

Lemma fold_addGlobal_expand entries (m : gmap string value) :
  fold_left addGlobal entries m
  = fold_left addBuiltin
      (flat_map (fun entry =>
                   entry :: match objGet Rewrite.GLOBAL_FUNCTION_ALIASES (fst entry) with
                            | Some alias => [(alias, snd entry)]
                            | None => []
                            end) entries) m.
Proof.
  revert m. induction entries as [|e r IH]; intros m; [reflexivity|].
  cbn [fold_left flat_map]. rewrite fold_left_app, <- addGlobal_expand. apply IH.
Qed.

Lemma promote_lookup (m : gmap string value) entry k :
  promote m entry !! k
  = match m !! k with
    | Some x => Some x
    | None =>
        if String.eqb (fst entry) k && isValidIdentifier k
           && negb (memString k globalFunctionKeys)
        then Some (snd entry) else None
    end.
Proof.
  destruct entry as [k0 v0]. unfold promote, hasScopeIdentifier. cbn [fst snd].
  destruct (String.eqb_spec k0 k) as [->|Hne].
  - destruct (m !! k) eqn:E.
    + rewrite bool_decide_eq_true_2 by eauto. cbn [negb andb]. exact E.
    + rewrite bool_decide_eq_false_2 by (intros [x Hx]; discriminate). cbn [negb andb].
      destruct (isValidIdentifier k); cbn [andb]; [|exact E].
      destruct (negb (memString k globalFunctionKeys)); [apply lookup_insert_eq | exact E].
  - cbn [andb].
    destruct (negb _ && _ && _);
      [rewrite lookup_insert_ne by exact Hne|]; destruct (m !! k); reflexivity.
Qed.

Lemma fold_promote_lookup note (m : gmap string value) k :
  fold_left promote note m !! k
  = match m !! k with
    | Some x => Some x
    | None =>
        if isValidIdentifier k && negb (memString k globalFunctionKeys)
        then objGet note k else None
    end.
Proof.
  revert m. induction note as [|[k0 v0] r IH]; intros m; cbn [fold_left objGet].
  - destruct (m !! k); [reflexivity|]. destruct (_ && _); reflexivity.
  - rewrite IH, promote_lookup. cbn [fst snd].
    destruct (m !! k); [reflexivity|].
    destruct (String.eqb k0 k); cbn [andb]; [|reflexivity].
    destruct (isValidIdentifier k && negb (memString k globalFunctionKeys)); reflexivity.
Qed.

Lemma base_lookup file k :
  (<["properties" := VObj (default [] (Vault.properties file))]>
     (<["note" := VObj (default [] (Vault.frontmatter file))]>
        (<["metadata" := VObj (default [] (Vault.metadata file))]>
           (<["frontmatter" := VObj (default [] (Vault.frontmatter file))]>
              (<["file" := VFile]> (∅ : gmap string value)))))) !! k
  = objGet (baseEntries file) k.
Proof.
  unfold baseEntries. cbn [objGet].
  destruct (String.eqb_spec "file" k) as [<-|H1];
    [rewrite !lookup_insert_ne by discriminate; apply lookup_insert_eq|].
  destruct (String.eqb_spec "frontmatter" k) as [<-|H2];
    [rewrite !lookup_insert_ne by discriminate; apply lookup_insert_eq|].
  destruct (String.eqb_spec "metadata" k) as [<-|H3];
    [rewrite !lookup_insert_ne by discriminate; apply lookup_insert_eq|].
  destruct (String.eqb_spec "note" k) as [<-|H4];
    [rewrite !lookup_insert_ne by discriminate; apply lookup_insert_eq|].
  destruct (String.eqb_spec "properties" k) as [<-|H5]; [apply lookup_insert_eq|].
  rewrite !lookup_insert_ne by assumption. apply lookup_empty.
Qed.

(** C5 (amended). The scope binds [formula] to the proxy, whatever else
    carries that name; every other identifier resolves to its first binding
    in the order: (1) file, frontmatter, metadata, note, properties; (2) the
    promoted frontmatter identifiers (valid, not reserved, not the name of a
    global function); (3) the global functions and their aliases; (4) the
    built-in namespaces. So a frontmatter key that equals a built-in
    namespace name is promoted and the identifier resolves to the
    frontmatter value, while the name of a global function never resolves
    to a frontmatter value. *)
Theorem C5_scope_precedence (file : Vault.VaultFile) (key : string) :
  buildScope file !! key = scopeBinding file key
  /\ (forall builtin v,
         objGet BUILTIN_SCOPE_ENTRIES key = Some builtin ->
         objGet (default [] (Vault.frontmatter file)) key = Some v ->
         buildScope file !! key = Some v)
  /\ (In key GLOBAL_FUNCTION_NAMES -> key <> "file" ->
      buildScope file !! key = Some (VFun (GlobalFn key))).
Proof.
  assert (Hlookup : forall k, buildScope file !! k = scopeBinding file k).
  { intros k. unfold buildScope, scopeBinding.
    destruct (String.eqb_spec k "formula") as [->|Hne]; [apply lookup_insert_eq|].
    rewrite lookup_insert_ne by congruence.
    rewrite fold_addBuiltin_lookup, fold_addGlobal_expand, fold_addBuiltin_lookup,
      fold_promote_lookup, base_lookup.
    unfold promotedEntry, globalsWithAliases. cbn [firstSome].
    destruct (objGet (baseEntries file) k); [reflexivity|].
    destruct (isValidIdentifier k && negb (memString k globalFunctionKeys)).
    - destruct (objGet (default [] (Vault.frontmatter file)) k); [reflexivity|].
      destruct (objGet (flat_map _ _) k); [reflexivity|].
      destruct (objGet BUILTIN_SCOPE_ENTRIES k); reflexivity.
    - destruct (objGet (flat_map _ _) k); [reflexivity|].
      destruct (objGet BUILTIN_SCOPE_ENTRIES k); reflexivity. }
  assert (Hpromoted : forall k v,
             k <> "formula" ->
             objGet (baseEntries file) k = None ->
             isValidIdentifier k && negb (memString k globalFunctionKeys) = true ->
             objGet (default [] (Vault.frontmatter file)) k = Some v ->
             buildScope file !! k = Some v).
  { intros k v Hne Hbase Hok Hv. rewrite Hlookup. unfold scopeBinding.
    rewrite (proj2 (String.eqb_neq _ _) Hne). cbn [firstSome].
    rewrite Hbase. unfold promotedEntry. rewrite Hok, Hv. reflexivity. }
  split; [apply Hlookup|]. split.
  - intros builtin v Hb Hv. apply objGet_In in Hb. unfold BUILTIN_SCOPE_ENTRIES in Hb.
    cbn [In] in Hb.
    repeat (destruct Hb as [Hb|Hb];
            [injection Hb as <- <-;
             apply Hpromoted;
             [discriminate | reflexivity | vm_compute; reflexivity | exact Hv]|]).
    contradiction.
  - intros Hin Hne. rewrite Hlookup. simpl in Hin.
    repeat (destruct Hin as [<-|Hin]; [try reflexivity; congruence|]).
    contradiction.
Qed.

Lemma C5_scope_precedence_witness :
  objGet BUILTIN_SCOPE_ENTRIES "Date" = Some (VFun (HostFn "Date"))
  /\ buildScope (Demo.createTestFile [("Date", VStr "tomorrow")]) !! "Date"
     = Some (VStr "tomorrow")
  /\ buildScope (Demo.createTestFile [("date", VStr "tomorrow")]) !! "date"
     = Some (VFun (GlobalFn "date")).
Proof.
  split; [reflexivity|]. split.
  - apply (proj1 (proj2 (C5_scope_precedence
                           (Demo.createTestFile [("Date", VStr "tomorrow")]) "Date"))
             (VFun (HostFn "Date")) (VStr "tomorrow")); reflexivity.
  - apply (proj2 (proj2 (C5_scope_precedence
                           (Demo.createTestFile [("date", VStr "tomorrow")]) "date")));
      [simpl; tauto | discriminate].
Defined.

(** C5, as stated, fails on a frontmatter key [Math]: the key is promoted
    and the identifier resolves to the frontmatter value. *)
Lemma C5_counterexample_frontmatter_Math :
  buildScope (Demo.createTestFile [("Math", VStr "mine")]) !! "Math" = Some (VStr "mine")
  /\ fst (evaluate_ (Demo.evaluationOf [("Math", VStr "mine")] []) "Math" "property"
            initialState)
     = Ok (VStr "mine")
  /\ objGet BUILTIN_SCOPE_ENTRIES "Math" = Some (VHostObject "Math").
Proof. repeat split; vm_compute; reflexivity. Qed.

Lemma evaluateIdentifier_bound (scope : gmap string value) name v st :
  scope !! name = Some v -> evaluateIdentifier scope name st = (Ok v, st).
Proof. intros H. unfold evaluateIdentifier. rewrite H. reflexivity. Qed.

(** ** The formula proxy *)

Import ProxySpec.

Lemma expr_nested_ind (P : expr -> Prop) :
  (forall elements,
      Forall (fun o => match o with Some e => P e | None => True end) elements ->
      P (ArrayExpression elements)) ->
  (forall op l r, P l -> P r -> P (BinaryExpression op l r)) ->
  (forall callee args, P callee -> Forall P args -> P (CallExpression callee args)) ->
  (forall body, Forall P body -> P (Compound body)) ->
  (forall t c a, P t -> P c -> P a -> P (ConditionalExpression t c a)) ->
  (forall n, P (Identifier n)) ->
  (forall v, P (Literal v)) ->
  (forall c o p, P o -> P p -> P (MemberExpression c o p)) ->
  (forall es, Forall P es -> P (SequenceExpression es)) ->
  P ThisExpression ->
  (forall op a, P a -> P (UnaryExpression op a)) ->
  (forall t, P (OtherNode t)) ->
  forall e, P e.
Proof.
  intros Harr Hbin Hcall Hcomp Hcond Hid Hlit Hmem Hseq Hthis Hun Hother.
  fix IH 1. intros [ elements | op l r | callee args | body | t c a | n | v
                   | c o p | es | | op a | t ].
  - apply Harr. induction elements as [|[e|] r IHr]; constructor;
      [apply IH | exact IHr | exact I | exact IHr].
  - apply Hbin; apply IH.
  - apply Hcall; [apply IH|].
    induction args as [|x r IHr]; constructor; [apply IH | exact IHr].
  - apply Hcomp. induction body as [|x r IHr]; constructor; [apply IH | exact IHr].
  - apply Hcond; apply IH.
  - apply Hid.
  - apply Hlit.
  - apply Hmem; apply IH.
  - apply Hseq. induction es as [|x r IHr]; constructor; [apply IH | exact IHr].
  - exact Hthis.
  - apply Hun; apply IH.
  - apply Hother.
Qed.

Section SimFacts.
Variable defs : list (string * value).
Variable W : gset string -> Prop.

Lemma Step_refl st : Step st st.
Proof.
  split; [reflexivity|]. split; [auto|]. exists []. symmetry. apply app_nil_r.
Qed.

Lemma Step_trans a b c : Step a b -> Step b c -> Step a c.
Proof.
  intros (E1 & C1 & [m1 L1]) (E2 & C2 & [m2 L2]). split; [congruence|]. split.
  - intros k v H. apply C2, C1, H.
  - exists (m1 ++ m2). rewrite L2, L1. symmetry. apply app_assoc.
Qed.

Lemma Sim_lift {A} (o : outcome A) : Sim defs W (lift o) (lift o).
Proof.
  intros st HI HW. unfold lift. simpl.
  split; [reflexivity|]. split; [exact HI|]. split; [apply Step_refl|].
  intros HR _. exact HR.
Qed.

Lemma Sim_ret {A} (a : A) : Sim defs W (ret a) (ret a).
Proof. exact (Sim_lift (Ok a)). Qed.

Lemma Sim_throw {A} (e : error) : Sim defs W (@throw A e) (throw e).
Proof. exact (Sim_lift (Throw e)). Qed.

Lemma Sim_bind {A B} (m1 m2 : M A) (k1 k2 : A -> M B) :
  Sim defs W m1 m2 -> (forall a, Sim defs W (k1 a) (k2 a)) ->
  Sim defs W (bind m1 k1) (bind m2 k2).
Proof.
  intros Hm Hk st HI HW. destruct (Hm st HI HW) as (E & I1 & S1 & R1).
  unfold bind. rewrite <- E. destruct (m1 st) as [r st1]. simpl in I1, S1, R1.
  destruct r as [a| e | w |]; simpl;
    try (split; [reflexivity|]; split; [exact I1|]; split; [exact S1|];
         intros _ Hok; discriminate Hok).
  assert (HW1 : W (evaluating st1)) by (destruct S1 as [-> _]; exact HW).
  destruct (Hk a st1 I1 HW1) as (E2 & I2 & S2 & R2).
  split; [exact E2|]. split; [exact I2|]. split; [exact (Step_trans _ _ _ S1 S2)|].
  intros HR Hok. apply R2; [apply R1; [exact HR | reflexivity] | exact Hok].
Qed.

Lemma Sim_catch_rethrow {A} (m1 m2 : M A) (wrap : error -> error) :
  Sim defs W m1 m2 ->
  Sim defs W (catch m1 (fun e => throw (wrap e))) (catch m2 (fun e => throw (wrap e))).
Proof.
  intros Hm st HI HW. destruct (Hm st HI HW) as (E & I1 & S1 & R1).
  unfold catch. rewrite <- E. destruct (m1 st) as [r st1]. simpl in I1, S1, R1.
  destruct r; simpl;
    (split; [reflexivity|]; split; [exact I1|]; split; [exact S1|]);
    try (intros _ Hok; discriminate Hok).
  exact R1.
Qed.

Lemma Sim_compiled jsep normalized :
  Sim defs W (compiled jsep normalized) (compiled jsep normalized).
Proof.
  intros st HI HW. unfold compiled.
  assert (Hsame : forall c,
             Inv defs (setCompiled normalized c st)
             /\ Step st (setCompiled normalized c st)
             /\ (Ran st -> Ran (setCompiled normalized c st))).
  { intros c. split; [exact HI|]. split; [|intros HR; exact HR].
    split; [reflexivity|]. split; [auto|]. exists []. symmetry. apply app_nil_r. }
  destruct (compiledExpressions st !! normalized).
  - simpl. split; [reflexivity|]. split; [exact HI|]. split; [apply Step_refl|].
    intros HR _. exact HR.
  - destruct (compileExpression jsep normalized) as [c| e | w |]; simpl;
      try (split; [reflexivity|]; split; [exact HI|]; split; [apply Step_refl|];
           intros HR _; exact HR).
    destruct (Hsame c) as (I1 & S1 & R1).
    split; [reflexivity|]. split; [exact I1|]. split; [exact S1|].
    intros HR _. apply R1, HR.
Qed.

Section Node.
Variable file : Vault.VaultFile.
Variable scope : gmap string value.
Variables get1 get2 : string -> M value.
Hypothesis Hget : forall key, Sim defs W (get1 key) (get2 key).

Lemma Sim_reflectGet target key :
  Sim defs W (reflectGet file get1 target key) (reflectGet file get2 target key).
Proof.
  destruct target; simpl; try apply Sim_lift; try apply Hget.
  destruct f; apply Sim_lift.
Qed.

Lemma Sim_readMember objectValue key :
  Sim defs W (readMember file get1 objectValue key) (readMember file get2 objectValue key).
Proof.
  unfold readMember. apply Sim_bind; [apply Sim_lift|]. intros a. apply Sim_reflectGet.
Qed.

Lemma Sim_applyFunction f args :
  Sim defs W (applyFunction file get1 f args) (applyFunction file get2 f args).
Proof.
  destruct f; simpl; try apply Sim_lift; try apply Sim_ret.
  destruct (String.eqb name "Reflect.get").
  - destruct (isObjectLike _); [|apply Sim_throw].
    apply Sim_bind; [apply Sim_lift|]. intros key. apply Sim_reflectGet.
  - destruct (String.eqb name "Array.isArray"); [apply Sim_ret | apply Sim_lift].
Qed.

Local Abbreviation nodeSim := (ProxySpec.nodeSim defs W file scope get1 get2).
Local Abbreviation nodeSimDeep := (ProxySpec.nodeSimDeep defs W file scope get1 get2).

Lemma Sim_elements elements :
  Forall (fun o => match o with Some e => nodeSim e | None => True end) elements ->
  Sim defs W (evaluateElements (evaluateExpressionNode file scope defs get1) elements) (evaluateElements (evaluateExpressionNode file scope defs get2) elements).
Proof.
  induction 1 as [|[e|] r He _ IH]; simpl.
  - apply Sim_ret.
  - apply Sim_bind; [exact He|]. intros v.
    apply Sim_bind; [exact IH|]. intros rest. apply Sim_ret.
  - apply Sim_bind; [exact IH|]. intros rest. apply Sim_ret.
Qed.

Lemma Sim_arguments args :
  Forall nodeSim args ->
  Sim defs W (evaluateArguments (evaluateExpressionNode file scope defs get1) args) (evaluateArguments (evaluateExpressionNode file scope defs get2) args).
Proof.
  induction 1 as [|e r He _ IH]; simpl; [apply Sim_ret|].
  apply Sim_bind; [exact He|]. intros v.
  apply Sim_bind; [exact IH|]. intros rest. apply Sim_ret.
Qed.

Lemma Sim_inOrder entries :
  Forall nodeSim entries ->
  forall last, Sim defs W (evaluateInOrder (evaluateExpressionNode file scope defs get1) entries last)
                   (evaluateInOrder (evaluateExpressionNode file scope defs get2) entries last).
Proof.
  induction 1 as [|e r He _ IH]; intros last; simpl; [apply Sim_ret|].
  apply Sim_bind; [exact He|]. intros v. apply IH.
Qed.

Lemma Sim_member computed object property :
  nodeSim object -> nodeSim property ->
  Sim defs W (evaluateMember file get1 (evaluateExpressionNode file scope defs get1) computed object property)
      (evaluateMember file get2 (evaluateExpressionNode file scope defs get2) computed object property).
Proof.
  intros Ho Hp. unfold evaluateMember.
  apply Sim_bind; [exact Ho|]. intros objectValue.
  apply Sim_bind; [|intros key; apply Sim_readMember].
  destruct computed.
  - apply Sim_bind; [exact Hp|]. intros p. apply Sim_lift.
  - destruct property; apply Sim_lift.
Qed.

Lemma Sim_node_deep e : nodeSimDeep e.
Proof.
  induction e using expr_nested_ind; (split; [|try exact I]); unfold nodeSim; simpl.
  - apply Sim_bind; [|intros items; apply Sim_ret].
    apply Sim_elements. eapply Forall_impl; [exact H|].
    intros [e|]; [intros [He _]; exact He | trivial].
  - destruct IHe1 as [H1 _], IHe2 as [H2 _].
    destruct (String.eqb op "&&").
    { apply Sim_bind; [exact H1|]. intros l.
      destruct (negb (toBoolean l)); [apply Sim_ret | exact H2]. }
    destruct (String.eqb op "||").
    { apply Sim_bind; [exact H1|]. intros l.
      destruct (toBoolean l); [apply Sim_ret | exact H2]. }
    destruct (String.eqb op "??").
    { apply Sim_bind; [exact H1|]. intros l.
      destruct l; try apply Sim_ret; exact H2. }
    apply Sim_bind; [exact H1|]. intros l.
    apply Sim_bind; [exact H2|]. intros r. apply Sim_lift.
  - apply Sim_bind.
    + destruct IHe as [Hc _]. destruct e; exact Hc.
    + intros callable. destruct callable; try apply Sim_throw.
      apply Sim_bind; [|intros args'; apply Sim_applyFunction].
      apply Sim_arguments. eapply Forall_impl; [exact H|].
      intros a [Ha _]. exact Ha.
  - apply Sim_inOrder. eapply Forall_impl; [exact H|]. intros a [Ha _]. exact Ha.
  - destruct IHe1 as [H1 _], IHe2 as [H2 _], IHe3 as [H3 _].
    apply Sim_bind; [exact H1|]. intros t.
    destruct (toBoolean t); assumption.
  - unfold evaluateIdentifier. destruct (scope !! n); [apply Sim_ret | apply Sim_throw].
  - unfold evaluateLiteral. destruct v; try apply Sim_ret. apply Sim_lift.
  - destruct IHe1 as [H1 _], IHe2 as [H2 _]. apply Sim_member; assumption.
  - destruct IHe1 as [H1 _], IHe2 as [H2 _]. split; assumption.
  - apply Sim_inOrder. eapply Forall_impl; [exact H|]. intros a [Ha _]. exact Ha.
  - destruct (scope !! "this"); apply Sim_ret.
  - destruct IHe as [Ha _].
    destruct (match e with
              | Identifier name =>
                  String.eqb op "typeof" && negb (hasScopeIdentifier scope name)
              | _ => false
              end); [apply Sim_ret|].
    apply Sim_bind; [exact Ha|]. intros a. apply Sim_lift.
  - apply Sim_throw.
Qed.

Lemma Sim_node e : Sim defs W (evaluateExpressionNode file scope defs get1 e) (evaluateExpressionNode file scope defs get2 e).
Proof. apply Sim_node_deep. Qed.

Lemma Sim_evaluate jsep expression label :
  Sim defs W (evaluate jsep file scope defs get1 expression label)
      (evaluate jsep file scope defs get2 expression label).
Proof.
  unfold evaluate. destruct (String.length (Js.trim expression) =? 0)%nat;
    [apply Sim_ret|].
  apply Sim_bind; [apply Sim_compiled|]. intros c.
  apply Sim_catch_rethrow, Sim_node.
Qed.
End Node.
End SimFacts.

Section TrapFacts.
Variable defs : list (string * value).

Lemma Inv_addEvaluating st k :
  Inv defs st -> formulaCache st !! k = None -> hasOwn defs k = true ->
  Inv defs (addEvaluating k st).
Proof.
  intros HI Hc Hd x Hx. simpl in *. apply elem_of_union in Hx as [Hx|Hx].
  - apply elem_of_singleton in Hx. subst. split; assumption.
  - apply HI, Hx.
Qed.

Lemma Ran_addEvaluating st k :
  Ran st -> formulaCache st !! k = None -> k ∉ evaluating st ->
  Ran (addEvaluating k st).
Proof.
  intros [Hnd Hin] Hc Hk. split; simpl.
  - apply List.NoDup_app; [exact Hnd | repeat constructor; intros [] |].
    intros a Ha [Heq|[]]. subst a.
    destruct (Hin k Ha) as [H|[v H]]; [contradiction|congruence].
  - intros x Hx. apply in_app_or in Hx as [Hx|[<-|[]]].
    + destruct (Hin x Hx) as [H|H]; [left; set_solver | right; exact H].
    + left. set_solver.
Qed.

(** The state after the body of [k], started in [addEvaluating k st], has
    been evaluated to [st2] and [k] is unmarked, with or without a value
    stored. *)
Lemma after_body st k st2 (store : option value) :
  Inv defs st -> formulaCache st !! k = None -> k ∉ evaluating st ->
  Inv defs st2 -> Step (addEvaluating k st) st2 ->
  let final := deleteEvaluating k
                 match store with Some v => setCache k v st2 | None => st2 end in
  Inv defs final /\ Step st final
  /\ (Ran st2 -> is_Some store -> Ran final).
Proof.
  intros HI Hc Hk HI2 (Hev & Hcache & [more Hlog]). simpl in Hev, Hcache, Hlog.
  assert (Hk2 : formulaCache st2 !! k = None) by (apply HI2; rewrite Hev; set_solver).
  destruct store as [v|]; simpl.
  - split; [|split].
    + intros x Hx. simpl in Hx. apply elem_of_difference in Hx as [Hx Hne].
      destruct (HI2 x Hx) as [Hcx Hdx]. split; [|exact Hdx]. simpl.
      rewrite lookup_insert_ne; [exact Hcx | set_solver].
    + split; [|split]; simpl.
      * rewrite Hev. set_solver.
      * intros x v' Hx. assert (x <> k) by congruence.
        rewrite lookup_insert_ne by congruence. apply Hcache, Hx.
      * exists ([k] ++ more). rewrite Hlog, <- app_assoc. reflexivity.
    + intros [Hnd Hin] _. split; simpl; [exact Hnd|].
      intros x Hx. destruct (String.eqb_spec x k) as [->|Hne].
      * right. rewrite lookup_insert_eq. eauto.
      * destruct (Hin x Hx) as [H|[v' H]].
        { left. set_solver. }
        { right. rewrite lookup_insert_ne by congruence. eauto. }
  - split; [|split].
    + intros x Hx. simpl in Hx. apply elem_of_difference in Hx as [Hx Hne].
      apply HI2, Hx.
    + split; [|split]; simpl.
      * rewrite Hev. set_solver.
      * intros x v' Hx. apply Hcache, Hx.
      * exists ([k] ++ more). rewrite Hlog, <- app_assoc. reflexivity.
    + intros _ [v Hv]. discriminate Hv.
Qed.

(** The trap over two closures that are in simulation from the states the
    trap starts a body in; where the trap starts no body the closures may be
    any. *)
Lemma Sim_formulaGetWith_into (W0 W1 : gset string -> Prop) ev1 ev2 key :
  (forall E, W0 E -> hasOwn defs key = true -> key ∉ E ->
             W1 ({[key]} ∪ E) /\ closuresSim defs W1 ev1 ev2) ->
  Sim defs W0 (formulaGetWith defs ev1 key) (formulaGetWith defs ev2 key).
Proof.
  intros Hev st HI HW. unfold formulaGetWith.
  assert (Hstay : forall (r : outcome value),
             (r, st) = (r, st) /\ Inv defs (snd (r, st)) /\ Step st (snd (r, st))
             /\ (Ran st -> isOk (fst (r, st)) = true -> Ran (snd (r, st)))).
  { intros r. split; [reflexivity|]. split; [exact HI|]. split; [apply Step_refl|].
    intros HR _. exact HR. }
  destruct (formulaCache st !! key) eqn:Hc; [apply Hstay|].
  destruct (hasOwn defs key) eqn:Hd; simpl negb; cbv iota; [|apply Hstay].
  destruct (bool_decide (key ∈ evaluating st)) eqn:Hk; [apply Hstay|].
  apply bool_decide_eq_false in Hk.
  assert (Hblank : (Ok VUndefined, setCache key VUndefined st)
                   = (Ok VUndefined, setCache key VUndefined st)
                   /\ Inv defs (setCache key VUndefined st)
                   /\ Step st (setCache key VUndefined st)
                   /\ (Ran st -> isOk (Ok VUndefined) = true
                       -> Ran (setCache key VUndefined st))).
  { split; [reflexivity|]. split; [|split].
    - intros x Hx. destruct (HI x Hx) as [Hcx Hdx]. split; [|exact Hdx]. simpl.
      rewrite lookup_insert_ne; [exact Hcx | intros <-; contradiction].
    - split; [reflexivity|]. split; [|exists []; symmetry; apply app_nil_r].
      intros x v Hx. simpl. rewrite lookup_insert_ne; [exact Hx | congruence].
    - intros [Hnd Hin] _. split; [exact Hnd|]. intros x Hx. simpl.
      destruct (Hin x Hx) as [H|[v H]]; [left; exact H | right].
      destruct (String.eqb_spec key x) as [->|Hne];
        [rewrite lookup_insert_eq | rewrite lookup_insert_ne by exact Hne]; eauto. }
  destruct (objGet defs key) as [[ | | | | | expression | | | | | | | | ]|];
    try exact Hblank.
  destruct (String.length (Js.trim expression) =? 0)%nat; [exact Hblank|].
  destruct (Hev (evaluating st) HW eq_refl Hk) as [HW1 Hsim].
  destruct ev1 as [e1|], ev2 as [e2|]; simpl in Hsim; try contradiction;
    [|apply Hstay].
  unfold finally.
  pose proof (Inv_addEvaluating st key HI Hc Hd) as HI1.
  destruct (Hsim expression ("formula " +:+ Duration.quote key) (addEvaluating key st) HI1)
    as (E & I2 & S2 & R2); [exact HW1|].
  rewrite <- E. destruct (e1 _ _ (addEvaluating key st)) as [r st2].
  simpl in I2, S2, R2.
  destruct r as [v| e | w |]; simpl.
  - destruct (after_body st key st2 (Some v) HI Hc Hk I2 S2) as (If & Sf & Rf).
    split; [reflexivity|]. split; [exact If|]. split; [exact Sf|].
    intros HR _. apply Rf; [|eauto].
    apply R2; [apply Ran_addEvaluating; assumption | reflexivity].
  - destruct (after_body st key st2 None HI Hc Hk I2 S2) as (If & Sf & _).
    split; [reflexivity|]. split; [exact If|]. split; [exact Sf|]. discriminate.
  - destruct (after_body st key st2 None HI Hc Hk I2 S2) as (If & Sf & _).
    split; [reflexivity|]. split; [exact If|]. split; [exact Sf|]. discriminate.
  - destruct (after_body st key st2 None HI Hc Hk I2 S2) as (If & Sf & _).
    split; [reflexivity|]. split; [exact If|]. split; [exact Sf|]. discriminate.
Qed.

Section Monotone.
Variable W : gset string -> Prop.
Hypothesis W_mono : forall E k, W E -> W ({[k]} ∪ E).

Lemma Sim_formulaGetWith ev1 ev2 key :
  closuresSim defs W ev1 ev2 ->
  Sim defs W (formulaGetWith defs ev1 key) (formulaGetWith defs ev2 key).
Proof.
  intros Hev. apply (Sim_formulaGetWith_into W W). intros E HW _ _.
  split; [apply W_mono, HW | exact Hev].
Qed.

Section KnotFacts.
Variable jsep : string -> expr + error.
Variable file : Vault.VaultFile.
Variable scope : gmap string value.

Lemma Sim_formulaGet fuel key :
  Sim defs W (formulaGet jsep file scope defs fuel key)
      (formulaGet jsep file scope defs fuel key).
Proof.
  revert key. induction fuel as [|fuel IH]; intros key; simpl;
    apply Sim_formulaGetWith; simpl; [exact I|].
  intros expression label. apply Sim_evaluate. exact IH.
Qed.

Lemma Sim_evaluateWithFuel fuel expression label :
  Sim defs W (evaluateWithFuel jsep file scope defs fuel expression label)
      (evaluateWithFuel jsep file scope defs fuel expression label).
Proof. apply Sim_evaluate, Sim_formulaGet. Qed.
End KnotFacts.
End Monotone.
End TrapFacts.

Section ProxyTheorems.
Variable jsep : string -> expr + error.
Variable file : Vault.VaultFile.
Variable scope : gmap string value.
Variable defs : list (string * value).

Lemma formulaGet_unfold fuel :
  formulaGet jsep file scope defs fuel
  = formulaGetWith defs
      match fuel with
      | O => None
      | S fuel' => Some (evaluate jsep file scope defs (formulaGet jsep file scope defs fuel'))
      end.
Proof. destruct fuel; reflexivity. Qed.

Lemma formulaGet_in_progress fuel X st :
  Inv defs st -> X ∈ evaluating st ->
  formulaGet jsep file scope defs fuel X st = (Throw (circularError X), st).
Proof.
  intros HI HX. rewrite formulaGet_unfold. unfold formulaGetWith.
  destruct (HI X HX) as [-> ->]. simpl negb. cbv iota.
  rewrite bool_decide_eq_true_2 by exact HX. reflexivity.
Qed.

Lemma formulaGet_during X fuel key :
  Sim defs (fun E => X ∈ E)
      (formulaGet jsep file scope defs fuel key)
      (formulaGetDuring defs jsep file scope X fuel key).
Proof.
  revert key. induction fuel as [|fuel IH]; intros key.
  - cbn [formulaGet formulaGetDuring]. unfold circularOn.
    destruct (String.eqb_spec key X) as [->|Hne].
    + intros st HI HX.
      pose proof (formulaGet_in_progress 0 X st HI HX) as E.
      cbn [formulaGet] in E. rewrite E.
      split; [reflexivity|]. split; [exact HI|]. split; [apply Step_refl|].
      intros HR _. exact HR.
    + apply Sim_formulaGetWith; [intros E k HE; set_solver | exact I].
  - cbn [formulaGet formulaGetDuring]. unfold circularOn.
    destruct (String.eqb_spec key X) as [->|Hne].
    + intros st HI HX.
      pose proof (formulaGet_in_progress (S fuel) X st HI HX) as E.
      cbn [formulaGet] in E. rewrite E.
      split; [reflexivity|]. split; [exact HI|]. split; [apply Step_refl|].
      intros HR _. exact HR.
    + apply Sim_formulaGetWith; [intros E k HE; set_solver|].
      intros expression label. apply Sim_evaluate. exact IH.
Qed.

(** The body of a formula is evaluated in a state in which the formula is
    marked as being evaluated. *)
Lemma formulaGet_marks_body fuel k expression st :
  formulaCache st !! k = None -> k ∉ evaluating st ->
  objGet defs k = Some (VStr expression) ->
  (String.length (Js.trim expression) =? 0)%nat = false ->
  formulaGet jsep file scope defs (S fuel) k st
  = finally
      (fun st1 =>
         match evaluateWithFuel jsep file scope defs fuel expression
                 ("formula " +:+ Duration.quote k) st1 with
         | (Ok v, st2) => (Ok v, setCache k v st2)
         | (Throw error, st2) =>
             (Throw (ErrorCause ("Failed to evaluate formula " +:+ Duration.quote k) error),
              st2)
         | other => other
         end)
      (deleteEvaluating k) (addEvaluating k st).
Proof.
  intros Hc Hk Hd Hb. cbn [formulaGet]. unfold formulaGetWith, hasOwn.
  rewrite Hc, Hd. simpl negb. cbv iota.
  rewrite bool_decide_eq_false_2 by exact Hk. rewrite Hb. reflexivity.
Qed.

(** C2. The body of a formula [X] is evaluated in a state that has [X]
    among the formulas being evaluated, over a proxy on which [X] raises
    the error [Circular formula reference detected for "X"]. In such a
    state an access of [formula.X] raises that error and leaves the state
    as it is; and whatever is evaluated from such a state, at any depth of
    nested formulas, is evaluated over the proxy that raises it on [X]. *)
Theorem C2_circular_reference_raises (X : string) (fuel : nat) (st : state) :
  Inv defs st ->
  (X ∈ evaluating st ->
   formulaGet jsep file scope defs fuel X st = (Throw (circularError X), st)
   /\ (forall expression label,
          evaluateWithFuel jsep file scope defs fuel expression label st
          = evaluate jsep file scope defs (formulaGetDuring defs jsep file scope X fuel)
              expression label st))
  /\ (forall expression,
         formulaCache st !! X = None -> X ∉ evaluating st ->
         objGet defs X = Some (VStr expression) ->
         (String.length (Js.trim expression) =? 0)%nat = false ->
         formulaGet jsep file scope defs (S fuel) X st
         = finally
             (fun st1 =>
                match evaluate jsep file scope defs
                        (formulaGetDuring defs jsep file scope X fuel) expression
                        ("formula " +:+ Duration.quote X) st1 with
                | (Ok v, st2) => (Ok v, setCache X v st2)
                | (Throw error, st2) =>
                    (Throw (ErrorCause ("Failed to evaluate formula " +:+ Duration.quote X)
                              error), st2)
                | other => other
                end)
             (deleteEvaluating X) (addEvaluating X st))
  /\ errorMessage (circularError X)
     = "Circular formula reference detected for " +:+ Duration.quote X.
Proof.
  intros HI.
  assert (Hduring : forall s expression label,
             Inv defs s -> X ∈ evaluating s ->
             evaluateWithFuel jsep file scope defs fuel expression label s
             = evaluate jsep file scope defs (formulaGetDuring defs jsep file scope X fuel)
                 expression label s).
  { intros s expression label Hs HX. unfold evaluateWithFuel.
    apply (Sim_evaluate defs (fun E => X ∈ E) file scope _ _ (formulaGet_during X fuel)
             jsep expression label s Hs HX). }
  split; [|split; [|reflexivity]].
  - intros HX. split; [apply formulaGet_in_progress; assumption|].
    intros expression label. apply Hduring; assumption.
  - intros expression Hc Hk Hd Hb.
    rewrite (formulaGet_marks_body fuel X expression st Hc Hk Hd Hb).
    unfold finally. rewrite Hduring; [reflexivity | | simpl; set_solver].
    apply Inv_addEvaluating; [exact HI | exact Hc |].
    unfold hasOwn. rewrite Hd. reflexivity.
Qed.

Lemma formulaGet_stores fuel k v st st' :
  hasOwn defs k = true ->
  formulaGet jsep file scope defs fuel k st = (Ok v, st') ->
  formulaCache st' !! k = Some v.
Proof.
  intros Hd. rewrite formulaGet_unfold. unfold formulaGetWith. rewrite Hd.
  simpl negb. cbv iota.
  destruct (formulaCache st !! k) eqn:Hc; [intros [= <- <-]; exact Hc|].
  destruct (bool_decide (k ∈ evaluating st)); [discriminate|].
  assert (Hblank : (Ok VUndefined, setCache k VUndefined st) = (Ok v, st') ->
                   formulaCache st' !! k = Some v).
  { intros [= <- <-]. apply lookup_insert_eq. }
  destruct (objGet defs k) as [[ | | | | | expression | | | | | | | | ]|];
    try exact Hblank.
  destruct (String.length (Js.trim expression) =? 0)%nat; [exact Hblank|].
  destruct fuel as [|fuel]; [discriminate|].
  unfold finally.
  destruct (evaluate _ _ _ _ _ _ _ _) as [[v'| | |] st2]; try discriminate.
  intros [= <- <-]. simpl. apply lookup_insert_eq.
Qed.

Lemma Inv_initial : Inv defs initialState.
Proof. intros k Hk. simpl in Hk. set_solver. Qed.

Lemma Ran_initial : Ran initialState.
Proof. split; [constructor | intros k []]. Qed.

(** C3 (amended). A cached value, [undefined] included, is returned as it
    is and nothing is evaluated. On a formula without a definition the
    access returns [undefined] and stores nothing; on a definition that is
    not a string or is blank it stores and returns [undefined] without
    evaluating anything. A successful access of a defined formula leaves its
    value in the memo table; cached values survive every evaluation, so
    every later access returns them; and in a successful evaluation no
    formula body is started twice. *)
Theorem C3_formula_memoized (fuel : nat) (k : string) (st : state) :
  (forall v, formulaCache st !! k = Some v ->
             formulaGet jsep file scope defs fuel k st = (Ok v, st))
  /\ (formulaCache st !! k = None -> hasOwn defs k = false ->
      formulaGet jsep file scope defs fuel k st = (Ok VUndefined, st))
  /\ (formulaCache st !! k = None -> hasOwn defs k = true -> k ∉ evaluating st ->
      hasBody defs k = false ->
      formulaGet jsep file scope defs fuel k st
      = (Ok VUndefined, setCache k VUndefined st))
  /\ (forall v st', hasOwn defs k = true ->
                    formulaGet jsep file scope defs fuel k st = (Ok v, st') ->
                    formulaCache st' !! k = Some v)
  /\ (forall v expression label,
         Inv defs st -> formulaCache st !! k = Some v ->
         let st' := snd (evaluateWithFuel jsep file scope defs fuel expression label st) in
         formulaCache st' !! k = Some v
         /\ formulaGet jsep file scope defs fuel k st' = (Ok v, st'))
  /\ (forall expression label,
         Inv defs st -> Ran st ->
         isOk (fst (evaluateWithFuel jsep file scope defs fuel expression label st)) = true ->
         Ran (snd (evaluateWithFuel jsep file scope defs fuel expression label st))).
Proof.
  assert (Hcached : forall s v, formulaCache s !! k = Some v ->
                                formulaGet jsep file scope defs fuel k s = (Ok v, s)).
  { intros s v Hc. rewrite formulaGet_unfold. unfold formulaGetWith. rewrite Hc.
    reflexivity. }
  split; [exact (Hcached st)|]. split; [|split; [|split; [|split]]].
  - intros Hc Hd. rewrite formulaGet_unfold. unfold formulaGetWith.
    rewrite Hc, Hd. reflexivity.
  - intros Hc Hd Hk Hb. rewrite formulaGet_unfold. unfold formulaGetWith.
    rewrite Hc, Hd. simpl negb. cbv iota.
    rewrite bool_decide_eq_false_2 by exact Hk. unfold hasBody in Hb.
    destruct (objGet defs k) as [[ | | | | | expression | | | | | | | | ]|];
      try reflexivity.
    apply negb_false_iff in Hb. rewrite Hb. reflexivity.
  - intros v st'. apply formulaGet_stores.
  - intros v expression label HI Hc st'.
    destruct (Sim_evaluateWithFuel defs (fun _ => True) (fun _ _ _ => I)
                jsep file scope fuel expression label st HI I)
      as (_ & _ & (_ & Hkeep & _) & _).
    assert (Hc' : formulaCache st' !! k = Some v) by (apply Hkeep, Hc).
    split; [exact Hc' | apply Hcached, Hc'].
  - intros expression label HI HR Hok.
    destruct (Sim_evaluateWithFuel defs (fun _ => True) (fun _ _ _ => I)
                jsep file scope fuel expression label st HI I)
      as (_ & _ & _ & Hran).
    apply Hran; assumption.
Qed.
End ProxyTheorems.

(** ** The recursion fuel *)
Section FuelFacts.
Variable jsep : string -> expr + error.
Variable file : Vault.VaultFile.
Variable scope : gmap string value.
Variable defs : list (string * value).

Lemma hasOwn_defined k :
  hasOwn defs k = true -> k ∈ (list_to_set (keys defs) : gset string).
Proof.
  unfold hasOwn. destruct (objGet defs k) as [v|] eqn:E; [|discriminate].
  intros _. apply objGet_In in E. apply elem_of_list_to_set, list_elem_of_In.
  unfold keys. apply in_map_iff. exists (k, v). split; [reflexivity | exact E].
Qed.

Lemma fuelCovers_next fuel (E : gset string) k :
  fuelCovers defs (S fuel) E -> hasOwn defs k = true -> k ∉ E ->
  fuelCovers defs fuel ({[k]} ∪ E).
Proof.
  unfold fuelCovers. intros H Hd Hk. apply hasOwn_defined in Hd.
  assert (Hlt : (size ((list_to_set (keys defs) : gset string) ∖ ({[k]} ∪ E))
                 < size ((list_to_set (keys defs) : gset string) ∖ E))%nat).
  { apply subset_size. set_solver. }
  lia.
Qed.

Lemma fuelCovers_none (E : gset string) k :
  fuelCovers defs 0 E -> hasOwn defs k = true -> k ∉ E -> False.
Proof.
  unfold fuelCovers. intros H Hd Hk. apply hasOwn_defined in Hd.
  assert (H0 : size ((list_to_set (keys defs) : gset string) ∖ E) = 0%nat) by lia.
  apply size_empty_iff in H0. set_solver.
Qed.

Lemma size_list_to_set_le (l : list string) :
  (size (list_to_set l : gset string) <= length l)%nat.
Proof.
  induction l as [|x l IH]; [rewrite list_to_set_nil, size_empty; simpl; lia|].
  rewrite list_to_set_cons, size_union_alt, size_singleton.
  assert ((size ((list_to_set l : gset string) ∖ {[x]}) <= size (list_to_set l : gset string))%nat)
    by (apply subseteq_size; set_solver).
  simpl. lia.
Qed.

Lemma fuelCovers_initial : fuelCovers defs (length defs) ∅.
Proof.
  unfold fuelCovers.
  assert ((size ((list_to_set (keys defs) : gset string) ∖ ∅)
           <= size (list_to_set (keys defs) : gset string))%nat)
    by (apply subseteq_size; set_solver).
  pose proof (size_list_to_set_le (keys defs)) as Hle.
  unfold keys in Hle at 2. rewrite length_map in Hle. lia.
Qed.

(** From a state whose defined formulas not in progress are covered by the
    fuel, the trap with more fuel does the same. *)
Lemma formulaGet_more_fuel fuel extra key :
  Sim defs (fuelCovers defs fuel)
      (formulaGet jsep file scope defs fuel key)
      (formulaGet jsep file scope defs (fuel + extra) key).
Proof.
  revert key. induction fuel as [|fuel IH]; intros key.
  - rewrite !formulaGet_unfold.
    apply (Sim_formulaGetWith_into defs _ (fun _ => True)). intros E HW Hd Hk.
    destruct (fuelCovers_none E key HW Hd Hk).
  - cbn [Nat.add formulaGet].
    apply (Sim_formulaGetWith_into defs _ (fuelCovers defs fuel)). intros E HW Hd Hk.
    split; [apply fuelCovers_next; assumption|].
    intros expression label. apply Sim_evaluate. exact IH.
Qed.

(** The fuel that [buildEvaluationState] gives its closure is enough: with
    any more fuel an evaluation has the same outcome and leaves the same
    state. Nested formula evaluations mark distinct defined formulas, so
    they are never deeper than the number of definitions. *)
Theorem recursion_fuel_suffices extra expression label st :
  Inv defs st -> evaluating st = ∅ ->
  evaluateWithFuel jsep file scope defs (length defs + extra) expression label st
  = evaluateWithFuel jsep file scope defs (length defs) expression label st.
Proof.
  intros HI HE. symmetry. unfold evaluateWithFuel.
  apply (Sim_evaluate defs (fuelCovers defs (length defs)) file scope _ _
           (formulaGet_more_fuel (length defs) extra) jsep expression label st HI).
  rewrite HE. apply fuelCovers_initial.
Qed.

(** Successive evaluations of one file start from such states. *)
Lemma evaluation_keeps_top_level fuel expression label st :
  Inv defs st -> evaluating st = ∅ ->
  let st' := snd (evaluateWithFuel jsep file scope defs fuel expression label st) in
  Inv defs st' /\ evaluating st' = ∅.
Proof.
  intros HI HE st'.
  destruct (Sim_evaluateWithFuel defs (fun _ => True) (fun _ _ _ => I)
              jsep file scope fuel expression label st HI I)
    as (_ & HI' & (HE' & _) & _).
  split; [exact HI' | unfold st'; rewrite HE'; exact HE].
Qed.
End FuelFacts.

Lemma C2_circular_reference_witness :
  let st := addEvaluating "a" initialState in
  Inv Demo.cyclicFormulas st /\ "a" ∈ evaluating st
  /\ formulaGet Demo.jsep (Demo.createTestFile []) (buildScope (Demo.createTestFile []))
       Demo.cyclicFormulas 5 "a" st
     = (Throw (circularError "a"), st).
Proof.
  intros st.
  assert (HI : Inv Demo.cyclicFormulas st).
  { intros k Hk. simpl in Hk. assert (k = "a") as -> by set_solver.
    split; reflexivity. }
  assert (HX : "a" ∈ evaluating st) by (simpl; set_solver).
  split; [exact HI|]. split; [exact HX|].
  apply (proj1 (proj1 (C2_circular_reference_raises Demo.jsep _ _ Demo.cyclicFormulas
                         "a" 5 st HI) HX)).
Defined.

(** Scenario S4: formulas [a: formula.b + 1] and [b: formula.a + 1]; the
    column [formula.a] fails, and the chain of causes ends in the circular
    reference to [a]. *)
Example circular_formulas_scenario :
  match fst (evaluate_ (Demo.evaluationOf [] Demo.cyclicFormulas) "formula.a"
               "property" initialState) with
  | Throw e => last (errorChain e) = Some (errorMessage (circularError "a"))
  | _ => False
  end.
Proof. vm_compute. reflexivity. Qed.

Lemma C3_formula_memoized_witness :
  let evaluateOnce :=
    evaluateWithFuel Demo.jsep (Demo.createTestFile [])
      (buildScope (Demo.createTestFile [])) Demo.cyclicFormulas 5
      "formula.c + formula.c" "property" in
  fst (evaluateOnce initialState) = Ok (VNum 6)
  /\ List.NoDup (started (snd (evaluateOnce initialState)))
  /\ started (snd (evaluateOnce initialState)) = ["c"]
  /\ formulaCache (snd (evaluateOnce initialState)) !! "c" = Some (VNum 3).
Proof.
  intros evaluateOnce.
  assert (Hok : fst (evaluateOnce initialState) = Ok (VNum 6))
    by (vm_compute; reflexivity).
  split; [exact Hok|]. split; [|split].
  - refine (proj1 (proj2 (proj2 (proj2 (proj2 (proj2
             (C3_formula_memoized Demo.jsep (Demo.createTestFile [])
                (buildScope (Demo.createTestFile [])) Demo.cyclicFormulas 5 "c"
                initialState)))))
             "formula.c + formula.c" "property"
             (Inv_initial _) Ran_initial _)).
    fold evaluateOnce. rewrite Hok. reflexivity.
  - vm_compute. reflexivity.
  - vm_compute. reflexivity.
Defined.

(** C3, as stated, fails for a formula without a definition: the access
    returns [undefined] but the memo table stays as it was. *)
Lemma C3_counterexample_missing_not_stored :
  let after := snd (formulaGet Demo.jsep (Demo.createTestFile [])
                      (buildScope (Demo.createTestFile [])) Demo.cyclicFormulas 5
                      "missing" initialState) in
  hasOwn Demo.cyclicFormulas "missing" = false
  /\ formulaCache after !! "missing" = None
  /\ after = initialState.
Proof. repeat split. Qed.

(** ** The source rewrite *)
Section RewriteFacts.
Import Rewrite RewriteSpec.

(** The conditions of an occurrence, on the code's own readers of the
    expression. *)
Lemma rewritable_code expression i name :
  rewritable expression i name
  = outsideQuotes expression i
    && Js.startsWithAt expression (Js.chars name) i
    && negb (isIdentifierCharacter (charBefore expression i))
    && negb (isChar (charBefore expression i) "."%char)
    && negb (isIdentifierCharacter (charAt expression (i + String.length name)))
    && isChar (nextNonWhiteSpace expression (i + String.length name)) "("%char.
Proof. reflexivity. Qed.

(** The names and aliases of the code's table are those of the rewrite. *)
Lemma rewrittenAt_table expression i :
  rewrittenAt expression i
  = find (fun entry => rewritable expression i (fst entry)) GLOBAL_FUNCTION_ALIASES.
Proof. reflexivity. Qed.

Lemma emitted_code expression i :
  emitted expression i
  = match rewrittenAt expression i with
    | Some (_, alias) => Js.chars alias
    | None =>
        if covered expression i then []
        else match charAt expression i with
             | Some c => [c]
             | None => []
             end
    end.
Proof. reflexivity. Qed.

Lemma length_chars (s : string) : length (Js.chars s) = String.length s.
Proof. induction s as [|c s IH]; simpl; [reflexivity | now rewrite <- IH]. Qed.

Lemma isPrefix_firstn (p l : list ascii) :
  Js.isPrefix p l = true -> firstn (length p) l = p.
Proof.
  revert l. induction p as [|a p IH]; intros [|b l] H; simpl in *;
    try reflexivity; try discriminate.
  destruct (Ascii.eqb_spec a b) as [->|]; [|discriminate].
  now rewrite (IH l H).
Qed.

Lemma isPrefix_length (p l : list ascii) :
  Js.isPrefix p l = true -> (length p <= length l)%nat.
Proof.
  revert l. induction p as [|a p IH]; intros [|b l] H; simpl in *;
    try lia; try discriminate.
  destruct (Ascii.eqb a b); [|discriminate]. specialize (IH l H). lia.
Qed.

Lemma isPrefix_nth (p l : list ascii) (k : nat) :
  Js.isPrefix p l = true -> (k < length p)%nat -> nth_error l k = nth_error p k.
Proof.
  revert l k. induction p as [|a p IH]; intros [|b l] k H Hk; simpl in *;
    try lia; try discriminate.
  destruct (Ascii.eqb_spec a b) as [->|]; [|discriminate].
  destruct k as [|k]; [reflexivity|]. simpl. apply IH; [exact H | lia].
Qed.

Lemma firstn_plus {A} (i n : nat) (l : list A) :
  firstn (i + n) l = firstn i l ++ firstn n (skipn i l).
Proof.
  revert l. induction i as [|i IH]; intros l; [reflexivity|].
  destruct l as [|x l]; simpl; [now rewrite firstn_nil|]. now rewrite IH.
Qed.

Lemma firstn_snoc {A} (i : nat) (l : list A) (c : A) :
  nth_error l i = Some c -> firstn (S i) l = firstn i l ++ [c].
Proof.
  revert l. induction i as [|i IH]; intros [|x l] H; try discriminate.
  - now injection H as ->.
  - simpl in H. change (x :: firstn (S i) l = x :: (firstn i l ++ [c])).
    now rewrite (IH l H).
Qed.

Lemma flat_map_all_nil {A B} (f : A -> list B) (l : list A) :
  (forall x, In x l -> f x = []) -> flat_map f l = [].
Proof.
  induction l as [|x l IH]; intros H; [reflexivity|]. simpl.
  rewrite (H x (or_introl eq_refl)). apply IH. intros y Hy. apply H. now right.
Qed.

Lemma placeAt_next expression i c :
  charAt expression i = Some c ->
  placeAt expression (S i) = advance (placeAt expression i) c.
Proof.
  intros H. unfold placeAt. rewrite (firstn_snoc i expression c H).
  now rewrite fold_left_app.
Qed.

Lemma probe_nextNonWhiteSpace expression k :
  charAt expression (skipWhiteSpace expression k) = nextNonWhiteSpace expression k.
Proof.
  unfold charAt, skipWhiteSpace, nextNonWhiteSpace.
  rewrite <- nth_error_skipn. generalize (skipn k expression) as l.
  induction l as [|x l IH]; [reflexivity|]. simpl.
  destruct (Js.isWhiteSpace x); [exact IH | reflexivity].
Qed.

Lemma findAlias_rewritable entries expression i :
  outsideQuotes expression i = true ->
  findAlias entries expression i
  = option_map (fun entry => (snd entry, String.length (fst entry)))
      (find (fun entry => rewritable expression i (fst entry)) entries).
Proof.
  intros Hout. induction entries as [|[name alias] more IH]; [reflexivity|].
  cbn [findAlias find fst]. rewrite rewritable_code.
  rewrite Hout, probe_nextNonWhiteSpace.
  destruct (Js.startsWithAt expression (Js.chars name) i); cbn [negb andb];
    [|exact IH].
  destruct (isIdentifierCharacter (charBefore expression i)); cbn [negb andb orb];
    [exact IH|].
  destruct (isChar (charBefore expression i) "."%char); cbn [negb andb orb];
    [exact IH|].
  destruct (isIdentifierCharacter (charAt expression (i + String.length name)));
    cbn [negb andb orb]; [exact IH|].
  destruct (isChar (nextNonWhiteSpace expression (i + String.length name)) "("%char);
    [reflexivity | exact IH].
Qed.

Lemma aliases_plain :
  forallb (fun entry => plainName (fst entry)) GLOBAL_FUNCTION_ALIASES = true.
Proof. vm_compute. reflexivity. Qed.

Lemma rewrittenAt_facts expression i name alias :
  rewrittenAt expression i = Some (name, alias) ->
  In (name, alias) GLOBAL_FUNCTION_ALIASES
  /\ rewritable expression i name = true /\ plainName name = true.
Proof.
  intros H. rewrite rewrittenAt_table in H. apply find_some in H.
  destruct H as [Hin Hr].
  split; [exact Hin|]. split; [exact Hr|].
  pose proof aliases_plain as Hp. rewrite forallb_forall in Hp.
  exact (Hp _ Hin).
Qed.

Lemma rewrittenAt_inside expression i :
  outsideQuotes expression i = false -> rewrittenAt expression i = None.
Proof.
  intros H. rewrite rewrittenAt_table.
  induction GLOBAL_FUNCTION_ALIASES as [|e more IH]; [reflexivity|].
  cbn [find]. unfold rewritable at 1. rewrite H. exact IH.
Qed.

Lemma rewritable_occurrence expression i name :
  rewritable expression i name = true ->
  outsideQuotes expression i = true
  /\ Js.startsWithAt expression (Js.chars name) i = true
  /\ isIdentifierCharacter (charBefore expression i) = false.
Proof.
  rewrite rewritable_code. intros H.
  repeat (apply andb_prop in H; destruct H as [H ?]).
  split; [exact H|]. split; [assumption|]. now apply negb_true_iff.
Qed.

Lemma plainName_chars name k c :
  plainName name = true -> nth_error (Js.chars name) k = Some c ->
  identifierChar c = true /\ opens c = None.
Proof.
  unfold plainName. intros H Hk. apply andb_prop in H. destruct H as [_ H].
  rewrite forallb_forall in H. specialize (H c (nth_error_In _ _ Hk)).
  apply andb_prop in H. destruct H as [H1 H2]. split; [exact H1|].
  destruct (opens c); [discriminate | reflexivity].
Qed.

Lemma plainName_stays_outside name :
  plainName name = true -> fold_left advance (Js.chars name) Outside = Outside.
Proof.
  intros H. assert (Hall : forall c, In c (Js.chars name) -> opens c = None).
  { intros c Hc. apply In_nth_error in Hc. destruct Hc as [k Hk].
    exact (proj2 (plainName_chars name k c H Hk)). }
  clear H. induction (Js.chars name) as [|c l IH]; [reflexivity|].
  simpl. rewrite (Hall c (or_introl eq_refl)). apply IH.
  intros c' Hc'. apply Hall. now right.
Qed.

(** A rewritten occurrence starts with a character that opens no span. *)
Lemma rewrittenAt_first_char expression i name alias c :
  rewrittenAt expression i = Some (name, alias) ->
  charAt expression i = Some c -> opens c = None.
Proof.
  intros H Hc. destruct (rewrittenAt_facts _ _ _ _ H) as (_ & Hr & Hp).
  destruct (rewritable_occurrence _ _ _ Hr) as (_ & Hs & _).
  assert (Hlen : (0 < length (Js.chars name))%nat).
  { rewrite length_chars. unfold plainName in Hp. apply andb_prop in Hp.
    destruct Hp as [Hp _]. now apply Nat.ltb_lt in Hp. }
  pose proof (isPrefix_nth _ _ 0 Hs Hlen) as E.
  rewrite nth_error_skipn, Nat.add_0_r in E. unfold charAt in Hc.
  rewrite Hc in E. symmetry in E.
  exact (proj2 (plainName_chars name 0 c Hp E)).
Qed.

(** Inside a rewritten occurrence nothing is rewritten and nothing is put out. *)
Lemma emitted_covered expression i name alias j :
  rewrittenAt expression i = Some (name, alias) ->
  (i < j < i + String.length name)%nat ->
  rewrittenAt expression j = None /\ emitted expression j = [].
Proof.
  intros H Hj. destruct (rewrittenAt_facts _ _ _ _ H) as (_ & Hr & Hp).
  destruct (rewritable_occurrence _ _ _ Hr) as (_ & Hs & _).
  assert (Hnone : rewrittenAt expression j = None).
  { destruct (rewrittenAt expression j) as [[name' alias']|] eqn:E; [|reflexivity].
    exfalso. destruct (rewrittenAt_facts _ _ _ _ E) as (_ & Hr' & _).
    destruct (rewritable_occurrence _ _ _ Hr') as (_ & _ & Hprev).
    destruct j as [|j']; [lia|]. cbn [charBefore] in Hprev.
    assert (Hk : (j' - i < length (Js.chars name))%nat) by (rewrite length_chars; lia).
    pose proof (isPrefix_nth _ _ (j' - i) Hs Hk) as E1.
    rewrite nth_error_skipn in E1. replace (i + (j' - i))%nat with j' in E1 by lia.
    destruct (nth_error (Js.chars name) (j' - i)) as [c|] eqn:E2.
    - rewrite E1 in Hprev. cbn [isIdentifierCharacter] in Hprev.
      rewrite (proj1 (plainName_chars name _ c Hp E2)) in Hprev. discriminate.
    - apply nth_error_None in E2. lia. }
  split; [exact Hnone|]. rewrite emitted_code, Hnone.
  assert (Hcov : covered expression j = true).
  { unfold covered. apply existsb_exists. exists i. split; [apply in_seq; lia|].
    rewrite H. apply andb_true_intro. split; apply Nat.ltb_lt; lia. }
  now rewrite Hcov.
Qed.

Lemma agrees_initial expression : agrees expression initial.
Proof.
  split; [simpl; lia|]. split; [reflexivity|]. split; [reflexivity|].
  intros start name alias H. simpl in H. lia.
Qed.

Lemma not_covered expression (s : scanner) :
  agrees expression s -> covered expression (index s) = false.
Proof.
  intros (_ & _ & _ & Hpast). unfold covered.
  apply not_true_iff_false. intros H. apply existsb_exists in H.
  destruct H as (start & Hin & H). apply in_seq in Hin.
  destruct (rewrittenAt expression start) as [[name alias]|] eqn:E; [|discriminate].
  apply andb_prop in H. destruct H as [_ H]. apply Nat.ltb_lt in H.
  specialize (Hpast start name alias ltac:(lia) E). lia.
Qed.

(** One character is copied: the scanner moves on by one position. *)
Lemma agrees_copy expression (s s' : scanner) c :
  agrees expression s ->
  charAt expression (index s) = Some c ->
  rewrittenAt expression (index s) = None ->
  result s' = result s ++ [c] ->
  index s' = S (index s) ->
  (inSingle s', inDouble s', inTemplate s', escaping s')
  = flagsOf (advance (placeAt expression (index s)) c) ->
  agrees expression s'.
Proof.
  intros Hs Hc Hnone Hres Hidx Hflags.
  pose proof (not_covered _ _ Hs) as Hcov.
  destruct Hs as (Hle & Hresult & _ & Hpast).
  assert (Hlt : (index s < length expression)%nat).
  { apply nth_error_Some. unfold charAt in Hc. rewrite Hc. discriminate. }
  split; [rewrite Hidx; lia|]. split; [|split].
  - rewrite Hres, Hidx, seq_S, flat_map_app, <- Hresult. cbn [flat_map Nat.add].
    rewrite emitted_code, Hnone, Hcov, Hc. now rewrite app_nil_r.
  - rewrite Hidx, (placeAt_next _ _ _ Hc). exact Hflags.
  - intros start name alias Hstart E. rewrite Hidx in *.
    destruct (Nat.eq_dec start (index s)) as [->|Hne]; [congruence|].
    specialize (Hpast start name alias ltac:(lia) E). lia.
Qed.

Lemma agrees_step expression (s : scanner) c :
  agrees expression s ->
  charAt expression (index s) = Some c ->
  agrees expression (step expression s c)
  /\ (index s < index (step expression s c))%nat.
Proof.
  intros Hs Hc. pose proof Hs as (Hle & Hresult & Hflags & Hpast).
  unfold step.
  destruct (placeAt expression (index s)) as [|q e] eqn:Hplace.
  - (* outside every span *)
    cbn [flagsOf] in Hflags. injection Hflags as H1 H2 H3 H4.
    rewrite H1, H2, H3.
    assert (Hout : outsideQuotes expression (index s) = true)
      by (unfold outsideQuotes; now rewrite Hplace).
    assert (Hquote : forall s' q,
               opens c = Some q ->
               result s' = result s ++ [c] -> index s' = S (index s) ->
               (inSingle s', inDouble s', inTemplate s', escaping s')
               = flagsOf (Inside q false) ->
               agrees expression s' /\ (index s < index s')%nat).
    { intros s' q Hq Hr Hi Hf. split; [|lia].
      apply (agrees_copy expression s s' c Hs Hc); try assumption.
      - destruct (rewrittenAt expression (index s)) as [[name alias]|] eqn:E;
          [|reflexivity].
        rewrite (rewrittenAt_first_char _ _ _ _ _ E Hc) in Hq. discriminate.
      - rewrite Hplace. cbn [advance]. now rewrite Hq. }
    destruct (Ascii.eqb c "'"%char) eqn:Eq1.
    { apply (Hquote _ SingleQuoted); cbn; try reflexivity.
      - unfold opens. now rewrite Eq1.
      - now rewrite ?H1, ?H2, ?H3, ?H4. }
    destruct (Ascii.eqb c "034"%char) eqn:Eq2.
    { apply (Hquote _ DoubleQuoted); cbn; try reflexivity.
      - unfold opens. now rewrite Eq1, Eq2.
      - now rewrite ?H1, ?H2, ?H3, ?H4. }
    destruct (Ascii.eqb c "`"%char) eqn:Eq3.
    { apply (Hquote _ BacktickQuoted); cbn; try reflexivity.
      - unfold opens. now rewrite Eq1, Eq2, Eq3.
      - now rewrite ?H1, ?H2, ?H3, ?H4. }
    assert (Hopens : opens c = None) by (unfold opens; now rewrite Eq1, Eq2, Eq3).
    rewrite (findAlias_rewritable _ _ _ Hout), <- rewrittenAt_table.
    destruct (rewrittenAt expression (index s)) as [[name alias]|] eqn:E;
      cbn [option_map fst snd].
    + (* the occurrence is rewritten *)
      destruct (rewrittenAt_facts _ _ _ _ E) as (_ & Hr & Hp).
      destruct (rewritable_occurrence _ _ _ Hr) as (_ & Hstart & _).
      assert (Hpos : (0 < String.length name)%nat).
      { unfold plainName in Hp. apply andb_prop in Hp. destruct Hp as [Hp _].
        now apply Nat.ltb_lt in Hp. }
      split; [|cbn [index]; lia].
      split; [|split; [|split]]; cbn [index result inSingle inDouble inTemplate escaping].
      * pose proof (isPrefix_length _ _ Hstart) as Hl.
        rewrite length_chars, length_skipn in Hl. lia.
      * rewrite seq_app, flat_map_app, <- Hresult. f_equal. cbn [Nat.add].
        destruct (String.length name) as [|n] eqn:En; [lia|].
        cbn [seq flat_map]. unfold emitted at 1. rewrite E.
        rewrite <- (app_nil_r (Js.chars alias)) at 1. f_equal.
        symmetry. apply flat_map_all_nil. intros j Hj. apply in_seq in Hj.
        apply (emitted_covered expression (index s) name alias j E). lia.
      * unfold placeAt. rewrite firstn_plus, fold_left_app.
        fold (placeAt expression (index s)). rewrite Hplace.
        rewrite <- length_chars, (isPrefix_firstn _ _ Hstart).
        rewrite (plainName_stays_outside _ Hp). cbn [flagsOf].
        now rewrite ?H1, ?H2, ?H3, ?H4.
      * intros start name' alias' Hlt E'.
        destruct (Nat.lt_trichotomy start (index s)) as [Hlo|[->|Hhi]].
        -- specialize (Hpast start name' alias' Hlo E'). lia.
        -- rewrite E in E'. injection E' as <- <-. lia.
        -- destruct (emitted_covered expression (index s) name alias start E
                       ltac:(lia)) as [Hn _]. congruence.
    + split; [|cbn [index]; lia].
      apply (agrees_copy expression s _ c Hs Hc E); cbn; try reflexivity.
      rewrite Hplace. cbn [advance]. rewrite Hopens. cbn [flagsOf].
      now rewrite ?H1, ?H2, ?H3, ?H4.
  - (* inside a span *)
    assert (Hnone : rewrittenAt expression (index s) = None).
    { apply rewrittenAt_inside. unfold outsideQuotes. now rewrite Hplace. }
    assert (Hin : forall s',
               result s' = result s ++ [c] -> index s' = S (index s) ->
               (inSingle s', inDouble s', inTemplate s', escaping s')
               = flagsOf (advance (Inside q e) c) ->
               agrees expression s' /\ (index s < index s')%nat).
    { intros s' Hr Hi Hf. split; [|lia].
      apply (agrees_copy expression s s' c Hs Hc Hnone Hr Hi).
      now rewrite Hplace. }
    destruct q; cbn [flagsOf] in Hflags; injection Hflags as H1 H2 H3 H4;
      rewrite ?H1, ?H2, ?H3; unfold quotedStep; rewrite H4;
      (destruct e;
       [ | destruct (Ascii.eqb c "\"%char) eqn:E1;
           [ | match goal with
               | |- context [Ascii.eqb c ?d] => destruct (Ascii.eqb c d) eqn:E2
               end ] ]);
      apply Hin; cbn; rewrite ?E1, ?E2, ?H1, ?H2, ?H3; reflexivity.
Qed.

Lemma scan_agrees fuel expression (s : scanner) :
  agrees expression s ->
  (length expression - index s <= fuel)%nat ->
  result (scan fuel expression s) = rewrite expression.
Proof.
  revert s. induction fuel as [|fuel IH]; intros s Hs Hfuel.
  - destruct Hs as (Hle & Hresult & _). cbn [scan]. rewrite Hresult.
    unfold rewrite. f_equal. f_equal. lia.
  - cbn [scan]. destruct (charAt expression (index s)) as [c|] eqn:Hc.
    + destruct (agrees_step _ _ _ Hs Hc) as [Hs' Hlt]. apply IH; [exact Hs'|lia].
    + destruct Hs as (Hle & Hresult & _). rewrite Hresult. unfold rewrite.
      apply nth_error_None in Hc. f_equal. f_equal. lia.
Qed.

End RewriteFacts.

Lemma copy_all (l : list ascii) (k : nat) (prefix : list ascii) :
  length prefix = k ->
  flat_map (fun i => match nth_error (prefix ++ l) i with
                     | Some c => [c]
                     | None => []
                     end) (seq k (length l)) = l.
Proof.
  revert k prefix. induction l as [|c l IH]; intros k prefix Hk; [reflexivity|].
  cbn [length seq flat_map]. rewrite nth_error_app2, Hk, Nat.sub_diag by lia.
  cbn [nth_error app]. f_equal.
  specialize (IH (S k) (prefix ++ [c])). rewrite <- app_assoc in IH.
  apply IH. rewrite length_app. simpl. lia.
Qed.

(** Where no occurrence is rewritten the source comes out as it is. *)
Lemma rewrite_without_occurrence (expression : list ascii) :
  (forall index, RewriteSpec.rewrittenAt expression index = None) ->
  RewriteSpec.rewrite expression = expression.
Proof.
  intros Hnone. unfold RewriteSpec.rewrite.
  rewrite <- (copy_all expression 0 [] eq_refl) at 3. cbn [app].
  apply flat_map_ext. intros index. unfold RewriteSpec.emitted.
  rewrite Hnone.
  assert (Hcov : RewriteSpec.covered expression index = false).
  { unfold RewriteSpec.covered. apply not_true_iff_false. intros H.
    apply existsb_exists in H. destruct H as (start & _ & H).
    rewrite Hnone in H. discriminate. }
  now rewrite Hcov.
Qed.

(** C8. The source rewrite is the position-wise one: at a position where
    [if] (or [file]) occurs outside the quoted spans, with no identifier
    character or dot before it, no identifier character after it and an
    opening parenthesis as the next character that is not white space, the
    alias [_if] (or [_fileFn]) is put out in place of the name; every other
    character is put out as it is. *)
Theorem C8_source_rewrite (expression : string) :
  Rewrite.normalizeExpressionSource expression
  = Js.str (RewriteSpec.rewrite (Js.chars expression)).
Proof.
  unfold Rewrite.normalizeExpressionSource, Rewrite.normalizeChars. f_equal.
  apply scan_agrees.
  - apply agrees_initial.
  - simpl. lia.
Qed.

Example rewrite_if_call :
  Rewrite.normalizeExpressionSource "if(done, 1, 2)" = "_if(done, 1, 2)".
Proof. vm_compute. reflexivity. Qed.

Example rewrite_file_call_across_space :
  Rewrite.normalizeExpressionSource "file  ('a.md').name" = "_fileFn  ('a.md').name".
Proof. vm_compute. reflexivity. Qed.

Example rewrite_keeps_member_access :
  Rewrite.normalizeExpressionSource "file.name + x.if(1) + iffy(2) + xfile(3)"
  = "file.name + x.if(1) + iffy(2) + xfile(3)".
Proof. vm_compute. reflexivity. Qed.

Example rewritten_occurrences :
  RewriteSpec.rewrittenAt (Js.chars "x + if (a, file(b))") 4 = Some ("if", "_if")
  /\ RewriteSpec.rewrittenAt (Js.chars "x + if (a, file(b))") 11
     = Some ("file", "_fileFn")
  /\ RewriteSpec.rewrittenAt (Js.chars "x + if (a, file(b))") 0 = None
  /\ RewriteSpec.rewrite (Js.chars "x + if (a, file(b))")
     = Js.chars "x + _if (a, _fileFn(b))".
Proof. vm_compute. repeat split; reflexivity. Qed.

Example rewrite_keeps_quoted_text :
  Rewrite.normalizeExpressionSource "'if(' + `file(` + if('it\'s if(', file(x))"
  = "'if(' + `file(` + _if('it\'s if(', _fileFn(x))".
Proof. vm_compute. reflexivity. Qed.

(** ** The duration parser returns *)
Section DurationFuel.
Import Regex RegexSpec Duration.

Lemma matchLit_length ignoreCase p input rest :
  matchLit ignoreCase p input = Some rest ->
  (length rest + length p = length input)%nat.
Proof.
  revert input. induction p as [|a p IH]; intros [|b input] H; simpl in *;
    try discriminate; try (injection H as <-; simpl; lia).
  destruct (sameChar ignoreCase a b); [|discriminate]. specialize (IH _ H). lia.
Qed.

Lemma iterate_bound (body : list ascii -> list success) fuel :
  (forall input c rest, In (c, rest) (body input) -> (length rest <= length input)%nat) ->
  forall input c rest,
    In (c, rest) (iterate body fuel input) -> (length rest <= length input)%nat.
Proof.
  intros Hbody. induction fuel as [|fuel IH]; intros input c rest H; simpl in H.
  - destruct H as [[= _ <-]|[]]. lia.
  - apply in_app_or in H. destruct H as [H|[[= _ <-]|[]]]; [|lia].
    apply in_flat_map in H. destruct H as ([c1 rest1] & H1 & H).
    destruct (length rest1 <? length input)%nat eqn:E; [|destruct H].
    apply in_map_iff in H. destruct H as ([c2 rest2] & [= _ <-] & H2).
    specialize (IH _ _ _ H2). specialize (Hbody _ _ _ H1). lia.
Qed.

Lemma run_bound ignoreCase (r : regex) :
  forall input c rest,
    In (c, rest) (run ignoreCase r input) ->
    (length rest <= length input)%nat
    /\ (nonEmpty r = true -> (length rest < length input)%nat).
Proof.
  induction r as [s| | |a IHa b IHb|a IHa b IHb|a IHa|a IHa|a IHa|a IHa];
    intros input c rest H; simpl in H.
  - destruct (matchLit ignoreCase (Js.chars s) input) as [rest'|] eqn:E; [|destruct H].
    destruct H as [[= _ <-]|[]]. apply matchLit_length in E. split; [lia|].
    simpl. intros Hne. apply negb_true_iff, Nat.eqb_neq in Hne. lia.
  - destruct input as [|x input]; [destruct H|].
    destruct (Js.isDigit x); [|destruct H]. destruct H as [[= _ <-]|[]].
    simpl. split; [lia | intros _; lia].
  - destruct input as [|x input]; [destruct H|].
    destruct (Js.isWhiteSpace x); [|destruct H]. destruct H as [[= _ <-]|[]].
    simpl. split; [lia | intros _; lia].
  - apply in_flat_map in H. destruct H as ([c1 rest1] & H1 & H).
    apply in_map_iff in H. destruct H as ([c2 rest2] & [= _ <-] & H2).
    destruct (IHa _ _ _ H1) as [La Sa], (IHb _ _ _ H2) as [Lb Sb].
    split; [lia|]. simpl. intros Hne. apply orb_prop in Hne.
    destruct Hne as [Hne|Hne]; [specialize (Sa Hne) | specialize (Sb Hne)]; lia.
  - apply in_app_or in H. simpl.
    destruct H as [H|H]; [destruct (IHa _ _ _ H) as [L S] | destruct (IHb _ _ _ H) as [L S]];
      (split; [exact L|]; intros Hne; apply andb_prop in Hne; apply S, Hne).
  - apply in_app_or in H. destruct H as [H|[[= _ <-]|[]]].
    + split; [apply (IHa _ _ _ H) | discriminate].
    + split; [lia | discriminate].
  - split; [|discriminate].
    apply (iterate_bound (run ignoreCase a) (length input)
             (fun i c' r' Hin => proj1 (IHa i c' r' Hin)) input c rest H).
  - apply in_flat_map in H. destruct H as ([c1 rest1] & H1 & H).
    apply in_map_iff in H. destruct H as ([c2 rest2] & [= _ <-] & H2).
    destruct (IHa _ _ _ H1) as [La Sa].
    pose proof (iterate_bound (run ignoreCase a) (length rest1)
                  (fun i c' r' Hin => proj1 (IHa i c' r' Hin)) rest1 c2 rest2 H2) as Li.
    split; [lia|]. simpl. intros Hne. specialize (Sa Hne). lia.
  - apply in_map_iff in H. destruct H as ([c' rest'] & [= _ <-] & H).
    exact (IHa _ _ _ H).
Qed.

Lemma searchFrom_bound ignoreCase r suffix index i caps rest :
  nonEmpty r = true ->
  searchFrom ignoreCase r suffix index = Some (i, (caps, rest)) ->
  (length rest < length suffix)%nat.
Proof.
  intros Hne. revert index. induction suffix as [|x suffix IH]; intros index H;
    simpl in H.
  - destruct (run ignoreCase r []) as [|s l] eqn:E; [discriminate|].
    injection H as _ ->.
    assert (Hin : In (caps, rest) (run ignoreCase r [])) by (rewrite E; left; reflexivity).
    destruct (run_bound _ _ _ _ _ Hin) as [_ S]. specialize (S Hne). simpl in S. lia.
  - destruct (run ignoreCase r (x :: suffix)) as [|s l] eqn:E.
    + specialize (IH _ H). simpl. lia.
    + injection H as _ ->.
      assert (Hin : In (caps, rest) (run ignoreCase r (x :: suffix)))
        by (rewrite E; left; reflexivity).
      destruct (run_bound _ _ _ _ _ Hin) as [_ S]. exact (S Hne).
Qed.

Lemma exec_advances ignoreCase r subject from m :
  nonEmpty r = true ->
  exec ignoreCase r subject from = Some m ->
  (from < lastIndex m <= length subject)%nat.
Proof.
  intros Hne. unfold exec.
  destruct (length subject <? from)%nat eqn:E; [discriminate|].
  apply Nat.ltb_ge in E.
  destruct (searchFrom ignoreCase r (skipn from subject) from)
    as [[i [caps rest]]|] eqn:Es; [|discriminate].
  intros [= <-]. simpl. apply (searchFrom_bound _ _ _ _ _ _ _ Hne) in Es.
  rewrite length_skipn in Es. lia.
Qed.

Lemma parseLoop_returns fuel input trimmed total lastIndex matched :
  (length trimmed - lastIndex < fuel)%nat ->
  parseLoop fuel input trimmed total lastIndex matched <> OutOfFuel.
Proof.
  revert total lastIndex matched.
  induction fuel as [|fuel IH]; intros total lastIndex matched Hfuel; [lia|].
  cbn [parseLoop].
  destruct (exec true DURATION_PATTERN trimmed lastIndex) as [m|] eqn:E.
  - apply (exec_advances true DURATION_PATTERN _ _ _ eq_refl) in E.
    destruct (negb (index m =? lastIndex)%nat && _); [discriminate|].
    destruct (negb (Js.isFinite _)); [discriminate|].
    destruct (match mapGet DURATION_UNIT_MULTIPLIERS _ with Some x => Some x | None => _ end);
      [|discriminate].
    apply IH. lia.
  - destruct (negb matched); [discriminate|].
    destruct ((lastIndex <? length trimmed)%nat && _); discriminate.
Qed.


End DurationFuel.

(** The iteration fuel of [Star] and [Plus] is enough: an iteration
    consumes at least one character. *)
Lemma iterate_more_fuel (body : list ascii -> list Regex.success) fuel extra input :
  (length input <= fuel)%nat ->
  Regex.iterate body (fuel + extra) input = Regex.iterate body fuel input.
Proof.
  revert input. induction fuel as [|fuel IH]; intros input Hlen.
  - destruct input; [|simpl in Hlen; lia]. destruct extra as [|extra]; [reflexivity|].
    simpl. rewrite flat_map_all_nil; [reflexivity|].
    intros [c1 rest1] _. reflexivity.
  - cbn [Nat.add Regex.iterate]. f_equal. apply flat_map_ext. intros [c1 rest1].
    destruct (length rest1 <? length input)%nat eqn:E; [|reflexivity].
    apply Nat.ltb_lt in E. rewrite IH by lia. reflexivity.
Qed.

Import Host Expressions Filters FilterSpec.

(** ** The table of a view (src/materialize.ts) *)
Section MaterializeFacts.
Import Materialize MaterializeSpec.
Variable jsep : string -> expr + error.
Variable base : ObsidianBaseDefinition.

Lemma evaluateRow_length evaluation file columnKeys st row st' :
  evaluateRow evaluation file columnKeys st = (Ok row, st') ->
  length row = length columnKeys.
Proof.
  revert st row st'. induction columnKeys as [|columnKey more IH]; intros st row st' H.
  - injection H as <- _. reflexivity.
  - cbn [evaluateRow] in H. unfold bind at 1 in H.
    destruct (catch _ _ st) as [[cell| | |] st1]; try discriminate.
    unfold bind in H.
    destruct (evaluateRow evaluation file more st1) as [[rest| | |] st2] eqn:E;
      try discriminate.
    injection H as <- _. simpl. f_equal. exact (IH _ _ _ E).
Qed.

Lemma evaluateRows_shape columnKeys matches rows :
  evaluateRows jsep base columnKeys matches = Ok rows ->
  length rows = length matches
  /\ Forall (fun row => length row = length columnKeys) rows.
Proof.
  revert rows. induction matches as [|[file st] more IH]; intros rows H.
  - injection H as <-. split; [reflexivity | constructor].
  - cbn [evaluateRows] in H.
    destruct (evaluateRow _ file columnKeys st) as [[row| | |] st1] eqn:E;
      try discriminate.
    cbn [fst obind] in H.
    destruct (evaluateRows jsep base columnKeys more) as [rest| | |];
      try discriminate.
    injection H as <-. destruct (IH rest eq_refl) as [Hlen Hall].
    split; [simpl; f_equal; exact Hlen|].
    constructor; [exact (evaluateRow_length _ _ _ _ _ _ E) | exact Hall].
Qed.

Lemma collectMatches_length viewFilters viewLabel files matches :
  collectMatches jsep base viewFilters viewLabel files = Ok matches ->
  (length matches <= length files)%nat.
Proof.
  revert matches. induction files as [|file more IH]; intros matches H.
  - injection H as <-. simpl. lia.
  - cbn [collectMatches] in H.
    destruct (fileMatches jsep base viewFilters viewLabel file) as [[[|]| | |] st];
      try discriminate.
    + destruct (collectMatches jsep base viewFilters viewLabel more) as [rest| | |];
        try discriminate.
      injection H as <-. specialize (IH rest eq_refl). simpl. lia.
    + specialize (IH matches H). simpl. lia.
Qed.

Lemma length_limited {A} limit (matches : list A) :
  length (limited limit matches)
  = match limit with
    | Some n => Nat.min n (length matches)
    | None => length matches
    end.
Proof. destruct limit; simpl; [apply length_firstn | reflexivity]. Qed.

(** What a successful [materialize] is made of. *)
Lemma materialize_inversion viewName files rows :
  materialize jsep base viewName files = Ok rows ->
  rows = []
  \/ exists matches body,
       columnsOf base viewName <> []
       /\ collectMatches jsep base (field (selected base viewName) "filters")
            (labelOf base viewName) files = Ok matches
       /\ evaluateRows jsep base (columnsOf base viewName)
            (limited (limitOf (field (selected base viewName) "limit")) matches)
          = Ok body
       /\ rows = map (fun key => resolveDisplayName key (properties base))
                     (columnsOf base viewName) :: body.
Proof.
  unfold materialize. fold (viewsOf base). fold (selected base viewName).
  fold (columnsOf base viewName). fold (labelOf base viewName).
  destruct (negb (isData (selected base viewName))); [discriminate|].
  destruct (negb (toBoolean (selected base viewName))); [intros [= <-]; left; reflexivity|].
  destruct (length (columnsOf base viewName) =? 0)%nat eqn:Ecols;
    [intros [= <-]; left; reflexivity|].
  destruct (collectMatches _ _ _ _ files) as [matches| | |]; try discriminate.
  cbn [obind].
  destruct (evaluateRows _ _ _ _) as [body| | |] eqn:Erows; try discriminate.
  intros [= <-]. right. exists matches, body.
  split; [|split; [reflexivity|split; [exact Erows|reflexivity]]].
  intros Heq. rewrite Heq in Ecols. discriminate.
Qed.

(** X16. A table that [materialize] returns is empty or rectangular: its
    first row is the header, which has a cell for every column key, every
    other row has as many cells as the header, and there are no more such
    rows than files. *)
Theorem materialize_rectangular viewName files rows :
  materialize jsep base viewName files = Ok rows ->
  rows = []
  \/ exists header body,
       rows = header :: body
       /\ header = map (fun key => resolveDisplayName key (properties base))
                       (columnsOf base viewName)
       /\ header <> []
       /\ Forall (fun row => length row = length header) body
       /\ (length body <= length files)%nat.
Proof.
  intros H. destruct (materialize_inversion _ _ _ H)
    as [->|(matches & body & Hcols & Hm & Hr & ->)]; [left; reflexivity|].
  right. eexists; exists body. split; [reflexivity|]. split; [reflexivity|].
  destruct (evaluateRows_shape _ _ _ Hr) as [Hlen Hall].
  split; [|split].
  - destruct (columnsOf base viewName); [contradiction | discriminate].
  - rewrite length_map. exact Hall.
  - rewrite Hlen, length_limited. pose proof (collectMatches_length _ _ _ _ Hm).
    destruct (limitOf _); lia.
Qed.

(** X17. With a [limit] that is a finite number above zero the table has
    the header and the rows of the first [floor(limit)] matching files; a
    limit below one leaves the header alone. Any other [limit] is no limit. *)
Theorem materialize_limit viewName files header body matches :
  materialize jsep base viewName files = Ok (header :: body) ->
  collectMatches jsep base (field (selected base viewName) "filters")
    (labelOf base viewName) files = Ok matches ->
  length body
  = match field (selected base viewName) "limit" with
    | VNum n =>
        if Js.isFinite n && (0 <? n)%float
        then Nat.min (Z.to_nat (mathFloor n)) (length matches)
        else length matches
    | _ => length matches
    end.
Proof.
  intros H Hm. destruct (materialize_inversion _ _ _ H)
    as [Hnil|(matches' & body' & _ & Hm' & Hr & Heq)]; [discriminate|].
  rewrite Hm in Hm'. injection Hm' as <-. injection Heq as _ ->.
  destruct (evaluateRows_shape _ _ _ Hr) as [Hlen _].
  rewrite Hlen, length_limited. unfold limitOf.
  destruct (field (selected base viewName) "limit"); try reflexivity.
  destruct (Js.isFinite n && (0 <? n)%float); reflexivity.
Qed.

Lemma materialize_unfold viewName files :
  materialize jsep base viewName files
  = if negb (isData (selected base viewName)) then Unmodelled "view that is not plain data"
    else if negb (toBoolean (selected base viewName)) then Ok []
    else if (length (columnsOf base viewName) =? 0)%nat then Ok []
    else
      obind (collectMatches jsep base (field (selected base viewName) "filters")
               (labelOf base viewName) files)
        (fun matches =>
           obind (evaluateRows jsep base (columnsOf base viewName)
                    (limited (limitOf (field (selected base viewName) "limit")) matches))
             (fun rows =>
                Ok (map (fun key => resolveDisplayName key (properties base))
                        (columnsOf base viewName) :: rows))).
Proof. reflexivity. Qed.

(** X18. A view name that no view of the base carries selects the first
    view: the table is the one of the first view's own name. *)
Theorem materialize_unknown_view viewName files first rest name :
  viewsOf base = first :: rest ->
  field first "name" = VStr name ->
  (forall view, In view (viewsOf base) -> isNamed viewName view = false) ->
  materialize jsep base viewName files = materialize jsep base name files.
Proof.
  intros Hviews Hname Hnone.
  assert (H1 : selected base viewName = first).
  { unfold selected, selectView.
    destruct (find (isNamed viewName) (viewsOf base)) as [view|] eqn:E.
    - apply find_some in E. destruct E as [Hin Hn].
      rewrite (Hnone view Hin) in Hn. discriminate.
    - rewrite Hviews. reflexivity. }
  assert (H2 : selected base name = first).
  { unfold selected, selectView. rewrite Hviews. cbn [find].
    unfold isNamed at 1. rewrite Hname, String.eqb_refl. reflexivity. }
  rewrite !materialize_unfold. unfold columnsOf, labelOf. rewrite H1, H2, Hname.
  reflexivity.
Qed.









Lemma collectMatches_app viewFilters viewLabel files1 files2 matches1 matches2 :
  collectMatches jsep base viewFilters viewLabel files1 = Ok matches1 ->
  collectMatches jsep base viewFilters viewLabel files2 = Ok matches2 ->
  collectMatches jsep base viewFilters viewLabel (files1 ++ files2)
  = Ok (matches1 ++ matches2).
Proof.
  revert matches1. induction files1 as [|file more IH]; intros matches1 H1 H2.
  - injection H1 as <-. exact H2.
  - cbn [collectMatches app] in *.
    destruct (fileMatches jsep base viewFilters viewLabel file) as [[[|]| | |] st];
      try discriminate.
    + destruct (collectMatches jsep base viewFilters viewLabel more) as [rest| | |];
        try discriminate.
      injection H1 as <-. rewrite (IH rest eq_refl H2). reflexivity.
    + exact (IH matches1 H1 H2).
Qed.

Lemma evaluateRows_app columnKeys matches1 matches2 rows1 rows2 :
  evaluateRows jsep base columnKeys matches1 = Ok rows1 ->
  evaluateRows jsep base columnKeys matches2 = Ok rows2 ->
  evaluateRows jsep base columnKeys (matches1 ++ matches2) = Ok (rows1 ++ rows2).
Proof.
  revert rows1. induction matches1 as [|[file st] more IH]; intros rows1 H1 H2.
  - injection H1 as <-. exact H2.
  - cbn [evaluateRows app] in *.
    destruct (fst (evaluateRow _ file columnKeys st)) as [row| | |];
      cbn [obind] in *; try discriminate.
    destruct (evaluateRows jsep base columnKeys more) as [rest| | |];
      cbn [obind] in *; try discriminate.
    injection H1 as <-. rewrite (IH rest eq_refl H2). reflexivity.
Qed.

(** X20. Without a limit the rows of a vault are the rows of its parts:
    the table of the files [files1 ++ files2] is the header followed by the
    rows of [files1] and then the rows of [files2]. A row depends on its
    own file only. *)
Theorem materialize_append viewName files1 files2 header1 body1 header2 body2 :
  limitOf (field (selected base viewName) "limit") = None ->
  materialize jsep base viewName files1 = Ok (header1 :: body1) ->
  materialize jsep base viewName files2 = Ok (header2 :: body2) ->
  materialize jsep base viewName (files1 ++ files2) = Ok (header1 :: body1 ++ body2).
Proof.
  intros Hlimit. rewrite !materialize_unfold, Hlimit. cbn [limited].
  destruct (negb (isData _)); [discriminate|].
  destruct (negb (toBoolean _)); [discriminate|].
  destruct (length _ =? 0)%nat; [discriminate|].
  destruct (collectMatches _ _ _ _ files1) as [matches1| | |] eqn:E1;
    cbn [obind]; try discriminate.
  destruct (evaluateRows _ _ _ matches1) as [rows1| | |] eqn:R1; cbn [obind];
    try discriminate.
  intros [= <- <-].
  destruct (collectMatches _ _ _ _ files2) as [matches2| | |] eqn:E2;
    cbn [obind]; try discriminate.
  destruct (evaluateRows _ _ _ matches2) as [rows2| | |] eqn:R2; cbn [obind];
    try discriminate.
  intros [= _ <-].
  rewrite (collectMatches_app _ _ _ _ _ _ E1 E2). cbn [obind].
  rewrite (evaluateRows_app _ _ _ _ _ R1 R2). reflexivity.
Qed.

End MaterializeFacts.

Lemma materialize_rectangular_witness :
  Materialize.materialize Sample.jsep Sample.base "All" Sample.files
  = Ok [ ["Name"; "status"; "formula.label"];
         ["alpha"; "active"; "alpha!"];
         ["gamma"; "active"; "gamma!"] ]
  /\ exists (header : list string) (body : list (list string)),
       Forall (fun row => length row = length header) body
       /\ (length body <= length Sample.files)%nat.
Proof.
  assert (H : Materialize.materialize Sample.jsep Sample.base "All" Sample.files
              = Ok [ ["Name"; "status"; "formula.label"];
                     ["alpha"; "active"; "alpha!"];
                     ["gamma"; "active"; "gamma!"] ])
    by (vm_compute; reflexivity).
  split; [exact H|].
  pose proof (materialize_rectangular Sample.jsep Sample.base "All" Sample.files _ H) as R.
  destruct R as [Hnil|(header & body & _ & _ & _ & Hall & Hlen)]; [discriminate|].
  exists header, body. split; assumption.
Defined.

Lemma materialize_limit_witness :
  Materialize.materialize Sample.jsep Sample.base "Top" Sample.files
  = Ok [ ["Name"; "status"; "formula.label"]; ["alpha"; "active"; "alpha!"] ]
  /\ Materialize.materialize Sample.jsep Sample.base "Half" Sample.files
     = Ok [ ["Name"; "status"; "formula.label"] ]
  /\ length [ ["alpha"; "active"; "alpha!"] ] = Nat.min 1 2.
Proof.
  assert (H : Materialize.materialize Sample.jsep Sample.base "Top" Sample.files
              = Ok [ ["Name"; "status"; "formula.label"]; ["alpha"; "active"; "alpha!"] ])
    by (vm_compute; reflexivity).
  split; [exact H|]. split; [vm_compute; reflexivity|].
  assert (E : exists matches,
             Materialize.collectMatches Sample.jsep Sample.base
               (Materialize.field (MaterializeSpec.selected Sample.base "Top") "filters")
               (MaterializeSpec.labelOf Sample.base "Top") Sample.files = Ok matches
             /\ length matches = 2%nat)
    by (vm_compute; eexists; split; reflexivity).
  destruct E as (matches & E & Hm).
  pose proof (materialize_limit Sample.jsep Sample.base "Top" Sample.files _ _ matches H E)
    as R.
  rewrite Hm in R. exact R.
Defined.

Lemma materialize_unknown_view_witness :
  Materialize.materialize Sample.jsep Sample.base "No such view" Sample.files
  = Materialize.materialize Sample.jsep Sample.base "All" Sample.files.
Proof.
  apply (materialize_unknown_view Sample.jsep Sample.base "No such view" Sample.files
           _ _ "All" eq_refl eq_refl).
  intros view Hin. vm_compute in Hin.
  repeat (destruct Hin as [<-|Hin]; [reflexivity|]). destruct Hin.
Defined.


Lemma materialize_append_witness :
  Materialize.materialize Sample.jsep Sample.base "All"
    ([Sample.note "alpha" "active"] ++ [Sample.note "beta" "done"; Sample.note "gamma" "active"])
  = Ok ([ "Name"; "status"; "formula.label" ]
        :: [ ["alpha"; "active"; "alpha!"] ] ++ [ ["gamma"; "active"; "gamma!"] ]).
Proof.
  apply (materialize_append Sample.jsep Sample.base "All" _ _ _ _
           [ "Name"; "status"; "formula.label" ]); vm_compute; reflexivity.
Defined.

(** ** The Markdown table (module.ts) *)
Section MarkdownFacts.
Import Markdown.

Lemma chars_append (a b : string) : Js.chars (a +:+ b) = Js.chars a ++ Js.chars b.
Proof. induction a as [|c a IH]; simpl; [reflexivity | now rewrite <- IH]. Qed.

Lemma chars_str (l : list ascii) : Js.chars (Js.str l) = l.
Proof. apply list_ascii_of_string_of_list_ascii. Qed.

Lemma count_concat (c : ascii) (sep : string) (l : list string) :
  (forall x, In x l -> count_occ ascii_dec (Js.chars x) c = 0%nat) ->
  count_occ ascii_dec (Js.chars (String.concat sep l)) c
  = ((length l - 1) * count_occ ascii_dec (Js.chars sep) c)%nat.
Proof.
  induction l as [|x l IH]; intros H; [reflexivity|].
  destruct l as [|y l].
  - simpl. apply H. left. reflexivity.
  - change (String.concat sep (x :: y :: l))
      with (x +:+ sep +:+ String.concat sep (y :: l)).
    rewrite !chars_append, !count_occ_app, IH by (intros z Hz; apply H; right; exact Hz).
    rewrite (H x (or_introl eq_refl)). simpl length. lia.
Qed.

Lemma escapeCell_one_line (value : string) :
  count_occ ascii_dec (Js.chars (escapeCell value)) "010"%char = 0%nat.
Proof.
  unfold escapeCell, replaceAll at 1. rewrite chars_str.
  induction (Js.chars (replaceAll "|"%char "\|" value)) as [|c l IH]; [reflexivity|].
  cbn [flat_map]. rewrite count_occ_app, IH, Nat.add_0_r.
  destruct (Ascii.eqb_spec c "010"%char) as [->|Hne]; [reflexivity|].
  simpl. destruct (ascii_dec c "010"%char); [contradiction | reflexivity].
Qed.

Lemma line_one_line (cells : list string) :
  (forall x, In x cells -> count_occ ascii_dec (Js.chars x) "010"%char = 0%nat) ->
  count_occ ascii_dec (Js.chars (line cells)) "010"%char = 0%nat.
Proof.
  intros H. unfold line. rewrite !chars_append, !count_occ_app, (count_concat _ _ _ H).
  simpl. lia.
Qed.

Lemma escaped_line_one_line (row : list string) :
  count_occ ascii_dec (Js.chars (line (map escapeCell row))) "010"%char = 0%nat.
Proof.
  apply line_one_line. intros x Hx. apply in_map_iff in Hx.
  destruct Hx as (v & <- & _). apply escapeCell_one_line.
Qed.

(** X21. The rendered table holds as many line feeds (code unit 10)
    as separate its lines, one line for the header, one for the separator
    and one for every other row, whatever the cells hold: a line feed
    inside a cell is written [<br>]. Without rows the table has two lines.
    Of the other characters nothing is said: [escapeCell] replaces the
    vertical bar and the line feed only, and a carriage return stays in
    its cell. *)
Theorem renderMarkdownTable_lines (rows : list (list string)) :
  count_occ ascii_dec (Js.chars (renderMarkdownTable rows)) "010"%char
  = Nat.max 1 (length rows).
Proof.
  destruct rows as [|header body]; [reflexivity|].
  unfold renderMarkdownTable. rewrite count_concat.
  - simpl. rewrite length_map. lia.
  - intros x [<-|[<-|Hx]].
    + apply escaped_line_one_line.
    + apply line_one_line. intros y Hy. apply in_map_iff in Hy.
      destruct Hy as (v & <- & _). reflexivity.
    + apply in_map_iff in Hx. destruct Hx as (row & <- & _).
      apply escaped_line_one_line.
Qed.

Example render_sample :
  renderMarkdownTable [ ["Name"; "a|b"]; ["x"; "two" +:+ newline +:+ "lines"] ]
  = "| Name | a\|b |" +:+ newline +:+ "| --- | --- |" +:+ newline
    +:+ "| x | two<br>lines |".
Proof. vm_compute. reflexivity. Qed.

Example render_keeps_carriage_return :
  renderMarkdownTable [ ["a" +:+ String "013"%char "b"] ]
  = "| a" +:+ String "013"%char "b |" +:+ newline +:+ "| --- |".
Proof. vm_compute. reflexivity. Qed.

End MarkdownFacts.

Import GlobalFunctions ScopeSpec ProxySpec.

(** ** Errors and order of evaluation of filters *)

(** X13. A compound filter with a key other than and/or/not raises
    [Failed to process <context>] caused by [Filter contains unsupported
    keys: ...], listing those keys in order; nothing is evaluated. A filter
    entry that is a boolean, a number or an array raises [Filter entry must
    be a string or object.] *)
Theorem filter_entry_errors
        (evaluation : EvaluationState) (compound : list (string * value))
        (context : string) (st : state) :
  filterExpressionsValid (keys compound) = false ->
  matchesFilter evaluation (VObj compound) context st
  = (Throw (ErrorCause ("Failed to process " +:+ context)
              (Error ("Filter contains unsupported keys: "
                      +:+ String.concat ", "
                            (filter (fun key => negb (isFilterKey key)) (keys compound))))),
     st)
  /\ (forall entry,
         match entry with
         | VBool _ | VNum _ | VBigInt _ | VArr _ => True
         | _ => False
         end ->
         matchesFilter evaluation entry context st
         = (Throw (ErrorCause ("Failed to process " +:+ context)
                     (Error "Filter entry must be a string or object.")), st)).
Proof.
  intros Hkeys. split.
  - rewrite matchesFilter_compound. unfold evaluateCompound.
    rewrite keys_groupsOf, Hkeys. reflexivity.
  - intros entry Hentry. destruct entry; try contradiction; reflexivity.
Qed.

Lemma filter_entry_errors_witness :
  filterExpressionsValid (keys [("and", VArr []); ("any", VArr []); ("nor", VNull)]) = false
  /\ matchesFilter Demo.failingEvaluation
       (VObj [("and", VArr []); ("any", VArr []); ("nor", VNull)]) "base filters"
       initialState
     = (Throw (ErrorCause "Failed to process base filters"
                 (Error "Filter contains unsupported keys: any, nor")), initialState).
Proof.
  split; [reflexivity|].
  apply (proj1 (filter_entry_errors Demo.failingEvaluation
                  [("and", VArr []); ("any", VArr []); ("nor", VNull)]
                  "base filters" initialState eq_refl)).
Defined.

Lemma allMatch_stops (ms : list member) m after context st st1 st2 :
  allMatch ms context st = (Ok true, st1) ->
  m context st1 = (Ok false, st2) ->
  allMatch (ms ++ m :: after) context st = (Ok false, st2).
Proof.
  revert st. induction ms as [|m0 ms IH]; intros st H Hm; cbn [allMatch app] in *.
  - injection H as <-. rewrite (bind_ok _ _ _ _ _ Hm). reflexivity.
  - unfold bind in H |- *. destruct (m0 context st) as [[[|]| | |] st0];
      try discriminate.
    cbn [negb] in *. exact (IH st0 H Hm).
Qed.

Lemma anyMatch_stops (ms : list member) m after context st st1 st2 :
  anyMatch ms context st = (Ok false, st1) ->
  m context st1 = (Ok true, st2) ->
  anyMatch (ms ++ m :: after) context st = (Ok true, st2).
Proof.
  revert st. induction ms as [|m0 ms IH]; intros st H Hm; cbn [anyMatch app] in *.
  - injection H as <-. rewrite (bind_ok _ _ _ _ _ Hm). reflexivity.
  - unfold bind in H |- *. destruct (m0 context st) as [[[|]| | |] st0];
      try discriminate.
    exact (IH st0 H Hm).
Qed.

Lemma orGroup_members (compound : list (string * group)) context entries :
  objGet compound "or" = Some (Some entries) -> entries <> [] ->
  orGroup compound context = anyMatch entries (context +:+ " (or)").
Proof.
  intros H Hne. unfold orGroup. rewrite H.
  destruct entries; [contradiction | reflexivity].
Qed.

(** X14. The members of a group are evaluated in order and no further
    than needed. In an [and] group, after members that match, a member
    that does not match makes the filter false: the members behind it, and
    the [or] and [not] groups, are not looked at, whatever they hold. In an
    [or] group the first member that matches ends the group. *)
Theorem filter_groups_short_circuit
        (evaluation : EvaluationState) (before after : list value) (entry : value)
        (context : string) (st st1 st2 : state) :
  (forall compound,
      filterExpressionsValid (keys compound) = true ->
      objGet compound "and" = Some (VArr (before ++ entry :: after)) ->
      allMatch (map (evaluateFilterNode evaluation) before) (context +:+ " (and)") st
      = (Ok true, st1) ->
      evaluateFilterNode evaluation entry (context +:+ " (and)") st1 = (Ok false, st2) ->
      matchesFilter evaluation (VObj compound) context st = (Ok false, st2))
  /\ (anyMatch (map (evaluateFilterNode evaluation) before) (context +:+ " (or)") st
      = (Ok false, st1) ->
      evaluateFilterNode evaluation entry (context +:+ " (or)") st1 = (Ok true, st2) ->
      matchesFilter evaluation (VObj [("or", VArr (before ++ entry :: after))]) context st
      = (Ok true, st2)).
Proof.
  split.
  - intros compound Hkeys Hand Hbefore Hentry.
    rewrite matchesFilter_compound, evaluateCompound_valid
      by (rewrite keys_groupsOf; exact Hkeys).
    assert (Hgroup : andGroup (groupsOf evaluation compound) context st = (Ok false, st2)).
    { unfold andGroup. rewrite objGet_groupsOf, Hand. cbn [option_map groupOfValue].
      rewrite map_app. cbn [map]. exact (allMatch_stops _ _ _ _ _ _ _ Hbefore Hentry). }
    rewrite (bind_ok _ _ _ _ _ Hgroup). reflexivity.
  - intros Hbefore Hentry. rewrite matchesFilter_compound, evaluateCompound_valid
      by reflexivity.
    assert (Hand : andGroup (groupsOf evaluation [("or", VArr (before ++ entry :: after))])
                     context st = (Ok true, st)) by reflexivity.
    rewrite (bind_ok _ _ _ _ _ Hand). change (negb true) with false. cbv iota.
    assert (Hor : orGroup (groupsOf evaluation [("or", VArr (before ++ entry :: after))])
                    context st = (Ok true, st2)).
    { rewrite (orGroup_members _ context
                 (map (evaluateFilterNode evaluation) (before ++ entry :: after))).
      - rewrite map_app. exact (anyMatch_stops _ _ _ _ _ _ _ Hbefore Hentry).
      - reflexivity.
      - intros Heq. apply map_eq_nil in Heq. destruct before; discriminate Heq. }
    rewrite (bind_ok _ _ _ _ _ Hor). reflexivity.
Qed.

Lemma filter_groups_short_circuit_witness :
  matchesFilter Demo.oracleEvaluation
    (VObj [ ("and", VArr ([VStr "yes"] ++ VStr "no" :: [VNum 1; VObj [("x", VNull)]]));
            ("or", VNum 3) ])
    "base filters" initialState
  = (Ok false, initialState)
  /\ matchesFilter Demo.oracleEvaluation
       (VObj [("or", VArr ([VStr "no"] ++ VStr "yes" :: [VNum 1]))])
       "base filters" initialState
     = (Ok true, initialState).
Proof.
  pose proof (filter_groups_short_circuit Demo.oracleEvaluation [VStr "yes"]
                [VNum 1; VObj [("x", VNull)]] (VStr "no") "base filters"
                initialState initialState initialState) as [Hand _].
  pose proof (filter_groups_short_circuit Demo.oracleEvaluation [VStr "no"]
                [VNum 1] (VStr "yes") "base filters"
                initialState initialState initialState) as [_ Hor].
  split.
  - apply Hand; reflexivity.
  - apply Hor; reflexivity.
Defined.

(** ** Dates and numbers *)

(** X7. Adding a duration to a date does not depend on the side the date
    stands on: for an operand with a duration reading (a finite number, a
    bigint, a string the duration parser reads), both [date + operand] and
    [operand + date] are the date moved by that many milliseconds. *)
Theorem addition_with_date_commutes (t : float) (operand : value) (ms : float) :
  toNullishAwareDuration operand = Some ms ->
  applyAddition (VDate t) operand = Ok (newDate (t + ms)%float)
  /\ applyAddition operand (VDate t) = Ok (newDate (t + ms)%float).
Proof.
  intros H. split.
  - unfold applyAddition. rewrite H. reflexivity.
  - unfold applyAddition. destruct operand; try discriminate H;
      rewrite H; reflexivity.
Qed.

Lemma addition_with_date_commutes_witness :
  toNullishAwareDuration (VStr "1 day") = Some 86400000%float
  /\ applyAddition (VStr "1 day") (VDate 1704067200000)
     = Ok (newDate (1704067200000 + 86400000)%float)
  /\ formatValue (newDate (1704067200000 + 86400000)%float)
     = Ok "2024-01-02T00:00:00.000Z".
Proof.
  assert (H : toNullishAwareDuration (VStr "1 day") = Some 86400000%float)
    by (vm_compute; reflexivity).
  split; [exact H|]. split; [|vm_compute; reflexivity].
  exact (proj2 (addition_with_date_commutes 1704067200000 (VStr "1 day") _ H)).
Defined.

(** X4. [number] returns a finite number or raises, except on a Date,
    whose time value it returns as it is. *)
Theorem number_is_finite (input : value) (n : float) :
  normalizeNumber input = Ok n ->
  (forall t, input <> VDate t) ->
  Js.isFinite n = true.
Proof.
  intros H Hdate.
  assert (Hgeneric : obind (toNumber input) (fun primitive =>
                       if negb (Js.isFinite primitive)
                       then Throw (Error "number() requires convertible numeric values.")
                       else Ok primitive) = Ok n -> Js.isFinite n = true).
  { destruct (toNumber input) as [p| | |]; try discriminate. cbn [obind].
    destruct (Js.isFinite p) eqn:E; [|discriminate]. intros [= <-]. exact E. }
  destruct input; cbn [normalizeNumber] in H; try (exact (Hgeneric H));
    try discriminate.
  - destruct b; injection H as <-; reflexivity.
  - destruct (Js.isFinite n0) eqn:E; [|discriminate]. injection H as <-. exact E.
  - destruct (String.length (Js.trim s) =? 0)%nat; [discriminate|].
    destruct (Js.isFinite (Js.StringToNumber (Js.trim s))) eqn:E; [|discriminate].
    injection H as <-. exact E.
  - exfalso. exact (Hdate t eq_refl).
Qed.

Lemma number_is_finite_witness :
  normalizeNumber (VStr " 0x1F ") = Ok 31%float /\ Js.isFinite 31 = true.
Proof.
  assert (H : normalizeNumber (VStr " 0x1F ") = Ok 31%float) by (vm_compute; reflexivity).
  split; [exact H|].
  apply (number_is_finite (VStr " 0x1F ") 31 H). intros t. discriminate.
Defined.

Example number_of_invalid_date :
  normalizeNumber (VDate PrimFloat.nan) = Ok PrimFloat.nan.
Proof. reflexivity. Qed.

(** *** [max] and [min] *)

Lemma ltb_neg_infinity (x : float) : (x <? PrimFloat.neg_infinity)%float = false.
Proof.
  rewrite ltb_spec. change (Prim2SF PrimFloat.neg_infinity) with (S754_infinity true).
  destruct (Prim2SF x) as [s|s| |s m e]; try destruct s; reflexivity.
Qed.

Lemma infinity_ltb (x : float) : (PrimFloat.infinity <? x)%float = false.
Proof.
  rewrite ltb_spec. change (Prim2SF PrimFloat.infinity) with (S754_infinity false).
  destruct (Prim2SF x) as [s|s| |s m e]; try destruct s; reflexivity.
Qed.

Lemma fold_selects (op : float -> float -> float) (l : list float) (acc : float) :
  (forall a b, op a b = a \/ op a b = b) ->
  fold_left op l acc = acc \/ In (fold_left op l acc) l.
Proof.
  intros Hop. revert acc. induction l as [|x l IH]; intros acc; [left; reflexivity|].
  cbn [fold_left]. destruct (IH (op acc x)) as [H|H].
  - rewrite H. destruct (Hop acc x) as [-> | ->]; [left | right; left]; reflexivity.
  - right. right. exact H.
Qed.

Lemma max2_selects a b : max2 a b = a \/ max2 a b = b.
Proof.
  unfold max2. destruct (a <? b)%float; [right; reflexivity|].
  destruct (b <? a)%float; [left; reflexivity|].
  destruct (get_sign a); [right | left]; reflexivity.
Qed.

Lemma min2_selects a b : min2 a b = a \/ min2 a b = b.
Proof.
  unfold min2. destruct (a <? b)%float; [left; reflexivity|].
  destruct (b <? a)%float; [right; reflexivity|].
  destruct (get_sign a); [left | right]; reflexivity.
Qed.

Lemma mathMax_selects (l : list float) : l <> [] -> In (mathMax l) l.
Proof.
  destruct l as [|x l]; [contradiction|]. intros _. unfold mathMax. cbn [fold_left].
  assert (H : max2 PrimFloat.neg_infinity x = x).
  { unfold max2. rewrite ltb_neg_infinity.
    destruct (PrimFloat.neg_infinity <? x)%float; reflexivity. }
  rewrite H. destruct (fold_selects max2 l x max2_selects) as [-> | Hin];
    [left; reflexivity | right; exact Hin].
Qed.

Lemma mathMin_selects (l : list float) : l <> [] -> In (mathMin l) l.
Proof.
  destruct l as [|x l]; [contradiction|]. intros _. unfold mathMin. cbn [fold_left].
  assert (H : min2 PrimFloat.infinity x = x).
  { unfold min2. rewrite infinity_ltb.
    destruct (x <? PrimFloat.infinity)%float; reflexivity. }
  rewrite H. destruct (fold_selects min2 l x min2_selects) as [-> | Hin];
    [left; reflexivity | right; exact Hin].
Qed.

Lemma ensureNumericArguments_numbers values ns n :
  ensureNumericArguments values = Ok ns -> In n ns ->
  In (VNum n) values /\ Js.isNaN n = false.
Proof.
  intros H Hin.
  assert (Hns : ns = flat_map (fun v => match v with VNum n => [n] | _ => [] end) values
                /\ forallb isNumberValue values = true).
  { unfold ensureNumericArguments in H. destruct values as [|v values]; [discriminate|].
    destruct (forallb isNumberValue (v :: values)); [|discriminate].
    injection H as <-. split; reflexivity. }
  destruct Hns as [-> E]. apply in_flat_map in Hin. destruct Hin as (x & Hx & Hn).
  rewrite forallb_forall in E. specialize (E x Hx).
  destruct x; try (simpl in Hn; contradiction). destruct Hn as [<-|[]].
  split; [exact Hx|]. simpl in E. now apply negb_true_iff in E.
Qed.

(** X5. [max] and [min] return one of their arguments, a number that is
    not NaN; without arguments they raise [At least one value is required.]
    and with an argument that is not a number, or is NaN, they raise [All
    arguments must be numbers.] *)
Theorem max_min_select_an_argument (name : string) (args : list value) :
  name = "max" \/ name = "min" ->
  (args = [] -> applyGlobal name args = Throw (Error "At least one value is required."))
  /\ (args <> [] -> forallb isNumberValue args = false ->
      applyGlobal name args = Throw (Error "All arguments must be numbers."))
  /\ (forall v, applyGlobal name args = Ok v ->
                exists n, v = VNum n /\ In (VNum n) args /\ Js.isNaN n = false).
Proof.
  intros Hname.
  assert (Happly : applyGlobal name args
                   = obind (ensureNumericArguments args) (fun ns =>
                       Ok (VNum (if String.eqb name "max" then mathMax ns else mathMin ns)))).
  { destruct Hname as [-> | ->]; reflexivity. }
  rewrite Happly. split; [|split].
  - intros ->. reflexivity.
  - intros Hne Hnum. unfold ensureNumericArguments. rewrite Hnum.
    destruct args; [contradiction | reflexivity].
  - intros v. destruct (ensureNumericArguments args) as [ns| | |] eqn:E;
      try discriminate. cbn [obind]. intros [= <-].
    assert (Hns : ns <> []).
    { unfold ensureNumericArguments in E. destruct args as [|a args]; [discriminate|].
      destruct (forallb isNumberValue (a :: args)) eqn:F; [|discriminate].
      injection E as <-. cbn [forallb] in F. apply andb_prop in F. destruct F as [F _].
      destruct a; try discriminate F. cbn [flat_map app]. discriminate. }
    eexists. split; [reflexivity|].
    apply (ensureNumericArguments_numbers args ns _ E).
    destruct (String.eqb name "max"); [apply mathMax_selects | apply mathMin_selects];
      exact Hns.
Qed.

Lemma max_min_select_an_argument_witness :
  applyGlobal "max" [VNum 3; VNum (-1); VNum 7.5] = Ok (VNum 7.5)
  /\ exists n, VNum 7.5 = VNum n /\ In (VNum n) [VNum 3; VNum (-1); VNum 7.5]
               /\ Js.isNaN n = false.
Proof.
  assert (H : applyGlobal "max" [VNum 3; VNum (-1); VNum 7.5] = Ok (VNum 7.5))
    by (vm_compute; reflexivity).
  split; [exact H|].
  exact (proj2 (proj2 (max_min_select_an_argument "max" [VNum 3; VNum (-1); VNum 7.5]
                         (or_introl eq_refl))) _ H).
Defined.

(** *** Paths of [link], [file] and [image] *)

Lemma dropWhile_head {A} (p : A -> bool) (l : list A) :
  match Js.dropWhile p l with
  | [] => True
  | x :: _ => p x = false
  end.
Proof.
  induction l as [|x l IH]; simpl; [exact I|].
  destruct (p x) eqn:E; [exact IH | exact E].
Qed.

Lemma dropWhile_fixed {A} (p : A -> bool) (l : list A) :
  match l with [] => True | x :: _ => p x = false end -> Js.dropWhile p l = l.
Proof. destruct l as [|x l]; simpl; [reflexivity|]. intros ->. reflexivity. Qed.

Lemma dropWhile_keeps_last {A} (p : A -> bool) (l : list A) (x : A) :
  p x = false -> exists l', Js.dropWhile p (l ++ [x]) = l' ++ [x].
Proof.
  intros Hx. induction l as [|y l IH]; simpl.
  - rewrite Hx. exists []. reflexivity.
  - destruct (p y); [exact IH|]. exists (y :: l). reflexivity.
Qed.

Lemma trimChars_idempotent (l : list ascii) :
  Js.trimChars (Js.trimChars l) = Js.trimChars l.
Proof.
  unfold Js.trimChars, Js.trimStartChars, Js.trimEndChars.
  pose proof (dropWhile_head Js.isWhiteSpace l) as Hhead.
  set (l1 := Js.dropWhile Js.isWhiteSpace l) in *.
  pose proof (dropWhile_head Js.isWhiteSpace (rev l1)) as Hlast.
  assert (Hstart : Js.dropWhile Js.isWhiteSpace
                     (rev (Js.dropWhile Js.isWhiteSpace (rev l1)))
                   = rev (Js.dropWhile Js.isWhiteSpace (rev l1))).
  { apply dropWhile_fixed. destruct l1 as [|x r]; [exact I|].
    simpl rev at 2.
    destruct (dropWhile_keeps_last Js.isWhiteSpace (rev r) x Hhead) as [l' ->].
    rewrite rev_app_distr. exact Hhead. }
  rewrite Hstart, rev_involutive.
  rewrite (dropWhile_fixed _ _ Hlast). reflexivity.
Qed.

Lemma trim_idempotent (s : string) : Js.trim (Js.trim s) = Js.trim s.
Proof.
  unfold Js.trim. unfold Js.chars at 1, Js.str at 2.
  rewrite list_ascii_of_string_of_list_ascii. now rewrite trimChars_idempotent.
Qed.

Lemma nonEmptyTrimmed_trimmed candidate path :
  nonEmptyTrimmed candidate = Some path -> path <> "" /\ Js.trim path = path.
Proof.
  unfold nonEmptyTrimmed. destruct candidate as [[ | | | | | s | | | | | | | | ]|];
    try discriminate.
  destruct (0 <? String.length (Js.trim s))%nat eqn:E; [|discriminate].
  intros [= <-]. split; [|apply trim_idempotent].
  intros Heq. rewrite Heq in E. discriminate.
Qed.

Lemma normalizePathInput_trimmed input path :
  normalizePathInput input = Ok (Some path) -> path <> "" /\ Js.trim path = path.
Proof.
  destruct input; cbn [normalizePathInput]; try discriminate.
  - destruct (String.length (Js.trim s) =? 0)%nat eqn:E; [discriminate|].
    intros [= <-]. split; [|apply trim_idempotent].
    intros Heq. rewrite Heq in E. discriminate.
  - intros [= H]. cbn [firstCandidate] in H.
    repeat match type of H with
           | match nonEmptyTrimmed ?c with _ => _ end = _ =>
               let E := fresh "E" in
               destruct (nonEmptyTrimmed c) eqn:E;
               [injection H as <-; exact (nonEmptyTrimmed_trimmed _ _ E)|]
           end.
    discriminate.
Qed.

(** X6. [link] and [file] never make a link with an empty path: their
    result holds a path that is not empty and has no white space around it,
    with [isEmbed] false; where the argument gives no such path they raise. *)
Theorem link_paths_are_trimmed (name : string) (args : list value) (v : value) :
  name = "link" \/ name = "file" ->
  applyGlobal name args = Ok v ->
  exists path props,
    v = VObj (("path", VStr path) :: ("isEmbed", VBool false) :: props)
    /\ path <> "" /\ Js.trim path = path
    /\ normalizePathInput (arg args 0) = Ok (Some path).
Proof.
  intros [-> | ->]; cbn; destruct (normalizePathInput (arg args 0)) as [[path|]| | |] eqn:E;
    cbn [obind]; try discriminate; intros [= <-];
    destruct (normalizePathInput_trimmed _ _ E) as [Hne Htrim];
    eexists path, _; (split; [reflexivity|]); (split; [exact Hne|]);
    (split; [exact Htrim | reflexivity]).
Qed.

Lemma link_paths_are_trimmed_witness :
  applyGlobal "link" [VObj [("path", VStr "  "); ("target", VStr " notes/a.md ")]; VStr "A"]
  = Ok (VObj [("path", VStr "notes/a.md"); ("isEmbed", VBool false); ("display", VStr "A")])
  /\ Js.trim "notes/a.md" = "notes/a.md".
Proof.
  assert (H : applyGlobal "link"
                [VObj [("path", VStr "  "); ("target", VStr " notes/a.md ")]; VStr "A"]
              = Ok (VObj [("path", VStr "notes/a.md"); ("isEmbed", VBool false);
                          ("display", VStr "A")]))
    by (vm_compute; reflexivity).
  split; [exact H|].
  pose proof (link_paths_are_trimmed "link" _ _ (or_introl eq_refl) H) as R.
  destruct R as (path & props & Hv & _ & Htrim & _).
  injection Hv as <- _. exact Htrim.
Defined.

Example link_without_path :
  applyGlobal "link" [VStr "   "]
  = Throw (Error "link() requires a string or file-like value.")
  /\ applyGlobal "file" [VNum 3]
     = Throw (Error "file() requires a string, file, link, or URL value.").
Proof. split; reflexivity. Qed.

(** ** Names the scope binds *)

Lemma scope_lookup (file : Vault.VaultFile) (key : string) :
  buildScope file !! key = scopeBinding file key.
Proof.
  unfold buildScope, scopeBinding.
  destruct (String.eqb_spec key "formula") as [->|Hne]; [apply lookup_insert_eq|].
  rewrite lookup_insert_ne by congruence.
  rewrite fold_addBuiltin_lookup, fold_addGlobal_expand, fold_addBuiltin_lookup,
    fold_promote_lookup, base_lookup.
  unfold promotedEntry, globalsWithAliases. cbn [firstSome].
  destruct (objGet (baseEntries file) key); [reflexivity|].
  destruct (isValidIdentifier key && negb (memString key globalFunctionKeys)).
  - destruct (objGet (default [] (Vault.frontmatter file)) key); [reflexivity|].
    destruct (objGet (flat_map _ _) key); [reflexivity|].
    destruct (objGet BUILTIN_SCOPE_ENTRIES key); reflexivity.
  - destruct (objGet (flat_map _ _) key); [reflexivity|].
    destruct (objGet BUILTIN_SCOPE_ENTRIES key); reflexivity.
Qed.

(** X8. A reserved identifier is never bound to a frontmatter value:
    whatever the note holds, [arguments], [eval], [prototype],
    [constructor], [__proto__], [super], [globalThis] and [window] are not
    in scope, and [if] is the global function. *)
Theorem reserved_identifiers_never_promoted (file : Vault.VaultFile) (name : string) :
  In name RESERVED_IDENTIFIERS ->
  buildScope file !! name
  = if String.eqb name "if" then Some (VFun (GlobalFn "if")) else None.
Proof.
  intros Hin. rewrite scope_lookup. unfold RESERVED_IDENTIFIERS in Hin. cbn [In] in Hin.
  repeat (destruct Hin as [<-|Hin]; [reflexivity|]). contradiction.
Qed.

Lemma reserved_identifiers_never_promoted_witness :
  In "window" RESERVED_IDENTIFIERS
  /\ buildScope (Demo.createTestFile [("window", VStr "mine"); ("if", VNum 1)]) !! "window"
     = None
  /\ fst (evaluate_ (ScopeSample.evaluationOf [("window", VStr "mine")])
            "window" "property" initialState)
     = Throw (ErrorCause "Failed to evaluate property"
                (ReferenceError (Duration.quote "window" +:+ " is not defined"))).
Proof.
  assert (Hin : In "window" RESERVED_IDENTIFIERS) by (simpl; tauto).
  split; [exact Hin|]. split; [|vm_compute; reflexivity].
  exact (reserved_identifiers_never_promoted
           (Demo.createTestFile [("window", VStr "mine"); ("if", VNum 1)]) "window" Hin).
Defined.

(** X9. The aliases the source rewrite puts in place of [if] and [file]
    are ordinary identifiers of the scope: [_if] and [_fileFn] are the
    global functions unless the note has a frontmatter key of that name,
    which is then bound in their place. *)
Theorem alias_bindings (file : Vault.VaultFile) :
  buildScope file !! "_if"
  = Some (default (VFun (GlobalFn "if"))
            (objGet (default [] (Vault.frontmatter file)) "_if"))
  /\ buildScope file !! "_fileFn"
     = Some (default (VFun (GlobalFn "file"))
               (objGet (default [] (Vault.frontmatter file)) "_fileFn")).
Proof.
  split; rewrite scope_lookup; unfold scopeBinding, promotedEntry; cbn [firstSome];
    change (isValidIdentifier _ && negb (memString _ globalFunctionKeys)) with true;
    cbv iota; cbn [String.eqb Ascii.eqb Bool.eqb objGet baseEntries];
    destruct (objGet (default [] (Vault.frontmatter file)) _); reflexivity.
Qed.

Example alias_shadowed_by_frontmatter :
  fst (evaluate_ (ScopeSample.evaluationOf []) "if(true, 1, 2)" "property" initialState)
  = Ok (VNum 1)
  /\ fst (evaluate_ (ScopeSample.evaluationOf [("_if", VNum 0)])
            "if(true, 1, 2)" "property" initialState)
     = Throw (ErrorCause "Failed to evaluate property"
                (TypeError "Attempted to call a non-function value.")).
Proof. split; vm_compute; reflexivity. Qed.

(** ** Errors of an evaluation *)

(** X10. Every error an evaluation raises says what was being done: the
    closure [evaluate] raises [Failed to parse expression "..."], with
    the parser's error as cause and the tables untouched, or [Failed to
    evaluate <label>] with the evaluator's error as cause; an access of
    [formula.k] raises the circular reference error for [k] or [Failed to
    evaluate formula "k"] with the error of the body as cause. *)
Theorem evaluation_errors_carry_context
        (jsep : string -> expr + error) (file : Vault.VaultFile)
        (scope : gmap string value) (defs : list (string * value))
        (expression label : string) (fuel : nat) (k : string) (st st' : state) (e : error) :
  (evaluateWithFuel jsep file scope defs fuel expression label st = (Throw e, st') ->
   (exists cause,
       e = ErrorCause ("Failed to parse expression "
                       +:+ Duration.quote
                             (Rewrite.normalizeExpressionSource (Js.trim expression))) cause
       /\ jsep (Rewrite.normalizeExpressionSource (Js.trim expression)) = inr cause
       /\ st' = st)
   \/ exists cause, e = ErrorCause ("Failed to evaluate " +:+ label) cause)
  /\ (formulaGet jsep file scope defs fuel k st = (Throw e, st') ->
      (e = circularError k /\ st' = st)
      \/ exists cause,
           e = ErrorCause ("Failed to evaluate formula " +:+ Duration.quote k) cause).
Proof.
  split.
  - unfold evaluateWithFuel, evaluate.
    destruct (String.length (Js.trim expression) =? 0)%nat; [discriminate|].
    unfold bind, compiled.
    destruct (compiledExpressions st !! _) as [c|].
    + unfold catch. destruct (evaluateExpressionNode _ _ _ _ c st) as [[v|cause|w|] st1];
        try discriminate.
      intros [= <- _]. right. exists cause. reflexivity.
    + unfold compileExpression.
      destruct (jsep _) as [c|cause] eqn:E.
      * unfold catch. destruct (evaluateExpressionNode _ _ _ _ c _) as [[v|cause|w|] st1];
          try discriminate.
        intros [= <- _]. right. exists cause. reflexivity.
      * intros [= <- <-]. left. exists cause. split; [reflexivity|].
        split; reflexivity.
  - rewrite formulaGet_unfold. unfold formulaGetWith.
    destruct (formulaCache st !! k); [discriminate|].
    destruct (negb (hasOwn defs k)); [discriminate|].
    destruct (bool_decide (k ∈ evaluating st));
      [intros [= <- <-]; left; split; reflexivity|].
    destruct (objGet defs k) as [[ | | | | | body | | | | | | | | ]|]; try discriminate.
    destruct (String.length (Js.trim body) =? 0)%nat; [discriminate|].
    destruct fuel as [|fuel]; [discriminate|]. unfold finally.
    destruct (evaluate _ _ _ _ _ _ _ _) as [[v|cause|w|] st1]; try discriminate.
    intros [= <- _]. right. exists cause. reflexivity.
Qed.

Lemma evaluation_errors_carry_context_witness :
  exists st' cause,
    evaluateWithFuel Demo.jsep (Demo.createTestFile []) (buildScope (Demo.createTestFile []))
      Demo.cyclicFormulas 5 "1 +" "property" initialState
    = (Throw (ErrorCause ("Failed to parse expression " +:+ Duration.quote "1 +") cause), st')
    /\ st' = initialState.
Proof.
  assert (E : exists e st',
             evaluateWithFuel Demo.jsep (Demo.createTestFile [])
               (buildScope (Demo.createTestFile [])) Demo.cyclicFormulas 5 "1 +"
               "property" initialState = (Throw e, st')
             /\ Demo.jsep "1 +" = inr (Error "Unexpected token"))
    by (vm_compute; eexists; eexists; split; reflexivity).
  destruct E as (e & st' & E & Hparse).
  pose proof (proj1 (evaluation_errors_carry_context Demo.jsep (Demo.createTestFile [])
                       (buildScope (Demo.createTestFile [])) Demo.cyclicFormulas
                       "1 +" "property" 5 "a" initialState st' e) E) as R.
  destruct R as [(cause & -> & _ & ->)|(cause & ->)].
  - exists initialState, cause. split; [exact E | reflexivity].
  - exfalso. revert E. vm_compute. discriminate.
Defined.

(** ** Sources the rewrite leaves alone *)

Lemma In_skipn {A} (x : A) n (l : list A) : In x (skipn n l) -> In x l.
Proof.
  intros H. rewrite <- (firstn_skipn n l). apply in_or_app. right. exact H.
Qed.

(** X15. An expression without an opening parenthesis has no call to
    rewrite: the source rewrite returns it as it is. *)
Theorem rewrite_needs_a_call (expression : string) :
  ~ In "("%char (Js.chars expression) ->
  Rewrite.normalizeExpressionSource expression = expression.
Proof.
  intros Hno. unfold Rewrite.normalizeExpressionSource, Rewrite.normalizeChars.
  rewrite (scan_agrees _ _ _ (agrees_initial _)) by (simpl; lia).
  rewrite rewrite_without_occurrence.
  - apply string_of_list_ascii_of_string.
  - intros index. rewrite rewrittenAt_table.
    destruct (find _ Rewrite.GLOBAL_FUNCTION_ALIASES) as [entry|] eqn:E; [|reflexivity].
    exfalso. apply find_some in E. destruct E as [_ E].
    unfold RewriteSpec.rewritable in E. apply andb_prop in E. destruct E as [_ E].
    unfold Rewrite.isChar, RewriteSpec.nextNonWhiteSpace in E.
    destruct (find _ (skipn _ _)) as [c|] eqn:F; [|discriminate].
    apply find_some in F. destruct F as [Hin _].
    apply Ascii.eqb_eq in E. subst c. exact (Hno (In_skipn _ _ _ Hin)).
Qed.

Lemma rewrite_needs_a_call_witness :
  Rewrite.normalizeExpressionSource "file.name + if_done + 'if x'"
  = "file.name + if_done + 'if x'".
Proof.
  apply rewrite_needs_a_call. vm_compute.
  intros H. repeat (destruct H as [H|H]; [discriminate H|]). exact H.
Defined.

(** ** One segment of a duration *)
Section DurationSegment.
Import Regex Duration DurationSpec.

Lemma classOf_Digit : classOf Digit Js.isDigit.
Proof. intros [|c r]; reflexivity. Qed.

Lemma classOf_Space : classOf Space Js.isWhiteSpace.
Proof. intros [|c r]; reflexivity. Qed.

(** Greedy iteration reads the whole run of characters of the class first. *)
Lemma iterate_class cls p (xs rest : list ascii) fuel :
  classOf cls p -> forallb p xs = true -> (length xs <= fuel)%nat ->
  startsOutside p rest ->
  exists more, iterate (run true cls) fuel (xs ++ rest) = ([], rest) :: more.
Proof.
  intros Hcls. revert fuel. induction xs as [|x xs IH]; intros fuel Hxs Hfuel Hrest.
  - cbn [app]. destruct fuel as [|fuel]; [exists []; reflexivity|].
    cbn [iterate]. rewrite Hcls. destruct rest as [|c r]; [exists []; reflexivity|].
    simpl in Hrest. rewrite Hrest. exists []. reflexivity.
  - destruct fuel as [|fuel]; [simpl in Hfuel; lia|].
    cbn [forallb] in Hxs. apply andb_prop in Hxs. destruct Hxs as [Hx Hxs].
    cbn [iterate app]. rewrite Hcls, Hx. cbn [flat_map].
    assert (Hlt : (length (xs ++ rest) <? length (x :: xs ++ rest))%nat = true)
      by (apply Nat.ltb_lt; simpl; lia).
    rewrite Hlt.
    destruct (IH fuel Hxs ltac:(simpl in Hfuel; lia) Hrest) as [more ->].
    cbn [map app]. eexists. reflexivity.
Qed.

Lemma run_Star_class cls p (xs rest : list ascii) :
  classOf cls p -> forallb p xs = true -> startsOutside p rest ->
  exists more, run true (Star cls) (xs ++ rest) = ([], rest) :: more.
Proof.
  intros Hcls Hxs Hrest. cbn [run].
  apply (iterate_class cls p xs rest _ Hcls Hxs); [|exact Hrest].
  rewrite length_app. lia.
Qed.

Lemma run_Plus_class cls p (xs rest : list ascii) :
  classOf cls p -> xs <> [] -> forallb p xs = true -> startsOutside p rest ->
  exists more, run true (Plus cls) (xs ++ rest) = ([], rest) :: more.
Proof.
  intros Hcls Hne Hxs Hrest. destruct xs as [|x xs]; [contradiction|].
  cbn [forallb] in Hxs. apply andb_prop in Hxs. destruct Hxs as [Hx Hxs].
  cbn [run app]. rewrite Hcls, Hx. cbn [flat_map].
  destruct (iterate_class cls p xs rest (length (xs ++ rest)) Hcls Hxs
              ltac:(rewrite length_app; lia) Hrest) as [more ->].
  cbn [map app]. eexists. reflexivity.
Qed.

Lemma digit_is_plain (c : ascii) :
  Js.isDigit c = true ->
  Js.isWhiteSpace c = false /\ sameChar true "-"%char c = false.
Proof.
  destruct c as [[] [] [] [] [] [] [] []]; intros H; try discriminate H;
    split; reflexivity.
Qed.

Lemma space_is_plain (c : ascii) :
  Js.isWhiteSpace c = true ->
  Js.isDigit c = false /\ sameChar true "."%char c = false.
Proof.
  destruct c as [[] [] [] [] [] [] [] []]; intros H; try discriminate H;
    split; reflexivity.
Qed.

Lemma run_Lit_mismatch (c x : ascii) (r : list ascii) :
  sameChar true c x = false -> run true (Lit (String c EmptyString)) (x :: r) = [].
Proof. intros H. cbn [run Js.chars list_ascii_of_string matchLit]. rewrite H. reflexivity. Qed.

Lemma consumed_prefix (xs rest : list ascii) : consumed (xs ++ rest) rest = Js.str xs.
Proof.
  unfold consumed. rewrite length_app, Nat.add_sub.
  rewrite firstn_app, Nat.sub_diag, firstn_all. cbn [firstn]. now rewrite app_nil_r.
Qed.

(** The first match of the number group on digits followed by something
    that starts neither with a digit nor with a dot. *)
Lemma run_NUMBER_GROUP (ds rest : list ascii) :
  ds <> [] -> forallb Js.isDigit ds = true ->
  startsOutside Js.isDigit rest ->
  match rest with c :: _ => sameChar true "."%char c = false | [] => True end ->
  exists more, run true NUMBER_GROUP (ds ++ rest) = ([Js.str ds], rest) :: more.
Proof.
  intros Hne Hds Hrest Hdot. unfold NUMBER_GROUP.
  assert (Hsign : run true (Opt (Lit "-")) (ds ++ rest) = [([], ds ++ rest)]).
  { destruct ds as [|d ds]; [contradiction|]. cbn [forallb] in Hds.
    apply andb_prop in Hds. destruct Hds as [Hd _].
    change (run true (Opt (Lit "-")) ((d :: ds) ++ rest))
      with (run true (Lit "-") (d :: ds ++ rest) ++ [([], d :: ds ++ rest)]).
    rewrite (run_Lit_mismatch "-" d _ (proj2 (digit_is_plain d Hd))). reflexivity. }
  destruct (run_Plus_class Digit Js.isDigit ds rest classOf_Digit Hne Hds Hrest)
    as [more Hplus].
  assert (Hfrac : run true (Opt (Seq (Lit ".") (Plus Digit))) rest = [([], rest)]).
  { change (run true (Opt (Seq (Lit ".") (Plus Digit))) rest)
      with (flat_map (fun '(c1, rest1) =>
                        map (fun '(c2, rest2) => (c1 ++ c2, rest2))
                            (run true (Plus Digit) rest1))
                     (run true (Lit ".") rest) ++ [([], rest)]).
    destruct rest as [|c r]; [reflexivity|].
    rewrite (run_Lit_mismatch "." c r Hdot). reflexivity. }
  change (run true (Group (Seq (Opt (Lit "-"))
                             (Seq (Plus Digit) (Opt (Seq (Lit ".") (Plus Digit))))))
              (ds ++ rest))
    with (map (fun '(c, r) => (consumed (ds ++ rest) r :: c, r))
              (flat_map (fun '(c1, rest1) =>
                           map (fun '(c2, rest2) => (c1 ++ c2, rest2))
                               (flat_map (fun '(c3, rest3) =>
                                            map (fun '(c4, rest4) => (c3 ++ c4, rest4))
                                                (run true (Opt (Seq (Lit ".") (Plus Digit)))
                                                     rest3))
                                         (run true (Plus Digit) rest1)))
                        (run true (Opt (Lit "-")) (ds ++ rest)))).
  rewrite Hsign. cbn [flat_map]. rewrite Hplus. cbn [flat_map]. rewrite Hfrac.
  cbn [map app]. rewrite consumed_prefix. eexists. reflexivity.
Qed.

(** The first match of the pattern on digits, white space and a unit word. *)
Lemma run_DURATION_PATTERN (ds gap unit : list ascii) (mult : float) :
  ds <> [] -> forallb Js.isDigit ds = true -> forallb Js.isWhiteSpace gap = true ->
  readsUnit unit mult ->
  exists more,
    run true DURATION_PATTERN (ds ++ gap ++ unit)
    = ([Js.str ds; Js.str unit], []) :: more.
Proof.
  intros Hne Hds Hgap (Hfirst & _ & [moreU HU] & _).
  destruct unit as [|u0 unit]; [contradiction|]. destruct Hfirst as (Hud & Huw & Hudot).
  destruct (run_NUMBER_GROUP ds (gap ++ u0 :: unit) Hne Hds) as [moreN HN].
  { destruct gap as [|g gap]; [exact Hud|]. cbn [forallb] in Hgap.
    apply andb_prop in Hgap. exact (proj1 (space_is_plain g (proj1 Hgap))). }
  { destruct gap as [|g gap]; [exact Hudot|]. cbn [forallb] in Hgap.
    apply andb_prop in Hgap. exact (proj2 (space_is_plain g (proj1 Hgap))). }
  destruct (run_Star_class Space Js.isWhiteSpace gap (u0 :: unit) classOf_Space Hgap Huw)
    as [moreS HS].
  unfold DURATION_PATTERN.
  change (run true (Seq NUMBER_GROUP (Seq (Star Space) UNIT_GROUP))
              (ds ++ gap ++ u0 :: unit))
    with (flat_map (fun '(c1, rest1) =>
                      map (fun '(c2, rest2) => (c1 ++ c2, rest2))
                          (flat_map (fun '(c3, rest3) =>
                                       map (fun '(c4, rest4) => (c3 ++ c4, rest4))
                                           (run true UNIT_GROUP rest3))
                                    (run true (Star Space) rest1)))
                   (run true NUMBER_GROUP (ds ++ gap ++ u0 :: unit))).
  rewrite HN. cbn [flat_map]. rewrite HS. cbn [flat_map]. rewrite HU.
  cbn [map app]. eexists. reflexivity.
Qed.

Lemma trimChars_fixed (l : list ascii) :
  startsOutside Js.isWhiteSpace l ->
  Js.dropWhile Js.isWhiteSpace (rev l) = rev l ->
  Js.trimChars l = l.
Proof.
  intros Hhead Hlast. unfold Js.trimChars, Js.trimStartChars, Js.trimEndChars.
  assert (H : Js.dropWhile Js.isWhiteSpace l = l).
  { destruct l as [|c r]; [reflexivity|]. simpl in *. now rewrite Hhead. }
  rewrite H, Hlast. apply rev_involutive.
Qed.

Lemma dropWhile_app_fixed {A} (p : A -> bool) (a b : list A) :
  a <> [] -> Js.dropWhile p a = a -> Js.dropWhile p (a ++ b) = a ++ b.
Proof.
  destruct a as [|x a]; [contradiction|]. intros _ H. simpl in *.
  destruct (p x) eqn:E; [|reflexivity].
  exfalso. assert (Hlen : length (Js.dropWhile p a) = S (length a)) by (now rewrite H).
  assert (Hle : forall l : list A, (length (Js.dropWhile p l) <= length l)%nat).
  { induction l as [|y l IH]; simpl; [lia|]. destruct (p y); simpl; lia. }
  specialize (Hle a). lia.
Qed.

(** [parseDuration] on a number, optional white space and a unit word. *)
Lemma parseDuration_segment (ds gap unit : list ascii) (mult : float) :
  ds <> [] -> forallb Js.isDigit ds = true -> forallb Js.isWhiteSpace gap = true ->
  readsUnit unit mult ->
  parseDuration (Js.str (ds ++ gap ++ unit))
  = if Js.isFinite (Js.parseFloat (Js.str ds))
    then Ok (0 + Js.parseFloat (Js.str ds) * mult)%float
    else Throw (Error ("Invalid duration value " +:+ quote (Js.str ds) +:+ " in "
                       +:+ quote (Js.str (ds ++ gap ++ unit)) +:+ ".")).
Proof.
  intros Hne Hds Hgap Hunit.
  destruct (run_DURATION_PATTERN ds gap unit mult Hne Hds Hgap Hunit) as [more Hrun].
  destruct Hunit as (Hfirst & Hlast & _ & Hmult).
  assert (Htrim : Js.chars (Js.trim (Js.str (ds ++ gap ++ unit))) = ds ++ gap ++ unit).
  { unfold Js.trim. unfold Js.chars at 2. rewrite !list_ascii_of_string_of_list_ascii.
    apply trimChars_fixed.
    - destruct ds as [|d ds]; [contradiction|]. cbn [forallb] in Hds.
      apply andb_prop in Hds. exact (proj1 (digit_is_plain d (proj1 Hds))).
    - rewrite !rev_app_distr, <- app_assoc. apply dropWhile_app_fixed; [|exact Hlast].
      destruct unit; [contradiction|]. simpl. intros H. apply app_eq_nil in H.
      destruct H as [_ H]. discriminate H. }
  unfold parseDuration. rewrite Htrim.
  assert (Hlen : (length (ds ++ gap ++ unit) =? 0)%nat = false).
  { destruct ds; [contradiction | reflexivity]. }
  rewrite Hlen. remember (ds ++ gap ++ unit) as subject eqn:Hsubject.
  assert (Hexec : exec true DURATION_PATTERN subject 0
                  = Some {| index := 0; captures := [Js.str ds; Js.str unit];
                            lastIndex := length subject |}).
  { unfold exec. cbn [Nat.ltb Nat.leb skipn].
    clear Hsubject Htrim. destruct subject as [|c r]; [discriminate Hlen|].
    change (skipn 0 (c :: r)) with (c :: r).
    cbn [searchFrom]. rewrite Hrun. cbn [length]. reflexivity. }
  assert (Hend : exec true DURATION_PATTERN subject (length subject) = None).
  { unfold exec. rewrite Nat.ltb_irrefl, skipn_all. reflexivity. }
  cbn [parseLoop]. rewrite Hexec.
  cbn [index captures lastIndex nth Nat.eqb negb andb].
  destruct (Js.isFinite (Js.parseFloat (Js.str ds))); cbn [negb]; [|reflexivity].
  rewrite Hmult.
  destruct (length subject) as [|n] eqn:Hn; [discriminate Hlen|].
  cbn [parseLoop]. rewrite Hend. cbn [negb].
  rewrite ?Hn, Nat.ltb_irrefl. reflexivity.
Qed.

Lemma chars_of_append (a b : string) : Js.chars (a +:+ b) = Js.chars a ++ Js.chars b.
Proof. induction a as [|c a IH]; simpl; [reflexivity | now rewrite <- IH]. Qed.

Lemma readable_units_read unit mult :
  In (unit, mult) READABLE_UNITS -> readsUnit (Js.chars unit) mult.
Proof.
  intros Hin. vm_compute in Hin.
  repeat (destruct Hin as [Hin|Hin];
          [injection Hin as <- <-;
           split; [repeat split|];
           split; [reflexivity|];
           split; [eexists; vm_compute; reflexivity | reflexivity]|]).
  contradiction.
Qed.

(** X2. A number written in digits, followed by optional white space and
    a unit word other than [min], [mins], [minute] and [minutes], parses to
    the number times the multiplier of the word: [y], [year], [years], [M],
    [month], [months], [w], [week], [weeks], [d], [day], [days], [h],
    [hour], [hours], [m], [s], [sec], [secs], [second], [seconds]. So [5m]
    is five minutes and [5M] five months. A number too large for a finite
    value raises [Invalid duration value]. *)
Theorem parseDuration_single_segment (n gap unit : string) (mult : float) :
  n <> "" ->
  forallb Js.isDigit (Js.chars n) = true ->
  forallb Js.isWhiteSpace (Js.chars gap) = true ->
  In (unit, mult) READABLE_UNITS ->
  parseDuration (n +:+ gap +:+ unit)
  = if Js.isFinite (Js.parseFloat n)
    then Ok (0 + Js.parseFloat n * mult)%float
    else Throw (Error ("Invalid duration value " +:+ quote n +:+ " in "
                       +:+ quote (n +:+ gap +:+ unit) +:+ ".")).
Proof.
  intros Hne Hn Hgap Hunit.
  pose proof (parseDuration_segment (Js.chars n) (Js.chars gap) (Js.chars unit) mult) as H.
  rewrite <- !chars_of_append in H. unfold Js.str, Js.chars in H.
  rewrite !string_of_list_ascii_of_string in H. apply H.
  - destruct n; [contradiction | discriminate].
  - exact Hn.
  - exact Hgap.
  - exact (readable_units_read unit mult Hunit).
Qed.

Lemma parseDuration_single_segment_witness :
  parseDuration ("90" +:+ "  " +:+ "m") = Ok 5400000%float
  /\ parseDuration ("90" +:+ "" +:+ "M") = Ok 233280000000%float.
Proof.
  split.
  - rewrite (parseDuration_single_segment "90" "  " "m" MILLISECONDS_IN_MINUTE);
      [vm_compute; reflexivity | discriminate | reflexivity | reflexivity
      | vm_compute; tauto].
  - rewrite (parseDuration_single_segment "90" "" "M" MILLISECONDS_IN_MONTH);
      [vm_compute; reflexivity | discriminate | reflexivity | reflexivity
      | vm_compute; tauto].
Defined.

End DurationSegment.

(** ** Durations without a number *)
Section DurationWithoutDigit.
Import Regex Duration DurationSpec.

Lemma run_Plus_Digit_none (l : list ascii) :
  startsOutside Js.isDigit l -> run true (Plus Digit) l = [].
Proof.
  intros H. cbn [run]. destruct l as [|c r]; [reflexivity|].
  simpl in H. rewrite H. reflexivity.
Qed.

Lemma matchLit_one (c : ascii) (l rest : list ascii) :
  matchLit true [c] l = Some rest -> exists x, l = x :: rest.
Proof.
  destruct l as [|x r]; [discriminate|]. cbn [matchLit].
  destruct (sameChar true c x); [|discriminate]. intros [= <-]. now exists x.
Qed.

Lemma run_NUMBER_GROUP_none (l : list ascii) :
  existsb Js.isDigit l = false -> run true NUMBER_GROUP l = [].
Proof.
  intros H.
  assert (Hl : startsOutside Js.isDigit l).
  { destruct l as [|c r]; [exact I|]. cbn [existsb] in H.
    apply orb_false_elim in H. exact (proj1 H). }
  assert (Htl : forall x r, l = x :: r -> startsOutside Js.isDigit r).
  { intros x r ->. cbn [existsb] in H. apply orb_false_elim in H.
    destruct H as [_ H]. destruct r as [|c r]; [exact I|]. cbn [existsb] in H.
    apply orb_false_elim in H. exact (proj1 H). }
  unfold NUMBER_GROUP.
  change (run true (Group (Seq (Opt (Lit "-"))
                             (Seq (Plus Digit) (Opt (Seq (Lit ".") (Plus Digit))))))
              l)
    with (map (fun '(c, r) => (consumed l r :: c, r))
              (flat_map (fun '(c1, rest1) =>
                           map (fun '(c2, rest2) => (c1 ++ c2, rest2))
                               (flat_map (fun '(c3, rest3) =>
                                            map (fun '(c4, rest4) => (c3 ++ c4, rest4))
                                                (run true (Opt (Seq (Lit ".") (Plus Digit)))
                                                     rest3))
                                         (run true (Plus Digit) rest1)))
                        (match matchLit true ["-"%char] l with
                         | Some rest => [([], rest)]
                         | None => []
                         end ++ [([], l)]))).
  destruct (matchLit true ["-"%char] l) as [rest|] eqn:E.
  - destruct (matchLit_one _ _ _ E) as [x Hx].
    cbn [app flat_map]. rewrite (run_Plus_Digit_none rest (Htl x rest Hx)).
    rewrite (run_Plus_Digit_none l Hl). reflexivity.
  - cbn [app flat_map]. rewrite (run_Plus_Digit_none l Hl). reflexivity.
Qed.

Lemma searchFrom_none (l : list ascii) (i : nat) :
  existsb Js.isDigit l = false -> searchFrom true DURATION_PATTERN l i = None.
Proof.
  revert i. induction l as [|c r IH]; intros i H.
  - cbn [searchFrom]. unfold DURATION_PATTERN.
    change (run true (Seq NUMBER_GROUP (Seq (Star Space) UNIT_GROUP)) [])
      with (flat_map (fun '(c1, rest1) =>
                        map (fun '(c2, rest2) => (c1 ++ c2, rest2))
                            (run true (Seq (Star Space) UNIT_GROUP) rest1))
                     (run true NUMBER_GROUP [])).
    rewrite (run_NUMBER_GROUP_none [] H). reflexivity.
  - cbn [searchFrom]. unfold DURATION_PATTERN.
    change (run true (Seq NUMBER_GROUP (Seq (Star Space) UNIT_GROUP)) (c :: r))
      with (flat_map (fun '(c1, rest1) =>
                        map (fun '(c2, rest2) => (c1 ++ c2, rest2))
                            (run true (Seq (Star Space) UNIT_GROUP) rest1))
                     (run true NUMBER_GROUP (c :: r))).
    rewrite (run_NUMBER_GROUP_none (c :: r) H). cbn [flat_map].
    fold DURATION_PATTERN. apply IH.
    cbn [existsb] in H. apply orb_false_elim in H. exact (proj2 H).
Qed.

Lemma existsb_dropWhile {A} (p q : A -> bool) (l : list A) :
  existsb p l = false -> existsb p (Js.dropWhile q l) = false.
Proof.
  induction l as [|x l IH]; intros H; [reflexivity|].
  cbn [Js.dropWhile]. destruct (q x); [|exact H].
  apply IH. cbn [existsb] in H. apply orb_false_elim in H. exact (proj2 H).
Qed.

Lemma existsb_rev_false {A} (p : A -> bool) (l : list A) :
  existsb p l = false -> existsb p (rev l) = false.
Proof.
  intros H. destruct (existsb p (rev l)) eqn:E; [|reflexivity].
  apply existsb_exists in E. destruct E as (x & Hx & Hp).
  apply in_rev in Hx.
  assert (Ht : existsb p l = true) by (apply existsb_exists; now exists x).
  congruence.
Qed.

Lemma existsb_trimChars (l : list ascii) :
  existsb Js.isDigit l = false -> existsb Js.isDigit (Js.trimChars l) = false.
Proof.
  intros H. unfold Js.trimChars, Js.trimEndChars, Js.trimStartChars.
  apply existsb_rev_false, existsb_dropWhile, existsb_rev_false, existsb_dropWhile, H.
Qed.

(** X3. A string without a digit is no duration: [parseDuration]
    raises, with [duration() requires a non-empty string.] when only white
    space is given and [Unable to parse duration string] otherwise; and
    [tryParseDuration], which the addition and the subtraction of a date
    use, answers null. *)
Theorem parseDuration_needs_a_digit (input : string) :
  existsb Js.isDigit (Js.chars input) = false ->
  parseDuration input
  = Throw (Error (if Js.hasNonWhiteSpace (Js.chars input)
                  then "Unable to parse duration string " +:+ quote input +:+ "."
                  else "duration() requires a non-empty string."))
  /\ tryParseDuration (VStr input) = None.
Proof.
  intros H.
  assert (Hthrow : parseDuration input
                   = Throw (Error (if Js.hasNonWhiteSpace (Js.chars input)
                                   then "Unable to parse duration string "
                                        +:+ quote input +:+ "."
                                   else "duration() requires a non-empty string."))).
  { unfold parseDuration.
    assert (Htrim : Js.chars (Js.trim input) = Js.trimChars (Js.chars input)).
    { unfold Js.trim, Js.chars, Js.str. apply list_ascii_of_string_of_list_ascii. }
    rewrite Htrim.
    pose proof (existsb_trimChars _ H) as Hnone.
    destruct (length (Js.trimChars (Js.chars input)) =? 0)%nat eqn:Hlen.
    - replace (Js.hasNonWhiteSpace (Js.chars input)) with false; [reflexivity|].
      symmetry. apply Nat.eqb_eq in Hlen.
      apply length_zero_iff_nil in Hlen. revert Hlen. clear.
      unfold Js.trimChars, Js.trimEndChars, Js.trimStartChars, Js.hasNonWhiteSpace.
      intros Hnil. apply (f_equal (@rev ascii)) in Hnil.
      rewrite rev_involutive in Hnil. cbn [rev] in Hnil.
      assert (Hdrop : forall l : list ascii,
                 Js.dropWhile Js.isWhiteSpace l = [] ->
                 forallb Js.isWhiteSpace l = true).
      { induction l as [|x l IH]; [reflexivity|]. cbn [Js.dropWhile forallb].
        destruct (Js.isWhiteSpace x); [exact IH | discriminate]. }
      apply Hdrop in Hnil. rewrite forallb_forall in Hnil.
      assert (Hall : forallb Js.isWhiteSpace (Js.dropWhile Js.isWhiteSpace (Js.chars input))
                     = true).
      { apply forallb_forall. intros x Hx. apply Hnil, in_rev.
        now rewrite rev_involutive. }
      clear Hnil. induction (Js.chars input) as [|x l IH]; [reflexivity|].
      cbn [Js.dropWhile] in Hall. cbn [existsb].
      destruct (Js.isWhiteSpace x) eqn:E; cbn [negb orb].
      + exact (IH Hall).
      + cbn [forallb] in Hall. rewrite E in Hall. discriminate Hall.
    - replace (Js.hasNonWhiteSpace (Js.chars input)) with true.
      + cbn [parseLoop]. unfold exec. cbn [Nat.ltb Nat.leb].
        change (skipn 0 (Js.trimChars (Js.chars input)))
          with (Js.trimChars (Js.chars input)).
        rewrite (searchFrom_none _ 0 Hnone). reflexivity.
      + symmetry. apply Nat.eqb_neq in Hlen.
        destruct (Js.hasNonWhiteSpace (Js.chars input)) eqn:E; [reflexivity|].
        exfalso. apply Hlen. revert E. clear.
        unfold Js.trimChars, Js.trimEndChars, Js.trimStartChars, Js.hasNonWhiteSpace.
        intros E.
        assert (Hnil : Js.dropWhile Js.isWhiteSpace (Js.chars input) = []).
        { induction (Js.chars input) as [|x l IH]; [reflexivity|].
          cbn [existsb] in E. apply orb_false_elim in E. destruct E as [Ex E].
          cbn [Js.dropWhile]. apply negb_false_iff in Ex. rewrite Ex. exact (IH E). }
        rewrite Hnil. reflexivity. }
  split; [exact Hthrow|]. unfold tryParseDuration. rewrite Hthrow. reflexivity.
Qed.

Lemma parseDuration_needs_a_digit_witness :
  parseDuration "soon"
  = Throw (Error ("Unable to parse duration string " +:+ quote "soon" +:+ "."))
  /\ tryParseDuration (VStr "soon") = None.
Proof. exact (parseDuration_needs_a_digit "soon" eq_refl). Defined.

End DurationWithoutDigit.

(** ** The table of compiled expressions *)
Section CacheFacts.
Import CacheSpec.
Variable jsep : string -> expr + error.
Variable defs : list (string * value).

Local Abbreviation transparent := (CacheSpec.transparent jsep).
Local Abbreviation sameButParses := (CacheSpec.sameButParses jsep).

Lemma transparent_lift {A} (o : outcome A) : transparent (lift o).
Proof. intros s1 s2 H. split; [reflexivity | exact H]. Qed.

Lemma transparent_ret {A} (a : A) : transparent (ret a).
Proof. exact (transparent_lift (Ok a)). Qed.

Lemma transparent_throw {A} (e : error) : transparent (@throw A e).
Proof. exact (transparent_lift (Throw e)). Qed.

Lemma transparent_bind {A B} (m : M A) (k : A -> M B) :
  transparent m -> (forall a, transparent (k a)) -> transparent (bind m k).
Proof.
  intros Hm Hk s1 s2 H. destruct (Hm s1 s2 H) as [E R]. unfold bind.
  destruct (m s1) as [r1 t1], (m s2) as [r2 t2]. simpl in E, R. subst r2.
  destruct r1 as [a| e | w |]; simpl; try (split; [reflexivity | exact R]).
  exact (Hk a t1 t2 R).
Qed.

Lemma transparent_catch_rethrow {A} (m : M A) (wrap : error -> error) :
  transparent m -> transparent (catch m (fun e => throw (wrap e))).
Proof.
  intros Hm s1 s2 H. destruct (Hm s1 s2 H) as [E R]. unfold catch.
  destruct (m s1) as [r1 t1], (m s2) as [r2 t2]. simpl in E, R. subst r2.
  destruct r1; simpl; (split; [reflexivity | exact R]).
Qed.

Lemma parsed_setCompiled normalized c st :
  parsed jsep st -> jsep normalized = inl c -> parsed jsep (setCompiled normalized c st).
Proof.
  intros Hp Hc source ast. unfold setCompiled. simpl.
  destruct (decide (normalized = source)) as [<-|Hne].
  - rewrite lookup_insert_eq. intros [= <-]. exact Hc.
  - rewrite lookup_insert_ne by exact Hne. apply Hp.
Qed.

Lemma transparent_compiled normalized : transparent (compiled jsep normalized).
Proof.
  intros s1 s2 (P1 & P2 & HC & HE & HS). unfold compiled, compileExpression.
  destruct (compiledExpressions s1 !! normalized) as [c1|] eqn:E1;
    destruct (compiledExpressions s2 !! normalized) as [c2|] eqn:E2.
  - pose proof (P1 _ _ E1) as J1. pose proof (P2 _ _ E2) as J2.
    rewrite J1 in J2. injection J2 as <-. simpl.
    split; [reflexivity|]. repeat split; assumption.
  - pose proof (P1 _ _ E1) as J1. rewrite J1. simpl.
    split; [reflexivity|]. split; [exact P1|].
    split; [apply parsed_setCompiled; assumption|]. repeat split; assumption.
  - pose proof (P2 _ _ E2) as J2. rewrite J2. simpl.
    split; [reflexivity|]. split; [apply parsed_setCompiled; assumption|].
    repeat split; assumption.
  - destruct (jsep normalized) as [c|e] eqn:J; simpl.
    + split; [reflexivity|].
      split; [apply parsed_setCompiled; assumption|].
      split; [apply parsed_setCompiled; assumption|]. repeat split; assumption.
    + split; [reflexivity|]. repeat split; assumption.
Qed.

Section Node.
Variable file : Vault.VaultFile.
Variable scope : gmap string value.
Variable get : string -> M value.
Hypothesis Hget : forall key, transparent (get key).

Local Abbreviation node := (evaluateExpressionNode file scope defs get).

Lemma transparent_reflectGet target key : transparent (reflectGet file get target key).
Proof.
  destruct target; simpl; try apply transparent_lift; try apply Hget.
  destruct f; apply transparent_lift.
Qed.

Lemma transparent_readMember objectValue key :
  transparent (readMember file get objectValue key).
Proof.
  unfold readMember. apply transparent_bind; [apply transparent_lift|].
  intros a. apply transparent_reflectGet.
Qed.

Lemma transparent_applyFunction f args : transparent (applyFunction file get f args).
Proof.
  destruct f; simpl; try apply transparent_lift; try apply transparent_ret.
  destruct (String.eqb name "Reflect.get").
  - destruct (isObjectLike _); [|apply transparent_throw].
    apply transparent_bind; [apply transparent_lift|].
    intros key. apply transparent_reflectGet.
  - destruct (String.eqb name "Array.isArray");
      [apply transparent_ret | apply transparent_lift].
Qed.

Lemma transparent_elements elements :
  Forall (fun o => match o with Some e => transparent (node e) | None => True end)
         elements ->
  transparent (evaluateElements node elements).
Proof.
  induction 1 as [|[e|] r He _ IH]; simpl.
  - apply transparent_ret.
  - apply transparent_bind; [exact He|]. intros v.
    apply transparent_bind; [exact IH|]. intros rest. apply transparent_ret.
  - apply transparent_bind; [exact IH|]. intros rest. apply transparent_ret.
Qed.

Lemma transparent_arguments args :
  Forall (fun e => transparent (node e)) args ->
  transparent (evaluateArguments node args).
Proof.
  induction 1 as [|e r He _ IH]; simpl; [apply transparent_ret|].
  apply transparent_bind; [exact He|]. intros v.
  apply transparent_bind; [exact IH|]. intros rest. apply transparent_ret.
Qed.

Lemma transparent_inOrder entries :
  Forall (fun e => transparent (node e)) entries ->
  forall last, transparent (evaluateInOrder node entries last).
Proof.
  induction 1 as [|e r He _ IH]; intros last; simpl; [apply transparent_ret|].
  apply transparent_bind; [exact He|]. intros v. apply IH.
Qed.

Lemma transparent_member computed object property :
  transparent (node object) -> transparent (node property) ->
  transparent (evaluateMember file get node computed object property).
Proof.
  intros Ho Hp. unfold evaluateMember.
  apply transparent_bind; [exact Ho|]. intros objectValue.
  apply transparent_bind; [|intros key; apply transparent_readMember].
  destruct computed.
  - apply transparent_bind; [exact Hp|]. intros p. apply transparent_lift.
  - destruct property; apply transparent_lift.
Qed.

Lemma transparent_node_deep e :
  transparent (node e)
  /\ match e with
     | MemberExpression _ object property =>
         transparent (node object) /\ transparent (node property)
     | _ => True
     end.
Proof.
  induction e using expr_nested_ind; (split; [|try exact I]); simpl.
  - apply transparent_bind; [|intros items; apply transparent_ret].
    apply transparent_elements. eapply Forall_impl; [exact H|].
    intros [e|]; [intros [He _]; exact He | trivial].
  - destruct IHe1 as [H1 _], IHe2 as [H2 _].
    destruct (String.eqb op "&&").
    { apply transparent_bind; [exact H1|]. intros l.
      destruct (negb (toBoolean l)); [apply transparent_ret | exact H2]. }
    destruct (String.eqb op "||").
    { apply transparent_bind; [exact H1|]. intros l.
      destruct (toBoolean l); [apply transparent_ret | exact H2]. }
    destruct (String.eqb op "??").
    { apply transparent_bind; [exact H1|]. intros l.
      destruct l; try apply transparent_ret; exact H2. }
    apply transparent_bind; [exact H1|]. intros l.
    apply transparent_bind; [exact H2|]. intros r. apply transparent_lift.
  - apply transparent_bind.
    + destruct IHe as [Hc _]. destruct e; exact Hc.
    + intros callable. destruct callable; try apply transparent_throw.
      apply transparent_bind; [|intros args'; apply transparent_applyFunction].
      apply transparent_arguments. eapply Forall_impl; [exact H|].
      intros a [Ha _]. exact Ha.
  - apply transparent_inOrder. eapply Forall_impl; [exact H|]. intros a [Ha _]. exact Ha.
  - destruct IHe1 as [H1 _], IHe2 as [H2 _], IHe3 as [H3 _].
    apply transparent_bind; [exact H1|]. intros t.
    destruct (toBoolean t); assumption.
  - unfold evaluateIdentifier.
    destruct (scope !! n); [apply transparent_ret | apply transparent_throw].
  - unfold evaluateLiteral. destruct v; try apply transparent_ret.
    apply transparent_lift.
  - destruct IHe1 as [H1 _], IHe2 as [H2 _]. apply transparent_member; assumption.
  - destruct IHe1 as [H1 _], IHe2 as [H2 _]. split; assumption.
  - apply transparent_inOrder. eapply Forall_impl; [exact H|]. intros a [Ha _]. exact Ha.
  - destruct (scope !! "this"); apply transparent_ret.
  - destruct IHe as [Ha _].
    destruct (match e with
              | Identifier name =>
                  String.eqb op "typeof" && negb (hasScopeIdentifier scope name)
              | _ => false
              end); [apply transparent_ret|].
    apply transparent_bind; [exact Ha|]. intros a. apply transparent_lift.
  - apply transparent_throw.
Qed.

Lemma transparent_evaluate expression label :
  transparent (evaluate jsep file scope defs get expression label).
Proof.
  unfold evaluate. destruct (String.length (Js.trim expression) =? 0)%nat;
    [apply transparent_ret|].
  apply transparent_bind; [apply transparent_compiled|]. intros c.
  apply transparent_catch_rethrow, transparent_node_deep.
Qed.
End Node.

Lemma transparent_formulaGetWith ev key :
  transparentClosure jsep ev -> transparent (formulaGetWith defs ev key).
Proof.
  intros Hev s1 s2 H. pose proof H as (P1 & P2 & HC & HE & HS).
  unfold formulaGetWith. rewrite <- HC, <- HE.
  destruct (formulaCache s1 !! key); [split; [reflexivity | exact H]|].
  destruct (negb (hasOwn defs key)); [split; [reflexivity | exact H]|].
  destruct (bool_decide (key ∈ evaluating s1)); [split; [reflexivity | exact H]|].
  assert (Hset : forall v t1 t2, sameButParses t1 t2 ->
                                 sameButParses (setCache key v t1) (setCache key v t2)).
  { intros v t1 t2 (Q1 & Q2 & QC & QE & QS).
    split; [exact Q1|]. split; [exact Q2|]. simpl. rewrite QC, QE, QS. auto. }
  assert (Hdel : forall t1 t2, sameButParses t1 t2 ->
                               sameButParses (deleteEvaluating key t1)
                                             (deleteEvaluating key t2)).
  { intros t1 t2 (Q1 & Q2 & QC & QE & QS).
    split; [exact Q1|]. split; [exact Q2|]. simpl. rewrite QC, QE, QS. auto. }
  assert (Hadd : sameButParses (addEvaluating key s1) (addEvaluating key s2)).
  { split; [exact P1|]. split; [exact P2|]. simpl. rewrite HC, HE, HS. auto. }
  destruct (objGet defs key) as [[]|];
    try (split; [reflexivity | apply Hset, H]).
  destruct (String.length (Js.trim s) =? 0)%nat;
    [split; [reflexivity | apply Hset, H]|].
  destruct ev as [ev|]; [|split; [reflexivity | exact H]].
  unfold finally.
  destruct (Hev s ("formula " +:+ Duration.quote key) _ _ Hadd) as [E R].
  destruct (ev s _ (addEvaluating key s1)) as [r1 t1],
           (ev s _ (addEvaluating key s2)) as [r2 t2].
  simpl in E, R. subst r2.
  destruct r1; simpl; (split; [reflexivity|]); apply Hdel; try exact R.
  apply Hset, R.
Qed.

(** X12. The table of compiled expressions is a cache and no more: from
    two states that differ only in which parses the table holds, an
    evaluation gives the same result (value or error), leaves the same
    formula values and the same set of formulas in progress, and leaves
    tables that hold parses again. So an expression evaluates alike
    whether or not it, or a formula it reads, was parsed before. *)
Theorem compiled_expressions_only_cache
        (file : Vault.VaultFile) (scope : gmap string value) (fuel : nat)
        (expression label : string) (s1 s2 : state) :
  CacheSpec.sameButParses jsep s1 s2 ->
  fst (evaluateWithFuel jsep file scope defs fuel expression label s1)
  = fst (evaluateWithFuel jsep file scope defs fuel expression label s2)
  /\ CacheSpec.sameButParses jsep
       (snd (evaluateWithFuel jsep file scope defs fuel expression label s1))
       (snd (evaluateWithFuel jsep file scope defs fuel expression label s2)).
Proof.
  revert expression label s1 s2.
  change (forall expression label,
             transparent (evaluateWithFuel jsep file scope defs fuel expression label)).
  assert (Hget : forall fuel key, transparent (formulaGet jsep file scope defs fuel key)).
  { clear fuel. induction fuel as [|fuel IH]; intros key.
    - exact (transparent_formulaGetWith None key I).
    - cbn [formulaGet]. apply transparent_formulaGetWith.
      intros expression label. apply transparent_evaluate. exact IH. }
  intros expression label. unfold evaluateWithFuel.
  apply transparent_evaluate, Hget.
Qed.

End CacheFacts.

Lemma compiled_expressions_only_cache_witness :
  let file := Sample.note "alpha" "active" in
  let defs := [("label", VStr "file.name + '!'")] in
  let scope := scope (buildEvaluationState Sample.jsep file (Some defs)) in
  let warm :=
    setCompiled "file.name + '!'"
      (BinaryExpression "+"
         (MemberExpression false (Identifier "file") (Identifier "name"))
         (Literal (VStr "!")))
      initialState in
  fst (evaluateWithFuel Sample.jsep file scope defs 1 "formula.label" "column" warm)
  = fst (evaluateWithFuel Sample.jsep file scope defs 1 "formula.label" "column"
                          initialState)
  /\ fst (evaluateWithFuel Sample.jsep file scope defs 1 "formula.label" "column"
                           initialState)
     = Ok (VStr "alpha!").
Proof.
  intros file defs scope warm. split; [|vm_compute; reflexivity].
  assert (Hempty : CacheSpec.parsed Sample.jsep initialState).
  { intros source ast H. simpl in H. rewrite lookup_empty in H. discriminate H. }
  apply (compiled_expressions_only_cache Sample.jsep defs file scope 1
           "formula.label" "column" warm initialState).
  split; [apply parsed_setCompiled; [exact Hempty | reflexivity]|].
  split; [exact Hempty|]. repeat split.
Defined.

(** ** The recursion through formulas is bounded *)
Section PureFunctionsReturn.

Lemma obind_returns {A B} (o : outcome A) (k : A -> outcome B) :
  o <> OutOfFuel -> (forall a, k a <> OutOfFuel) -> obind o k <> OutOfFuel.
Proof. intros Ho Hk. destruct o; simpl; [apply Hk | discriminate.. | contradiction]. Qed.

Lemma toNumber_returns v : toNumber v <> OutOfFuel.
Proof.
  destruct v; simpl; try discriminate.
  - destruct items; discriminate.
  - destruct (_ || _); discriminate.
Qed.

Lemma toStringPrimitive_returns v : toStringPrimitive v <> OutOfFuel.
Proof.
  destruct v; simpl; try discriminate. destruct (Js.numberToString n); discriminate.
Qed.

Lemma toNumeric_returns v : toNumeric v <> OutOfFuel.
Proof. unfold toNumeric. destruct v; try discriminate; apply toNumber_returns. Qed.

Lemma nativeAdd_returns l r : nativeAdd l r <> OutOfFuel.
Proof.
  unfold nativeAdd.
  repeat match goal with
         | |- (if ?b then _ else _) <> _ => destruct b
         | |- (match ?x with _ => _ end) <> _ => destruct x
         | |- obind _ _ <> _ => apply obind_returns; [|intros ?]
         | |- toNumber _ <> _ => apply toNumber_returns
         | |- toStringPrimitive _ <> _ => apply toStringPrimitive_returns
         | |- _ => discriminate
         end.
Qed.

Lemma applyAddition_returns l r : applyAddition l r <> OutOfFuel.
Proof.
  unfold applyAddition.
  destruct l, (toNullishAwareDuration r); try discriminate;
    destruct r; try discriminate; try apply nativeAdd_returns;
    match goal with
    | |- (match ?x with _ => _ end) <> _ => destruct x
    end; try discriminate; apply nativeAdd_returns.
Qed.

Lemma applySubtraction_returns l r : applySubtraction l r <> OutOfFuel.
Proof.
  assert (Hnum : forall a b,
             obind (toNumeric a) (fun x =>
             obind (toNumeric b) (fun y => Ok (VNum (x - y)%float))) <> OutOfFuel).
  { intros a b. apply obind_returns; [apply toNumeric_returns|]. intros x.
    apply obind_returns; [apply toNumeric_returns | discriminate]. }
  unfold applySubtraction.
  destruct l; try apply Hnum; destruct r; try discriminate;
    match goal with
    | |- (match ?x with _ => _ end) <> _ => destruct x
    end; try discriminate; apply Hnum.
Qed.

Lemma sameObject_returns a b : sameObject a b <> OutOfFuel.
Proof. unfold sameObject. destruct (singleton a), (singleton b); discriminate. Qed.

Lemma strictEquals_returns l r : strictEquals l r <> OutOfFuel.
Proof.
  unfold strictEquals.
  destruct l, r; try discriminate;
    (destruct (_ || _); [discriminate | apply sameObject_returns]).
Qed.

Lemma looseEquals_returns l r : looseEquals l r <> OutOfFuel.
Proof.
  unfold looseEquals.
  destruct l, r; try discriminate;
    (destruct (_ && _); [apply strictEquals_returns|];
     destruct (_ || _); [discriminate | apply sameObject_returns]).
Qed.

Lemma relationalOperand_returns v : relationalOperand v <> OutOfFuel.
Proof.
  destruct v; simpl; try discriminate.
Qed.

Lemma nativeCompare_returns op l r : nativeCompare op l r <> OutOfFuel.
Proof.
  unfold nativeCompare. apply obind_returns; [apply relationalOperand_returns|].
  intros a. apply obind_returns; [apply relationalOperand_returns|]. intros b.
  repeat match goal with
         | |- (if ?c then _ else _) <> _ => destruct c
         end; discriminate.
Qed.

Lemma plainGet_returns props key : plainGet props key <> OutOfFuel.
Proof.
  unfold plainGet. destruct (objGet props key); [discriminate|].
  destruct (memString key _); discriminate.
Qed.

Lemma hostMember_returns owner key : hostMember owner key <> OutOfFuel.
Proof. unfold hostMember. destruct (memString _ _); discriminate. Qed.

Lemma ensureTargetObject_returns v : ensureTargetObject v <> OutOfFuel.
Proof. destruct v; discriminate. Qed.

Lemma parseDate_returns v : GlobalFunctions.parseDate v <> OutOfFuel.
Proof.
  destruct v; simpl; try discriminate.
  destruct (_ =? _)%nat; [discriminate|].
  destruct (Js.DateParse _); [|discriminate]. destruct (Js.isNaN _); discriminate.
Qed.

Lemma normalizePathInput_returns v : GlobalFunctions.normalizePathInput v <> OutOfFuel.
Proof. destruct v; discriminate. Qed.

Lemma normalizeNumber_returns v : GlobalFunctions.normalizeNumber v <> OutOfFuel.
Proof.
  assert (Hgeneric : forall x,
             obind (toNumber x) (fun primitive =>
               if negb (Js.isFinite primitive)
               then Throw (Error "number() requires convertible numeric values.")
               else Ok primitive) <> OutOfFuel).
  { intros x. apply obind_returns; [apply toNumber_returns|]. intros p.
    destruct (negb _); discriminate. }
  destruct v; cbn [GlobalFunctions.normalizeNumber]; try apply Hgeneric;
    try discriminate.
  - destruct (negb _); discriminate.
  - destruct (_ =? _)%nat; [discriminate|]. destruct (negb _); discriminate.
Qed.

Lemma applyGlobal_returns name args : GlobalFunctions.applyGlobal name args <> OutOfFuel.
Proof.
  unfold GlobalFunctions.applyGlobal, GlobalFunctions.ensureNumericArguments.
  repeat match goal with
         | |- (if String.eqb ?a ?b then _ else _) <> _ => destruct (String.eqb a b)
         end;
    try discriminate;
    try apply parseDate_returns;
    try (apply obind_returns;
         [first [ apply normalizePathInput_returns | apply normalizeNumber_returns ]
         | intros [?|]; discriminate ]);
    try (apply obind_returns; [apply normalizeNumber_returns | discriminate]).
  - destruct (GlobalFunctions.arg args 0); try discriminate.
    apply obind_returns; [|discriminate]. unfold Duration.parseDuration.
    destruct (_ =? 0)%nat; [discriminate|]. apply parseLoop_returns. lia.
  - destruct (toBoolean _); discriminate.
  - destruct (GlobalFunctions.arg args 0); discriminate.
  - apply obind_returns; [|discriminate].
    destruct args; [discriminate|]. destruct (forallb _ _); discriminate.
  - apply obind_returns; [|discriminate].
    destruct args; [discriminate|]. destruct (forallb _ _); discriminate.
Qed.

Lemma applyFileMethod_returns file name args : applyFileMethod file name args <> OutOfFuel.
Proof.
  unfold applyFileMethod.
  repeat match goal with
         | |- (if String.eqb ?a ?b then _ else _) <> _ => destruct (String.eqb a b)
         end; try discriminate.
  - destruct (GlobalFunctions.arg args 0); discriminate.
  - destruct (GlobalFunctions.arg args 0); discriminate.
  - cbv zeta. destruct (_ && _); discriminate.
Qed.

Lemma applyUnary_returns op v : applyUnary op v <> OutOfFuel.
Proof.
  unfold applyUnary.
  repeat match goal with
         | |- (if String.eqb ?a ?b then _ else _) <> _ => destruct (String.eqb a b)
         end; try discriminate;
    (apply obind_returns;
     [first [apply toNumeric_returns | apply toNumber_returns] | discriminate]).
Qed.

Lemma hasProperty_returns file defs v key : hasProperty file defs v key <> OutOfFuel.
Proof. destruct v; discriminate. Qed.

Lemma applyBinary_returns file defs op l r : applyBinary file defs op l r <> OutOfFuel.
Proof.
  assert (Hbool : forall negate (o : outcome bool),
             o <> OutOfFuel ->
             obind o (fun b => Ok (VBool (xorb negate b))) <> OutOfFuel).
  { intros negate o Ho. apply obind_returns; [exact Ho | discriminate]. }
  assert (Hnum : forall f, numericBinary f l r <> OutOfFuel).
  { intros f. unfold numericBinary. apply obind_returns; [apply toNumeric_returns|].
    intros x. apply obind_returns; [apply toNumeric_returns | discriminate]. }
  unfold applyBinary. cbv zeta.
  repeat match goal with
         | |- (if String.eqb ?a ?b then _ else _) <> _ => destruct (String.eqb a b)
         | |- (if memString ?a ?b then _ else _) <> _ => destruct (memString a b)
         end;
    try discriminate; try apply Hnum;
    try (apply Hbool;
         first [ apply looseEquals_returns | apply strictEquals_returns
               | apply nativeCompare_returns ]).
  - apply applyAddition_returns.
  - apply applySubtraction_returns.
  - destruct (negb _); discriminate.
  - destruct (isPrimitive r); [discriminate|].
    apply obind_returns; [apply toStringPrimitive_returns|]. intros key.
    apply Hbool, hasProperty_returns.
Qed.

End PureFunctionsReturn.

Section EvaluationsEnd.
Import TerminationSpec.
Variable defs : list (string * value).

Section Fixed.
Variable W : gset string -> Prop.

Local Abbreviation ends := (TerminationSpec.ends defs W).

Lemma ends_lift {A} (o : outcome A) : o <> OutOfFuel -> ends (lift o).
Proof. intros Ho. split; [apply Sim_lift|]. intros st _ _. exact Ho. Qed.

Lemma ends_ret {A} (a : A) : ends (ret a).
Proof. apply (ends_lift (Ok a)). discriminate. Qed.

Lemma ends_throw {A} (e : error) : ends (@throw A e).
Proof. apply (ends_lift (Throw e)). discriminate. Qed.

Lemma ends_unmodelled {A} (what : string) : ends (lift (@Unmodelled A what)).
Proof. apply ends_lift. discriminate. Qed.

Lemma ends_bind {A B} (m : M A) (k : A -> M B) :
  ends m -> (forall a, ends (k a)) -> ends (bind m k).
Proof.
  intros [Sm Em] Hk. split.
  - apply Sim_bind; [exact Sm|]. intros a. apply Hk.
  - intros st HI HW. destruct (Sm st HI HW) as (_ & I1 & S1 & _).
    specialize (Em st HI HW). unfold bind.
    destruct (m st) as [r st1]. simpl in I1, S1, Em.
    destruct r as [a| e | w |]; simpl; try discriminate; [|contradiction].
    apply (proj2 (Hk a)); [exact I1|]. destruct S1 as [-> _]. exact HW.
Qed.

Lemma ends_catch_rethrow {A} (m : M A) (wrap : error -> error) :
  ends m -> ends (catch m (fun e => throw (wrap e))).
Proof.
  intros [Sm Em]. split; [apply Sim_catch_rethrow, Sm|].
  intros st HI HW. specialize (Em st HI HW). unfold catch.
  destruct (m st) as [r st1]. simpl in Em.
  destruct r; simpl; try discriminate. contradiction.
Qed.

Lemma ends_compiled jsep normalized : ends (compiled jsep normalized).
Proof.
  split; [apply Sim_compiled|]. intros st _ _. unfold compiled, compileExpression.
  destruct (compiledExpressions st !! normalized); [discriminate|].
  destruct (jsep normalized); discriminate.
Qed.

Section Node.
Variable file : Vault.VaultFile.
Variable scope : gmap string value.
Variable get : string -> M value.
Hypothesis Hget : forall key, ends (get key).

Local Abbreviation node := (evaluateExpressionNode file scope defs get).

Lemma ends_reflectGet target key : ends (reflectGet file get target key).
Proof.
  destruct target; simpl; try apply Hget; try apply ends_unmodelled;
    try (apply ends_lift; first [apply plainGet_returns | apply hostMember_returns]).
  - apply ends_lift. destruct (String.eqb key "length"); [discriminate|].
    destruct (arrayIndex key); discriminate.
  - apply ends_lift. destruct (String.eqb key "length"); [discriminate|].
    destruct (arrayIndex key); discriminate.
  - destruct f; try apply ends_unmodelled. apply ends_lift, hostMember_returns.
Qed.

Lemma ends_readMember objectValue key : ends (readMember file get objectValue key).
Proof.
  unfold readMember. apply ends_bind; [apply ends_lift, ensureTargetObject_returns|].
  intros a. apply ends_reflectGet.
Qed.

Lemma ends_applyFunction f args : ends (applyFunction file get f args).
Proof.
  destruct f; simpl.
  - apply ends_lift, applyGlobal_returns.
  - apply ends_lift, applyFileMethod_returns.
  - apply ends_ret.
  - destruct (String.eqb name "Reflect.get").
    + destruct (isObjectLike _); [|apply ends_throw].
      apply ends_bind; [apply ends_lift, toStringPrimitive_returns|].
      intros key. apply ends_reflectGet.
    + destruct (String.eqb name "Array.isArray");
        [apply ends_ret | apply ends_unmodelled].
Qed.

Lemma ends_elements elements :
  Forall (fun o => match o with Some e => ends (node e) | None => True end) elements ->
  ends (evaluateElements node elements).
Proof.
  induction 1 as [|[e|] r He _ IH]; simpl.
  - apply ends_ret.
  - apply ends_bind; [exact He|]. intros v.
    apply ends_bind; [exact IH|]. intros rest. apply ends_ret.
  - apply ends_bind; [exact IH|]. intros rest. apply ends_ret.
Qed.

Lemma ends_arguments args :
  Forall (fun e => ends (node e)) args -> ends (evaluateArguments node args).
Proof.
  induction 1 as [|e r He _ IH]; simpl; [apply ends_ret|].
  apply ends_bind; [exact He|]. intros v.
  apply ends_bind; [exact IH|]. intros rest. apply ends_ret.
Qed.

Lemma ends_inOrder entries :
  Forall (fun e => ends (node e)) entries ->
  forall last, ends (evaluateInOrder node entries last).
Proof.
  induction 1 as [|e r He _ IH]; intros last; simpl; [apply ends_ret|].
  apply ends_bind; [exact He|]. intros v. apply IH.
Qed.

Lemma ends_member computed object property :
  ends (node object) -> ends (node property) ->
  ends (evaluateMember file get node computed object property).
Proof.
  intros Ho Hp. unfold evaluateMember.
  apply ends_bind; [exact Ho|]. intros objectValue.
  apply ends_bind; [|intros key; apply ends_readMember].
  destruct computed.
  - apply ends_bind; [exact Hp|]. intros p. apply ends_lift, toStringPrimitive_returns.
  - destruct property; try apply ends_unmodelled. apply ends_ret.
Qed.

Lemma ends_node_deep e :
  ends (node e)
  /\ match e with
     | MemberExpression _ object property => ends (node object) /\ ends (node property)
     | _ => True
     end.
Proof.
  induction e using expr_nested_ind; (split; [|try exact I]); simpl.
  - apply ends_bind; [|intros items; apply ends_ret].
    apply ends_elements. eapply Forall_impl; [exact H|].
    intros [e|]; [intros [He _]; exact He | trivial].
  - destruct IHe1 as [H1 _], IHe2 as [H2 _].
    destruct (String.eqb op "&&").
    { apply ends_bind; [exact H1|]. intros l.
      destruct (negb (toBoolean l)); [apply ends_ret | exact H2]. }
    destruct (String.eqb op "||").
    { apply ends_bind; [exact H1|]. intros l.
      destruct (toBoolean l); [apply ends_ret | exact H2]. }
    destruct (String.eqb op "??").
    { apply ends_bind; [exact H1|]. intros l.
      destruct l; try apply ends_ret; exact H2. }
    apply ends_bind; [exact H1|]. intros l.
    apply ends_bind; [exact H2|]. intros r. apply ends_lift, applyBinary_returns.
  - apply ends_bind.
    + destruct IHe as [Hc _]. destruct e; exact Hc.
    + intros callable. destruct callable; try apply ends_throw.
      apply ends_bind; [|intros args'; apply ends_applyFunction].
      apply ends_arguments. eapply Forall_impl; [exact H|].
      intros a [Ha _]. exact Ha.
  - apply ends_inOrder. eapply Forall_impl; [exact H|]. intros a [Ha _]. exact Ha.
  - destruct IHe1 as [H1 _], IHe2 as [H2 _], IHe3 as [H3 _].
    apply ends_bind; [exact H1|]. intros t.
    destruct (toBoolean t); assumption.
  - unfold evaluateIdentifier. destruct (scope !! n); [apply ends_ret | apply ends_throw].
  - unfold evaluateLiteral. destruct v; try apply ends_ret. apply ends_unmodelled.
  - destruct IHe1 as [H1 _], IHe2 as [H2 _]. apply ends_member; assumption.
  - destruct IHe1 as [H1 _], IHe2 as [H2 _]. split; assumption.
  - apply ends_inOrder. eapply Forall_impl; [exact H|]. intros a [Ha _]. exact Ha.
  - destruct (scope !! "this"); apply ends_ret.
  - destruct IHe as [Ha _].
    destruct (match e with
              | Identifier name =>
                  String.eqb op "typeof" && negb (hasScopeIdentifier scope name)
              | _ => false
              end); [apply ends_ret|].
    apply ends_bind; [exact Ha|]. intros a. apply ends_lift, applyUnary_returns.
  - apply ends_throw.
Qed.

Lemma ends_evaluate jsep expression label :
  ends (evaluate jsep file scope defs get expression label).
Proof.
  unfold evaluate. destruct (String.length (Js.trim expression) =? 0)%nat;
    [apply ends_ret|].
  apply ends_bind; [apply ends_compiled|]. intros c.
  apply ends_catch_rethrow, ends_node_deep.
Qed.
End Node.
End Fixed.

(** The trap over a closure that ends from the states the trap starts a
    body in. *)
Lemma ends_formulaGetWith_into (W0 W1 : gset string -> Prop) ev key :
  (forall E, W0 E -> hasOwn defs key = true -> key ∉ E ->
             W1 ({[key]} ∪ E)
             /\ exists e, ev = Some e
                          /\ forall expression label,
                               TerminationSpec.ends defs W1 (e expression label)) ->
  TerminationSpec.ends defs W0 (formulaGetWith defs ev key).
Proof.
  intros Hev. split.
  - apply (Sim_formulaGetWith_into defs W0 W1). intros E HW Hd Hk.
    destruct (Hev E HW Hd Hk) as (HW1 & e & -> & He). split; [exact HW1|].
    intros expression label. apply He.
  - intros st HI HW. unfold formulaGetWith.
    destruct (formulaCache st !! key) eqn:Hc; [discriminate|].
    destruct (hasOwn defs key) eqn:Hd; simpl negb; cbv iota; [|discriminate].
    destruct (bool_decide (key ∈ evaluating st)) eqn:Hk; [discriminate|].
    apply bool_decide_eq_false in Hk.
    destruct (objGet defs key) as [[ | | | | | expression | | | | | | | | ]|];
      try discriminate.
    destruct (String.length (Js.trim expression) =? 0)%nat; [discriminate|].
    destruct (Hev (evaluating st) HW eq_refl Hk) as (HW1 & e & -> & He).
    unfold finally.
    pose proof (Inv_addEvaluating defs st key HI Hc Hd) as HI1.
    pose proof (proj2 (He expression ("formula " +:+ Duration.quote key))
                      (addEvaluating key st) HI1 HW1) as Hend.
    destruct (e _ _ (addEvaluating key st)) as [r st2]. simpl in Hend.
    destruct r; simpl; try discriminate. contradiction.
Qed.

Section Knot.
Variable jsep : string -> expr + error.
Variable file : Vault.VaultFile.
Variable scope : gmap string value.

Lemma ends_formulaGet fuel key :
  TerminationSpec.ends defs (fuelCovers defs fuel)
    (formulaGet jsep file scope defs fuel key).
Proof.
  revert key. induction fuel as [|fuel IH]; intros key.
  - rewrite formulaGet_unfold.
    apply (ends_formulaGetWith_into _ (fun _ => True)). intros E HW Hd Hk.
    destruct (fuelCovers_none jsep defs E key HW Hd Hk).
  - cbn [formulaGet].
    apply (ends_formulaGetWith_into _ (fuelCovers defs fuel)). intros E HW Hd Hk.
    split; [apply (fuelCovers_next jsep); assumption|].
    eexists. split; [reflexivity|].
    intros expression label. apply ends_evaluate. exact IH.
Qed.

Lemma fuelCovers_always (E : gset string) : fuelCovers defs (length defs) E.
Proof.
  unfold fuelCovers.
  assert ((size ((list_to_set (keys defs) : gset string) ∖ E)
           <= size (list_to_set (keys defs) : gset string))%nat)
    by (apply subseteq_size, subseteq_difference_l; reflexivity).
  pose proof (size_list_to_set_le (keys defs)) as Hle.
  unfold keys in Hle at 2. rewrite length_map in Hle. lia.
Qed.

Lemma ends_evaluateWithFuel expression label :
  TerminationSpec.ends defs (fun _ => True)
    (evaluateWithFuel jsep file scope defs (length defs) expression label).
Proof.
  assert (Hends : TerminationSpec.ends defs (fuelCovers defs (length defs))
                    (evaluateWithFuel jsep file scope defs (length defs)
                                      expression label)).
  { apply ends_evaluate. intros key. apply ends_formulaGet. }
  destruct Hends as [Hsim Hend]. split.
  - intros st HI _. apply (Hsim st HI), fuelCovers_always.
  - intros st HI _. apply (Hend st HI), fuelCovers_always.
Qed.

(** X11. The recursion of [evaluate] through the [get] trap of the
    formula proxy is never deeper than the number of formula definitions:
    a nested evaluation marks one more formula as in progress, and a marked
    formula raises the circular-reference error. The depth of that
    recursion is the budget of the model, so: from the tables as any earlier
    evaluations left them, a budget of the number of definitions is never
    used up, whatever more is allowed changes neither the outcome nor the
    tables, and the tables are left fit for the next evaluation. The
    outcome is a value, an error, or the stop of the model at a host feature
    it does not cover (a member of a host namespace, say, such as
    [Object.constructor], whose call need not return): of these last
    evaluations nothing more is said. *)
Theorem formula_recursion_is_bounded
        (extra : nat) (expression label : string) (st : state) :
  Inv defs st ->
  evaluateWithFuel jsep file scope defs (length defs + extra) expression label st
  = evaluateWithFuel jsep file scope defs (length defs) expression label st
  /\ ((exists v,
         fst (evaluateWithFuel jsep file scope defs (length defs) expression label st)
         = Ok v)
      \/ (exists e,
            fst (evaluateWithFuel jsep file scope defs (length defs) expression label st)
            = Throw e)
      \/ (exists what,
            fst (evaluateWithFuel jsep file scope defs (length defs) expression label st)
            = Unmodelled what))
  /\ Inv defs (snd (evaluateWithFuel jsep file scope defs (length defs)
                                     expression label st)).
Proof.
  intros HI.
  assert (HW : fuelCovers defs (length defs) (evaluating st)).
  { unfold fuelCovers.
    assert ((size ((list_to_set (keys defs) : gset string) ∖ evaluating st)
             <= size (list_to_set (keys defs) : gset string))%nat)
      by (apply subseteq_size, subseteq_difference_l; reflexivity).
    pose proof (size_list_to_set_le (keys defs)) as Hle.
    unfold keys in Hle at 2. rewrite length_map in Hle. lia. }
  split; [|split].
  - symmetry. unfold evaluateWithFuel.
    apply (Sim_evaluate defs (fuelCovers defs (length defs)) file scope _ _
             (formulaGet_more_fuel jsep file scope defs (length defs) extra)
             jsep expression label st HI HW).
  - assert (Hends : TerminationSpec.ends defs (fuelCovers defs (length defs))
                      (evaluateWithFuel jsep file scope defs (length defs)
                                        expression label)).
    { apply ends_evaluate. intros key. apply ends_formulaGet. }
    pose proof (proj2 Hends st HI HW) as Hend.
    destruct (fst (evaluateWithFuel jsep file scope defs (length defs)
                                    expression label st)) as [v|e|what|].
    + left. exists v. reflexivity.
    + right. left. exists e. reflexivity.
    + right. right. exists what. reflexivity.
    + contradiction.
  - assert (Hends : TerminationSpec.ends defs (fuelCovers defs (length defs))
                      (evaluateWithFuel jsep file scope defs (length defs)
                                        expression label)).
    { apply ends_evaluate. intros key. apply ends_formulaGet. }
    destruct (proj1 Hends st HI HW) as (_ & HI' & _). exact HI'.
Qed.

End Knot.
End EvaluationsEnd.

Lemma formula_recursion_is_bounded_witness :
  let file := Sample.note "alpha" "active" in
  let defs := [("label", VStr "formula.label")] in
  let scope := scope (buildEvaluationState Sample.jsep file (Some defs)) in
  evaluateWithFuel Sample.jsep file scope defs (1 + 5) "formula.label" "column"
                   initialState
  = evaluateWithFuel Sample.jsep file scope defs 1 "formula.label" "column"
                     initialState
  /\ exists e,
       fst (evaluateWithFuel Sample.jsep file scope defs 1 "formula.label" "column"
                             initialState)
       = Throw e.
Proof.
  intros file defs scope.
  assert (HI : Inv defs initialState).
  { intros k Hk. simpl in Hk. apply elem_of_empty in Hk. destruct Hk. }
  pose proof (formula_recursion_is_bounded defs Sample.jsep file scope 5
                "formula.label" "column" initialState HI) as R.
  destruct R as (Hsame & _ & _). split; [exact Hsame|].
  eexists. vm_compute. reflexivity.
Defined.

(** ** The table and the bound on nested formulas *)
Section MaterializeEnds.
Import Materialize TerminationSpec.
Variable jsep : string -> expr + error.
Variable base : ObsidianBaseDefinition.

Local Abbreviation defs := (default [] (formulas base)).
Local Abbreviation ends := (TerminationSpec.ends defs (fun _ => True)).

Section OneFile.
Variable file : Vault.VaultFile.

Local Abbreviation evaluation := (buildEvaluationState jsep file (formulas base)).

Lemma ends_evaluate_ expression label : ends (evaluate_ evaluation expression label).
Proof. apply ends_evaluateWithFuel. Qed.

Lemma ends_allMatch entries context :
  Forall (fun entry : member => forall c, ends (entry c)) entries ->
  ends (allMatch entries context).
Proof.
  induction 1 as [|entry more He _ IH]; simpl; [apply ends_ret|].
  apply ends_bind; [apply He|]. intros matched.
  destruct (negb matched); [apply ends_ret | exact IH].
Qed.

Lemma ends_anyMatch entries context :
  Forall (fun entry : member => forall c, ends (entry c)) entries ->
  ends (anyMatch entries context).
Proof.
  induction 1 as [|entry more He _ IH]; simpl; [apply ends_ret|].
  apply ends_bind; [apply He|]. intros matched.
  destruct matched; [apply ends_ret | exact IH].
Qed.

Lemma ends_noneMatch entries context :
  Forall (fun entry : member => forall c, ends (entry c)) entries ->
  ends (noneMatch entries context).
Proof.
  induction 1 as [|entry more He _ IH]; simpl; [apply ends_ret|].
  apply ends_bind; [apply He|]. intros matched.
  destruct matched; [apply ends_ret | exact IH].
Qed.

Local Abbreviation groupsEnd := (TerminationSpec.groupsEnd defs).

Lemma groupsEnd_objGet compound key entries :
  groupsEnd compound -> objGet compound key = Some (Some entries) ->
  Forall (fun m : member => forall c, ends (m c)) entries.
Proof.
  intros Hall Hget. apply objGet_In in Hget.
  unfold TerminationSpec.groupsEnd in Hall. rewrite List.Forall_forall in Hall.
  exact (Hall _ Hget).
Qed.

Lemma ends_evaluateCompound compound context :
  groupsEnd compound -> ends (evaluateCompound compound context).
Proof.
  intros Hall. unfold evaluateCompound.
  destruct (negb (filterExpressionsValid (keys compound))); [apply ends_throw|].
  apply ends_bind.
  { unfold andGroup. destruct (objGet compound "and") as [[entries|]|] eqn:E;
      [|apply ends_throw | apply ends_ret].
    apply ends_allMatch. exact (groupsEnd_objGet _ _ _ Hall E). }
  intros passedAnd. destruct (negb passedAnd); [apply ends_ret|].
  apply ends_bind.
  { unfold orGroup. destruct (objGet compound "or") as [[entries|]|] eqn:E;
      [|apply ends_throw | apply ends_ret].
    pose proof (groupsEnd_objGet _ _ _ Hall E) as He.
    destruct entries; [apply ends_ret|]. apply ends_anyMatch. exact He. }
  intros passedOr. destruct (negb passedOr); [apply ends_ret|].
  unfold notGroup. destruct (objGet compound "not") as [[entries|]|] eqn:E;
    [|apply ends_throw | apply ends_ret].
  apply ends_noneMatch. exact (groupsEnd_objGet _ _ _ Hall E).
Qed.

Lemma ends_evaluateFilterNode_deep node :
  (forall context, ends (evaluateFilterNode evaluation node context))
  /\ match node with
     | VArr items =>
         Forall (fun item => forall context,
                     ends (evaluateFilterNode evaluation item context)) items
     | _ => True
     end.
Proof.
  induction node using value_nested_ind;
    try (split; [intros context; cbn [evaluateFilterNode];
                 first [apply ends_throw | apply ends_lift; discriminate]
                | exact I]).
  - split; [|exact I]. intros context. cbn [evaluateFilterNode].
    unfold evaluateFilterLiteral.
    destruct (String.length (Js.trim s) =? 0)%nat; [apply ends_ret|].
    apply ends_bind; [apply ends_evaluate_|]. intros result. apply ends_ret.
  - split; [intros context; apply ends_throw|].
    eapply Forall_impl; [exact H|]. intros item [Hitem _]. exact Hitem.
  - split; [|exact I]. intros context. cbn [evaluateFilterNode].
    apply ends_evaluateCompound. unfold TerminationSpec.groupsEnd. apply Forall_map.
    eapply Forall_impl; [exact H|]. intros [key v] [_ Hv]. cbn [fst snd] in *.
    destruct v; try exact I. apply Forall_map. exact Hv.
Qed.

Lemma ends_matchesFilter filter context :
  ends (matchesFilter evaluation filter context).
Proof.
  assert (Hcatch : ends (catch (evaluateFilterNode evaluation filter context)
                          (fun error =>
                             throw (ErrorCause ("Failed to process " +:+ context) error))))
    by (apply ends_catch_rethrow, ends_evaluateFilterNode_deep).
  unfold matchesFilter. destruct filter; try exact Hcatch; apply ends_ret.
Qed.

Lemma fileMatches_ends viewFilters viewLabel :
  fst (fileMatches jsep base viewFilters viewLabel file) <> OutOfFuel
  /\ Inv defs (snd (fileMatches jsep base viewFilters viewLabel file)).
Proof.
  assert (Hends : ends (do passedBase <- matchesFilter evaluation (filters base)
                                           (baseContext file);
                        if negb passedBase then ret false
                        else matchesFilter evaluation viewFilters
                                           (viewContext viewLabel file))).
  { apply ends_bind; [apply ends_matchesFilter|]. intros passedBase.
    destruct (negb passedBase); [apply ends_ret | apply ends_matchesFilter]. }
  assert (HI : Inv defs initialState).
  { intros k Hk. simpl in Hk. apply elem_of_empty in Hk. destruct Hk. }
  destruct Hends as [Hsim Hend]. unfold fileMatches. split.
  - exact (Hend initialState HI I).
  - destruct (Hsim initialState HI I) as (_ & HI' & _). exact HI'.
Qed.

Lemma formatValue_returns v : formatValue v <> OutOfFuel.
Proof.
  induction v using value_nested_ind; cbn [formatValue]; try discriminate.
  - apply toStringPrimitive_returns.
  - destruct (Js.toISOString t); discriminate.
  - induction H as [|x r Hx _ IH]; [discriminate|].
    destruct r as [|y r']; [exact Hx|].
    apply obind_returns; [exact Hx|]. intros a.
    apply obind_returns; [exact IH | discriminate].
  - destruct (objGet props "path") as [[]|]; try discriminate.
    destruct (objGet props "display") as [[]|]; try discriminate.
    destruct (_ <? _)%nat; discriminate.
Qed.

Lemma ends_evaluateRow columnKeys : ends (evaluateRow evaluation file columnKeys).
Proof.
  induction columnKeys as [|columnKey more IH]; cbn [evaluateRow]; [apply ends_ret|].
  apply ends_bind.
  - apply ends_catch_rethrow. apply ends_bind; [apply ends_evaluate_|].
    intros v. apply ends_lift, formatValue_returns.
  - intros cell. apply ends_bind; [exact IH|]. intros rest. apply ends_ret.
Qed.

End OneFile.

Lemma collectMatches_ends viewFilters viewLabel files :
  collectMatches jsep base viewFilters viewLabel files <> OutOfFuel
  /\ forall matches,
       collectMatches jsep base viewFilters viewLabel files = Ok matches ->
       Forall (fun m => Inv defs (snd m)) matches.
Proof.
  induction files as [|file more [IHend IHinv]]; cbn [collectMatches].
  - split; [discriminate|]. intros matches [= <-]. constructor.
  - destruct (fileMatches_ends file viewFilters viewLabel) as [Hend HI].
    destruct (fileMatches jsep base viewFilters viewLabel file) as [[[|]|e|w|] st];
      cbn [fst snd] in *; try (split; [discriminate | intros ?; discriminate]).
    + split.
      * apply obind_returns; [exact IHend | discriminate].
      * intros matches.
        destruct (collectMatches jsep base viewFilters viewLabel more) as [rest| | |];
          try discriminate.
        intros [= <-]. constructor; [exact HI | exact (IHinv rest eq_refl)].
    + split; [exact IHend | exact IHinv].
    + contradiction.
Qed.

Lemma evaluateRows_ends columnKeys matches :
  Forall (fun m : Vault.VaultFile * state => Inv defs (snd m)) matches ->
  evaluateRows jsep base columnKeys matches <> OutOfFuel.
Proof.
  induction 1 as [|[file st] more HI _ IH]; cbn [evaluateRows]; [discriminate|].
  apply obind_returns.
  - exact (proj2 (ends_evaluateRow file columnKeys) st HI I).
  - intros row. apply obind_returns; [exact IH | discriminate].
Qed.

(** X22. However the formulas of a base refer to each other, in chains
    of any length or in circles, [materialize] does not recurse through
    them without end: on every base, view name and vault the bound on
    nested formula evaluations, the number of formula definitions, is never
    used up, in the filters of the base, in those of the view and in the
    cells. The outcome is a table, an error, or the stop of the model at a
    host feature it does not cover (a member of a host namespace, say, such
    as [Object.constructor], whose call need not return): of these last
    runs nothing more is said. *)
Theorem materialize_recursion_is_bounded
        (viewName : string) (files : list Vault.VaultFile) :
  (exists rows, materialize jsep base viewName files = Ok rows)
  \/ (exists e, materialize jsep base viewName files = Throw e)
  \/ (exists what, materialize jsep base viewName files = Unmodelled what).
Proof.
  assert (Hfuel : materialize jsep base viewName files <> OutOfFuel).
  { unfold materialize.
    destruct (negb (isData _)); [discriminate|].
    destruct (negb (toBoolean _)); [discriminate|].
    destruct (length _ =? 0)%nat; [discriminate|].
    destruct (collectMatches_ends
                (field (selectView match views base with
                                   | VArr items => items
                                   | _ => []
                                   end viewName) "filters")
                match field (selectView match views base with
                                        | VArr items => items
                                        | _ => []
                                        end viewName) "name" with
                | VStr name => name
                | _ => viewName
                end files) as [Hend Hinv].
    destruct (collectMatches jsep base _ _ files) as [matches| | |];
      try discriminate; [|contradiction].
    cbn [obind]. apply obind_returns; [|discriminate].
    apply evaluateRows_ends. specialize (Hinv matches eq_refl).
    unfold limited. destruct (limitOf _) as [n|]; [|exact Hinv].
    rewrite List.Forall_forall in *. intros m Hm. apply Hinv.
    rewrite <- (firstn_skipn n matches). apply in_or_app. left. exact Hm. }
  destruct (materialize jsep base viewName files) as [rows|e|what|].
  - left. exists rows. reflexivity.
  - right. left. exists e. reflexivity.
  - right. right. exists what. reflexivity.
  - contradiction.
Qed.

End MaterializeEnds.

Example materialize_circular_formulas :
  Materialize.materialize Sample.jsep
    {| Materialize.filters := VUndefined;
       Materialize.formulas := Some [("label", VStr "formula.label")];
       Materialize.properties := None;
       Materialize.views := VArr [VObj [("name", VStr "All")]] |}
    "All" Sample.files
  = Throw
      (ErrorCause
         ("Failed to evaluate property " +:+ Duration.quote "formula.label"
          +:+ " for file " +:+ Duration.quote "alpha.md")
         (ErrorCause
            ("Failed to evaluate property " +:+ Duration.quote "formula.label")
            (ErrorCause
               ("Failed to evaluate formula " +:+ Duration.quote "label")
               (ErrorCause
                  ("Failed to evaluate formula " +:+ Duration.quote "label")
                  (Error ("Circular formula reference detected for "
                          +:+ Duration.quote "label")))))).
Proof. vm_compute. reflexivity. Qed.

(** ** Links in cells *)

(** X23. A link shows as its display text, or else as its path: the
    cell of what [link(path, display)] returns is [display] when that is a
    string that is not empty and the trimmed path otherwise, and the cell
    of [file.asLink(display)] is [display] or else the path of the file
    relative to the vault. *)
Theorem link_cell_text (file : Vault.VaultFile) (args : list value) (v : value) :
  (applyGlobal "link" args = Ok v ->
   exists path,
     normalizePathInput (arg args 0) = Ok (Some path)
     /\ formatValue v = Ok (LinkSpec.linkText path (arg args 1)))
  /\ (applyFileMethod file "asLink" args = Ok v ->
      formatValue v = Ok (LinkSpec.linkText (Vault.relativePath file) (arg args 0))).
Proof.
  split.
  - cbn. destruct (normalizePathInput (arg args 0)) as [[path|]| | |] eqn:E;
      cbn [obind]; try discriminate. intros [= <-].
    exists path. split; [reflexivity|].
    unfold createLinkObject, LinkSpec.linkText.
    destruct (arg args 1) as [ | | | | | text | | | | | | | | ]; try reflexivity.
    cbn. destruct (String.length text); reflexivity.
  - cbn. intros [= <-]. unfold LinkSpec.linkText.
    destruct (arg args 0) as [ | | | | | text | | | | | | | | ]; try reflexivity.
    cbn. destruct (String.length text); reflexivity.
Qed.

Lemma link_cell_text_witness :
  applyGlobal "link" [VStr " notes/a.md "; VStr ""]
  = Ok (VObj [("path", VStr "notes/a.md"); ("isEmbed", VBool false);
              ("display", VStr "")])
  /\ formatValue (VObj [("path", VStr "notes/a.md"); ("isEmbed", VBool false);
                        ("display", VStr "")])
     = Ok "notes/a.md".
Proof.
  assert (H : applyGlobal "link" [VStr " notes/a.md "; VStr ""]
              = Ok (VObj [("path", VStr "notes/a.md"); ("isEmbed", VBool false);
                          ("display", VStr "")]))
    by (vm_compute; reflexivity).
  split; [exact H|].
  pose proof (proj1 (link_cell_text (Sample.note "alpha" "active") _ _) H) as R.
  destruct R as (path & Hpath & Htext).
  vm_compute in Hpath. injection Hpath as <-. exact Htext.
Defined.
